(** * so3cmd_to_crazyflie_nodelet: SO3 command to Crazyflie cmd_vel conversion

    A shallow embedding of
    [interfaces/kr_crazyflie_interface/src/so3cmd_to_crazyflie_nodelet.cpp]
    and the properties of its callbacks, of their runs and of onInit.

    Numbers are the ones the C++ code computes with: [double] is IEEE 754
    binary64 and [float] is binary32, both taken from the Standard Library's
    [SpecFloat] (round to nearest, ties to even; every operation rounded on
    its own, i.e. no fused multiply-add and no extended precision).  The
    C++ [int]s are integers in [Z] with the 32-bit wrap-around written out
    where the code does arithmetic on them.

    What the nodelet takes from ROS, libm and Eigen (time stamps, [atan2],
    [asin], quaternion to matrix conversion) is not part of the source file;
    it is an interface, [Platform], over which everything is stated. *)

From Stdlib Require Import ZArith Zpower Bool List Lia.
From Stdlib Require Import Floats.SpecFloat.
Import ListNotations.

Local Open Scope Z_scope.

(** ** IEEE 754 numbers *)

Definition double := spec_float.
Definition float := spec_float.

(** binary64 arithmetic ([double]) *)
Module D.
Definition prec := 53.
Definition emax := 1024.
Definition add : double -> double -> double := SFadd prec emax.
Definition sub : double -> double -> double := SFsub prec emax.
Definition mul : double -> double -> double := SFmul prec emax.
Definition div : double -> double -> double := SFdiv prec emax.
Definition sqrt : double -> double := SFsqrt prec emax.
Definition opp : double -> double := SFopp.
Definition ltb : double -> double -> bool := SFltb.
Definition leb : double -> double -> bool := SFleb.
(** conversion of a C++ [int] *)
Definition of_int (z : Z) : double := binary_normalize prec emax z 0 false.
Definition valid (x : double) : bool := valid_binary prec emax x.
End D.

(** binary32 arithmetic ([float]) *)
Module F.
Definition prec := 24.
Definition emax := 128.
Definition add : float -> float -> float := SFadd prec emax.
Definition sub : float -> float -> float := SFsub prec emax.
Definition mul : float -> float -> float := SFmul prec emax.
Definition opp : float -> float := SFopp.
Definition ltb : float -> float -> bool := SFltb.
Definition leb : float -> float -> bool := SFleb.
Definition of_int (z : Z) : float := binary_normalize prec emax z 0 false.
Definition valid (x : float) : bool := valid_binary prec emax x.
End F.

(** Narrowing conversion [double -> float] (rounds). *)
Definition d2f (x : double) : float :=
  match x with
  | S754_finite s m e => binary_round F.prec F.emax s m e
  | _ => x
  end.

(** Widening conversion [float -> double] (exact). *)
Definition f2d (x : float) : double :=
  match x with
  | S754_finite s m e => binary_round D.prec D.emax s m e
  | _ => x
  end.

(** The [double] literals of the source. *)
Definition d_zero : double := S754_zero false.                          (* 0.0 *)
Definition M_PI : double := S754_finite false 7074237752028440 (-51).   (* 3.14159265358979323846 *)
Definition d_1e_6 : double := S754_finite false 4722366482869645 (-72). (* 1e-6 *)
Definition d_9_81 : double := S754_finite false 5522539043063071 (-49). (* 9.81 *)
Definition d_0_5 : double := S754_finite false 4503599627370496 (-53).  (* 0.5 *)
Definition d_0_1 : double := S754_finite false 7205759403792794 (-56).  (* 0.1 *)
Definition d_180 : double := S754_finite false 6333186975989760 (-45).  (* 180.0 *)

Definition is_nan (x : spec_float) : bool :=
  match x with S754_nan => true | _ => false end.

(** [std::max(a, b)] is [(a < b) ? b : a]. *)
Definition std_max (a b : double) : double := if D.ltb a b then b else a.

(** The CLAMP macro, at the types of its one use: [x] is a [float], [min] and
    [max] are [int]s.  The comparisons convert the [int] to [float]; the
    conditional expression has type [float]. *)
Definition CLAMP (x : float) (min max : Z) : float :=
  if F.ltb x (F.of_int min) then F.of_int min
  else if F.ltb (F.of_int max) x then F.of_int max
  else x.

(** C++ [int] addition, two's complement on 32 bits (what the compilers
    give where the standard leaves the overflow undefined). *)
Definition int_add (a b : Z) : Z := (a + b + 2^31) mod 2^32 - 2^31.

(** ** Eigen values *)

Record Vector3d := { vx : double; vy : double; vz : double }.
Record Quaterniond := { qw : double; qx : double; qy : double; qz : double }.
(** [R i j] is the coefficient [R(i, j)]. *)
Definition Matrix3d := Z -> Z -> double.

Definition Vector3d_Zero : Vector3d := {| vx := d_zero; vy := d_zero; vz := d_zero |}.

(** [a - b] and [v / s], coefficient by coefficient. *)
Definition v_sub (a b : Vector3d) : Vector3d :=
  {| vx := D.sub (vx a) (vx b); vy := D.sub (vy a) (vy b); vz := D.sub (vz a) (vz b) |}.
Definition v_div (v : Vector3d) (s : double) : Vector3d :=
  {| vx := D.div (vx v) s; vy := D.div (vy v) s; vz := D.div (vz v) s |}.

(** ** What the nodelet takes from its libraries *)

Class Platform := {
  (** [ros::Time] *)
  Time : Type;
  (** [elapsed a b] is [(a - b).toSec()] *)
  elapsed : Time -> Time -> double;
  (** [std::atan2], [std::asin] on [double] *)
  atan2 : double -> double -> double;
  asin : double -> double;
  (** [Eigen::Matrix3d(q)] *)
  toRotationMatrix : Quaterniond -> Matrix3d;
  (** [R * Eigen::AngleAxisd(angle, Eigen::Vector3d::UnitZ())] *)
  timesAngleAxisZ : Matrix3d -> double -> Matrix3d
}.

(** ** Messages

    The message declarations are generated from .msg files outside the source
    file; the records hold the fields the nodelet reads or writes. *)

(** [geometry_msgs::Twist]: six [float64], zero when constructed. *)
Record Twist := {
  linear_x : double; linear_y : double; linear_z : double;
  angular_x : double; angular_y : double; angular_z : double
}.

Definition Twist_new : Twist :=
  {| linear_x := d_zero; linear_y := d_zero; linear_z := d_zero;
     angular_x := d_zero; angular_y := d_zero; angular_z := d_zero |}.

(** [crazyflie_driver::crtpPacket]: a header byte, a size byte and 30 bytes
    of payload. *)
Record crtpPacket := { header : Z; size : Z; data : list Z }.

Definition crtpPacket_new : crtpPacket :=
  {| header := 0; size := 0; data := repeat 0 30 |}.

Fixpoint set_nth (i : nat) (v : Z) (l : list Z) : list Z :=
  match l, i with
  | [], _ => []
  | _ :: t, O => v :: t
  | h :: t, S i' => h :: set_nth i' v t
  end.

Definition set_header (v : Z) (p : crtpPacket) : crtpPacket :=
  {| header := v; size := size p; data := data p |}.
Definition set_size (v : Z) (p : crtpPacket) : crtpPacket :=
  {| header := header p; size := v; data := data p |}.
Definition set_data (i : nat) (v : Z) (p : crtpPacket) : crtpPacket :=
  {| header := header p; size := size p; data := set_nth i v (data p) |}.

Section Nodelet.
Context {P : Platform}.

(** [kr_mav_msgs::SO3Command] *)
Record SO3Command := {
  cmd_stamp : Time;                    (* header.stamp *)
  force : Vector3d;
  orientation : Quaterniond;
  angular_velocity : Vector3d;
  kR : Vector3d;                       (* float64[3], kR[2] is [vz] *)
  kOm : Vector3d;                      (* float64[3] *)
  angle_corrections : double * double; (* aux.angle_corrections, float64[2] *)
  enable_motors : bool                 (* aux.enable_motors *)
}.

(** [nav_msgs::Odometry] *)
Record Odometry := {
  odom_stamp : Time;                   (* header.stamp *)
  pose_orientation : Quaterniond;      (* pose.pose.orientation *)
  twist_angular : Vector3d             (* twist.twist.angular *)
}.

(** ** The nodelet's members *)

Record Node := {
  odom_set_ : bool;
  so3_cmd_set_ : bool;
  last_odom_time_ : Time;
  q_odom_ : Quaterniond;
  w_odom_ : Vector3d;
  w_odom_last : Vector3d;
  w_dot_odom_ : Vector3d;
  so3_cmd_timeout_ : double;
  last_so3_cmd_time_ : Time;
  last_so3_cmd_ : SO3Command;
  c1_ : double;
  c2_ : double;
  c3_ : double;
  ang_acc_d_gain : double;
  kp_yaw_rate_ : double;
  thrust_pwm_min_ : Z;
  thrust_pwm_max_ : Z;
  send_ctbr_cmds_ : bool;
  is_brushless_ : bool;
  motor_status_ : Z;
  armed_ : bool;
  arm_status_ : Z
}.

(** Assignments to the members the callbacks write. *)
Definition set_odom_set_ (v : bool) (n : Node) : Node :=
  {| odom_set_ := v; so3_cmd_set_ := so3_cmd_set_ n; last_odom_time_ := last_odom_time_ n;
     q_odom_ := q_odom_ n; w_odom_ := w_odom_ n; w_odom_last := w_odom_last n;
     w_dot_odom_ := w_dot_odom_ n; so3_cmd_timeout_ := so3_cmd_timeout_ n;
     last_so3_cmd_time_ := last_so3_cmd_time_ n; last_so3_cmd_ := last_so3_cmd_ n;
     c1_ := c1_ n; c2_ := c2_ n; c3_ := c3_ n; ang_acc_d_gain := ang_acc_d_gain n;
     kp_yaw_rate_ := kp_yaw_rate_ n; thrust_pwm_min_ := thrust_pwm_min_ n;
     thrust_pwm_max_ := thrust_pwm_max_ n; send_ctbr_cmds_ := send_ctbr_cmds_ n;
     is_brushless_ := is_brushless_ n; motor_status_ := motor_status_ n;
     armed_ := armed_ n; arm_status_ := arm_status_ n |}.
Definition set_so3_cmd_set_ (v : bool) (n : Node) : Node :=
  {| odom_set_ := odom_set_ n; so3_cmd_set_ := v; last_odom_time_ := last_odom_time_ n;
     q_odom_ := q_odom_ n; w_odom_ := w_odom_ n; w_odom_last := w_odom_last n;
     w_dot_odom_ := w_dot_odom_ n; so3_cmd_timeout_ := so3_cmd_timeout_ n;
     last_so3_cmd_time_ := last_so3_cmd_time_ n; last_so3_cmd_ := last_so3_cmd_ n;
     c1_ := c1_ n; c2_ := c2_ n; c3_ := c3_ n; ang_acc_d_gain := ang_acc_d_gain n;
     kp_yaw_rate_ := kp_yaw_rate_ n; thrust_pwm_min_ := thrust_pwm_min_ n;
     thrust_pwm_max_ := thrust_pwm_max_ n; send_ctbr_cmds_ := send_ctbr_cmds_ n;
     is_brushless_ := is_brushless_ n; motor_status_ := motor_status_ n;
     armed_ := armed_ n; arm_status_ := arm_status_ n |}.
Definition set_last_odom_time_ (v : Time) (n : Node) : Node :=
  {| odom_set_ := odom_set_ n; so3_cmd_set_ := so3_cmd_set_ n; last_odom_time_ := v;
     q_odom_ := q_odom_ n; w_odom_ := w_odom_ n; w_odom_last := w_odom_last n;
     w_dot_odom_ := w_dot_odom_ n; so3_cmd_timeout_ := so3_cmd_timeout_ n;
     last_so3_cmd_time_ := last_so3_cmd_time_ n; last_so3_cmd_ := last_so3_cmd_ n;
     c1_ := c1_ n; c2_ := c2_ n; c3_ := c3_ n; ang_acc_d_gain := ang_acc_d_gain n;
     kp_yaw_rate_ := kp_yaw_rate_ n; thrust_pwm_min_ := thrust_pwm_min_ n;
     thrust_pwm_max_ := thrust_pwm_max_ n; send_ctbr_cmds_ := send_ctbr_cmds_ n;
     is_brushless_ := is_brushless_ n; motor_status_ := motor_status_ n;
     armed_ := armed_ n; arm_status_ := arm_status_ n |}.
Definition set_q_odom_ (v : Quaterniond) (n : Node) : Node :=
  {| odom_set_ := odom_set_ n; so3_cmd_set_ := so3_cmd_set_ n; last_odom_time_ := last_odom_time_ n;
     q_odom_ := v; w_odom_ := w_odom_ n; w_odom_last := w_odom_last n;
     w_dot_odom_ := w_dot_odom_ n; so3_cmd_timeout_ := so3_cmd_timeout_ n;
     last_so3_cmd_time_ := last_so3_cmd_time_ n; last_so3_cmd_ := last_so3_cmd_ n;
     c1_ := c1_ n; c2_ := c2_ n; c3_ := c3_ n; ang_acc_d_gain := ang_acc_d_gain n;
     kp_yaw_rate_ := kp_yaw_rate_ n; thrust_pwm_min_ := thrust_pwm_min_ n;
     thrust_pwm_max_ := thrust_pwm_max_ n; send_ctbr_cmds_ := send_ctbr_cmds_ n;
     is_brushless_ := is_brushless_ n; motor_status_ := motor_status_ n;
     armed_ := armed_ n; arm_status_ := arm_status_ n |}.
Definition set_w_odom_ (v : Vector3d) (n : Node) : Node :=
  {| odom_set_ := odom_set_ n; so3_cmd_set_ := so3_cmd_set_ n; last_odom_time_ := last_odom_time_ n;
     q_odom_ := q_odom_ n; w_odom_ := v; w_odom_last := w_odom_last n;
     w_dot_odom_ := w_dot_odom_ n; so3_cmd_timeout_ := so3_cmd_timeout_ n;
     last_so3_cmd_time_ := last_so3_cmd_time_ n; last_so3_cmd_ := last_so3_cmd_ n;
     c1_ := c1_ n; c2_ := c2_ n; c3_ := c3_ n; ang_acc_d_gain := ang_acc_d_gain n;
     kp_yaw_rate_ := kp_yaw_rate_ n; thrust_pwm_min_ := thrust_pwm_min_ n;
     thrust_pwm_max_ := thrust_pwm_max_ n; send_ctbr_cmds_ := send_ctbr_cmds_ n;
     is_brushless_ := is_brushless_ n; motor_status_ := motor_status_ n;
     armed_ := armed_ n; arm_status_ := arm_status_ n |}.
Definition set_w_odom_last (v : Vector3d) (n : Node) : Node :=
  {| odom_set_ := odom_set_ n; so3_cmd_set_ := so3_cmd_set_ n; last_odom_time_ := last_odom_time_ n;
     q_odom_ := q_odom_ n; w_odom_ := w_odom_ n; w_odom_last := v;
     w_dot_odom_ := w_dot_odom_ n; so3_cmd_timeout_ := so3_cmd_timeout_ n;
     last_so3_cmd_time_ := last_so3_cmd_time_ n; last_so3_cmd_ := last_so3_cmd_ n;
     c1_ := c1_ n; c2_ := c2_ n; c3_ := c3_ n; ang_acc_d_gain := ang_acc_d_gain n;
     kp_yaw_rate_ := kp_yaw_rate_ n; thrust_pwm_min_ := thrust_pwm_min_ n;
     thrust_pwm_max_ := thrust_pwm_max_ n; send_ctbr_cmds_ := send_ctbr_cmds_ n;
     is_brushless_ := is_brushless_ n; motor_status_ := motor_status_ n;
     armed_ := armed_ n; arm_status_ := arm_status_ n |}.
Definition set_w_dot_odom_ (v : Vector3d) (n : Node) : Node :=
  {| odom_set_ := odom_set_ n; so3_cmd_set_ := so3_cmd_set_ n; last_odom_time_ := last_odom_time_ n;
     q_odom_ := q_odom_ n; w_odom_ := w_odom_ n; w_odom_last := w_odom_last n;
     w_dot_odom_ := v; so3_cmd_timeout_ := so3_cmd_timeout_ n;
     last_so3_cmd_time_ := last_so3_cmd_time_ n; last_so3_cmd_ := last_so3_cmd_ n;
     c1_ := c1_ n; c2_ := c2_ n; c3_ := c3_ n; ang_acc_d_gain := ang_acc_d_gain n;
     kp_yaw_rate_ := kp_yaw_rate_ n; thrust_pwm_min_ := thrust_pwm_min_ n;
     thrust_pwm_max_ := thrust_pwm_max_ n; send_ctbr_cmds_ := send_ctbr_cmds_ n;
     is_brushless_ := is_brushless_ n; motor_status_ := motor_status_ n;
     armed_ := armed_ n; arm_status_ := arm_status_ n |}.
Definition set_last_so3_cmd_time_ (v : Time) (n : Node) : Node :=
  {| odom_set_ := odom_set_ n; so3_cmd_set_ := so3_cmd_set_ n; last_odom_time_ := last_odom_time_ n;
     q_odom_ := q_odom_ n; w_odom_ := w_odom_ n; w_odom_last := w_odom_last n;
     w_dot_odom_ := w_dot_odom_ n; so3_cmd_timeout_ := so3_cmd_timeout_ n;
     last_so3_cmd_time_ := v; last_so3_cmd_ := last_so3_cmd_ n;
     c1_ := c1_ n; c2_ := c2_ n; c3_ := c3_ n; ang_acc_d_gain := ang_acc_d_gain n;
     kp_yaw_rate_ := kp_yaw_rate_ n; thrust_pwm_min_ := thrust_pwm_min_ n;
     thrust_pwm_max_ := thrust_pwm_max_ n; send_ctbr_cmds_ := send_ctbr_cmds_ n;
     is_brushless_ := is_brushless_ n; motor_status_ := motor_status_ n;
     armed_ := armed_ n; arm_status_ := arm_status_ n |}.
Definition set_last_so3_cmd_ (v : SO3Command) (n : Node) : Node :=
  {| odom_set_ := odom_set_ n; so3_cmd_set_ := so3_cmd_set_ n; last_odom_time_ := last_odom_time_ n;
     q_odom_ := q_odom_ n; w_odom_ := w_odom_ n; w_odom_last := w_odom_last n;
     w_dot_odom_ := w_dot_odom_ n; so3_cmd_timeout_ := so3_cmd_timeout_ n;
     last_so3_cmd_time_ := last_so3_cmd_time_ n; last_so3_cmd_ := v;
     c1_ := c1_ n; c2_ := c2_ n; c3_ := c3_ n; ang_acc_d_gain := ang_acc_d_gain n;
     kp_yaw_rate_ := kp_yaw_rate_ n; thrust_pwm_min_ := thrust_pwm_min_ n;
     thrust_pwm_max_ := thrust_pwm_max_ n; send_ctbr_cmds_ := send_ctbr_cmds_ n;
     is_brushless_ := is_brushless_ n; motor_status_ := motor_status_ n;
     armed_ := armed_ n; arm_status_ := arm_status_ n |}.
Definition set_motor_status_ (v : Z) (n : Node) : Node :=
  {| odom_set_ := odom_set_ n; so3_cmd_set_ := so3_cmd_set_ n; last_odom_time_ := last_odom_time_ n;
     q_odom_ := q_odom_ n; w_odom_ := w_odom_ n; w_odom_last := w_odom_last n;
     w_dot_odom_ := w_dot_odom_ n; so3_cmd_timeout_ := so3_cmd_timeout_ n;
     last_so3_cmd_time_ := last_so3_cmd_time_ n; last_so3_cmd_ := last_so3_cmd_ n;
     c1_ := c1_ n; c2_ := c2_ n; c3_ := c3_ n; ang_acc_d_gain := ang_acc_d_gain n;
     kp_yaw_rate_ := kp_yaw_rate_ n; thrust_pwm_min_ := thrust_pwm_min_ n;
     thrust_pwm_max_ := thrust_pwm_max_ n; send_ctbr_cmds_ := send_ctbr_cmds_ n;
     is_brushless_ := is_brushless_ n; motor_status_ := v;
     armed_ := armed_ n; arm_status_ := arm_status_ n |}.
Definition set_armed_ (v : bool) (n : Node) : Node :=
  {| odom_set_ := odom_set_ n; so3_cmd_set_ := so3_cmd_set_ n; last_odom_time_ := last_odom_time_ n;
     q_odom_ := q_odom_ n; w_odom_ := w_odom_ n; w_odom_last := w_odom_last n;
     w_dot_odom_ := w_dot_odom_ n; so3_cmd_timeout_ := so3_cmd_timeout_ n;
     last_so3_cmd_time_ := last_so3_cmd_time_ n; last_so3_cmd_ := last_so3_cmd_ n;
     c1_ := c1_ n; c2_ := c2_ n; c3_ := c3_ n; ang_acc_d_gain := ang_acc_d_gain n;
     kp_yaw_rate_ := kp_yaw_rate_ n; thrust_pwm_min_ := thrust_pwm_min_ n;
     thrust_pwm_max_ := thrust_pwm_max_ n; send_ctbr_cmds_ := send_ctbr_cmds_ n;
     is_brushless_ := is_brushless_ n; motor_status_ := motor_status_ n;
     armed_ := v; arm_status_ := arm_status_ n |}.

(** ** Effects

    A callback changes the members and talks to the outside: it publishes on
    one of the two topics, calls the send_packet service, sleeps.  The
    outside is a [World]: what the service will answer to the calls to come,
    and the trace of what was done so far, oldest first.  The log macros
    (ROS_INFO, ROS_ERROR) only print; the outcome they print is kept in the
    [ServiceCall] event. *)

Inductive Channel :=
| cmd_vel          (* crazy_cmd_vel_pub_ *)
| cmd_vel_fast.    (* crazy_fast_cmd_vel_pub_ *)

Inductive Event :=
| Publish (ch : Channel) (t : Twist)
| ServiceCall (p : crtpPacket) (ok : bool)   (* packet_client_.call(srv) and what it returned *)
| Sleep (d : double).                        (* ros::Duration(d).sleep() *)

Record World := {
  replies : list bool;   (* what the service calls to come return; none left: the call fails *)
  trace : list Event
}.

Definition M (A : Type) : Type := Node -> World -> A * Node * World.

Definition ret {A} (a : A) : M A := fun n w => (a, n, w).
Definition bind {A B} (m : M A) (k : A -> M B) : M B :=
  fun n w => let '(a, n', w') := m n w in k a n' w'.

Notation "x <- m ;; k" := (bind m (fun x => k))
  (at level 61, m at next level, right associativity).
Notation "m ;; k" := (bind m (fun _ => k))
  (at level 61, right associativity).

Definition get {A} (field : Node -> A) : M A := fun n w => (field n, n, w).
Definition assign (f : Node -> Node) : M unit := fun n w => (tt, f n, w).
Definition emit (e : Event) : M unit :=
  fun n w => (tt, n, {| replies := replies w; trace := trace w ++ [e] |}).

Definition publish (ch : Channel) (t : Twist) : M unit := emit (Publish ch t).
Definition sleep (d : double) : M unit := emit (Sleep d).
Definition call (p : crtpPacket) : M bool :=
  fun n w =>
    match replies w with
    | [] => (false, n, {| replies := []; trace := trace w ++ [ServiceCall p false] |})
    | ok :: rest => (ok, n, {| replies := rest; trace := trace w ++ [ServiceCall p ok] |})
    end.

(** [for(int i=0; i<k; i++) body] *)
Fixpoint for_ (k : nat) (body : M unit) : M unit :=
  match k with
  | O => ret tt
  | S k' => body ;; for_ k' body
  end.

Definition when (b : bool) (m : M unit) : M unit := if b then m else ret tt.

(** ** send_arming_request *)

Definition arming_packet (arm : bool) : crtpPacket :=
  set_data 1 (if arm then 1 else 0)
    (set_data 0 1 (set_size 2 (set_header 220 crtpPacket_new))).

Definition send_arming_request (arm : bool) : M unit :=
  _ <- call (arming_packet arm) ;;
  ret tt.

(** ** reboot *)

Definition sysoff_packet : crtpPacket :=
  set_data 1 2 (set_data 0 254 (set_size 2 (set_header 255 crtpPacket_new))).
Definition syson_packet : crtpPacket := set_data 1 3 sysoff_packet.

Definition reboot : M unit :=
  _ <- call sysoff_packet ;;
  sleep d_0_5 ;;
  _ <- call syson_packet ;;
  ret tt.

(** ** so3_cmd_callback: the conversion (the part after the motor sequencing) *)

Section Conversion.
Variable n : Node.
Variable msg : SO3Command.

Definition R_des : Matrix3d := toRotationMatrix (orientation msg).
Definition R_cur : Matrix3d := toRotationMatrix (q_odom_ n).

Definition yaw_cur : float := d2f (atan2 (R_cur 1 0) (R_cur 0 0)).
Definition yaw_des : float := d2f (atan2 (R_des 1 0) (R_des 0 0)).

Definition R_des_new : Matrix3d := timesAngleAxisZ R_des (f2d (F.sub yaw_cur yaw_des)).

(** [roll_des] and [pitch_des] after the conversion to degrees:
    [x * 180 / M_PI] is a [float] times an [int], divided by a [double]. *)
Definition to_degrees (x : float) : float :=
  d2f (D.div (f2d (F.mul x (F.of_int 180))) M_PI).
Definition pitch_des : float := to_degrees (d2f (D.opp (asin (R_des_new 2 0)))).
Definition roll_des : float := to_degrees (d2f (atan2 (R_des_new 2 1) (R_des_new 2 2))).

(** Force along the current body z axis, in Newtons. *)
Definition thrust_f : double :=
  D.add (D.add (D.mul (vx (force msg)) (R_cur 0 2)) (D.mul (vy (force msg)) (R_cur 1 2)))
        (D.mul (vz (force msg)) (R_cur 2 2)).

(** From the force in Newtons to the thrust before clamping:
    [max] with 0, grams, calibration curve, scaling by [thrust_pwm_max_]. *)
Definition thrust_pwm_of (thrust_f : double) : float :=
  let thrust_f := std_max thrust_f d_zero in
  let thrust_f := D.div (D.mul thrust_f (D.of_int 1000)) d_9_81 in
  let thrust_pwm := d2f (D.add (c1_ n) (D.mul (c2_ n) (D.sqrt (D.add (c3_ n) thrust_f)))) in
  F.mul thrust_pwm (F.of_int (thrust_pwm_max_ n)).

Definition thrust_pwm : float := thrust_pwm_of thrust_f.

Definition two_pi : double := D.mul (D.of_int 2) M_PI.

(** The wrap of the yaw error. *)
Definition wrap_yaw (e_yaw : float) : float :=
  if D.ltb M_PI (f2d e_yaw) then d2f (D.sub (f2d e_yaw) two_pi)
  else if D.ltb (f2d e_yaw) (D.opp M_PI) then d2f (D.add (f2d e_yaw) two_pi)
  else e_yaw.

Definition e_yaw : float := wrap_yaw (F.sub yaw_des yaw_cur).

Definition yaw_rate_des : float :=
  d2f (D.mul (D.sub (D.mul (D.opp (vz (kR msg))) (f2d e_yaw)) (vz (angular_velocity msg)))
             (D.div (D.of_int 180) M_PI)).

(** Rate mode: P term on the angular velocity error, D term on the angular
    acceleration. *)
Definition roll_rate_p : float :=
  d2f (D.mul (vx (kOm msg)) (D.sub (vx (angular_velocity msg)) (vx (w_odom_ n)))).
Definition pitch_rate_p : float :=
  d2f (D.mul (vy (kOm msg)) (D.sub (vy (angular_velocity msg)) (vy (w_odom_ n)))).
Definition roll_rate_d : float := d2f (D.mul (ang_acc_d_gain n) (vx (w_dot_odom_ n))).
Definition pitch_rate_d : float := d2f (D.mul (ang_acc_d_gain n) (vy (w_dot_odom_ n))).
Definition roll_rate_des : float :=
  d2f (D.mul (f2d (F.sub roll_rate_p roll_rate_d)) (D.div d_180 M_PI)).
Definition pitch_rate_des : float :=
  d2f (D.mul (f2d (F.sub pitch_rate_p pitch_rate_d)) (D.div d_180 M_PI)).

(** The message published on cmd_vel_fast. *)
Definition crazy_vel_cmd : Twist :=
  {| linear_x :=
       if send_ctbr_cmds_ n then f2d pitch_rate_des
       else D.add (f2d pitch_des) (snd (angle_corrections msg));
     linear_y :=
       if send_ctbr_cmds_ n then f2d roll_rate_des
       else D.add (f2d roll_des) (fst (angle_corrections msg));
     linear_z := f2d (CLAMP thrust_pwm (thrust_pwm_min_ n) (thrust_pwm_max_ n));
     angular_x := d_zero;
     angular_y := d_zero;
     angular_z := f2d yaw_rate_des |}.
End Conversion.

(** [last_so3_cmd_ = *msg; last_so3_cmd_time_ = msg->header.stamp;] *)
Definition save_last (msg : SO3Command) : M unit :=
  assign (set_last_so3_cmd_ msg) ;;
  assign (set_last_so3_cmd_time_ (cmd_stamp msg)).

Definition convert_and_publish (msg : SO3Command) : M unit :=
  n <- get (fun n => n) ;;
  publish cmd_vel_fast (crazy_vel_cmd n msg) ;;
  save_last msg.

(** The message with [linear.z = thrust_pwm_min_] ([int] to [double]). *)
Definition min_thrust_cmd (n : Node) : Twist :=
  {| linear_x := d_zero; linear_y := d_zero; linear_z := D.of_int (thrust_pwm_min_ n);
     angular_x := d_zero; angular_y := d_zero; angular_z := d_zero |}.

(** ** so3_cmd_callback *)

Definition so3_cmd_callback (msg : SO3Command) : M unit :=
  set <- get so3_cmd_set_ ;;
  when (negb set) (assign (set_so3_cmd_set_ true)) ;;
  if enable_motors msg then
    (* First try to arm the drone. *)
    brushless <- get is_brushless_ ;;
    armed <- get armed_ ;;
    when brushless
      (when (negb armed)
         (for_ 1 (send_arming_request true) ;;
          assign (set_armed_ true))) ;;
    status <- get motor_status_ ;;
    if status <? 3 then
      (* zero message to get the motors to start; return *)
      publish cmd_vel Twist_new ;;
      save_last msg ;;
      assign (set_motor_status_ (int_add status 1))
    else
      (* after the zero messages, min thrust *)
      when (status <? 10)
        (n <- get (fun n => n) ;;
         publish cmd_vel (min_thrust_cmd n)) ;;
      assign (set_motor_status_ (int_add status 1)) ;;
      convert_and_publish msg
  else
    assign (set_motor_status_ 0) ;;
    publish cmd_vel Twist_new ;;
    save_last msg ;;
    (* Disarm motors *)
    brushless <- get is_brushless_ ;;
    armed <- get armed_ ;;
    when brushless
      (when armed
         (for_ 1 (send_arming_request false) ;;
          assign (set_armed_ false) ;;
          (* Reboot Crazyflie to be armed again. *)
          reboot)).
    (* return *)

(** ** odom_callback *)

(** The angular acceleration by finite differences (the first if/else of
    the callback). *)
Definition update_w_dot (current_time : Time) (w_odom_current : Vector3d) : M unit :=
  set <- get odom_set_ ;;
  if negb set then
    assign (set_odom_set_ true) ;;
    assign (set_w_odom_last w_odom_current) ;;
    assign (set_last_odom_time_ current_time) ;;
    assign (set_w_dot_odom_ Vector3d_Zero)
  else
    last <- get last_odom_time_ ;;
    let dt := elapsed current_time last in
    when (D.ltb d_1e_6 dt)
      (w_last <- get w_odom_last ;;
       assign (set_w_dot_odom_ (v_div (v_sub w_odom_current w_last) dt)) ;;
       assign (set_w_odom_last w_odom_current) ;;
       assign (set_last_odom_time_ current_time)).

(** Is the stored command older than the timeout?  [now] is what
    [ros::Time::now()] returns when the callback evaluates the test. *)
Definition so3_cmd_timed_out (now : Time) (n : Node) : bool :=
  so3_cmd_set_ n && D.leb (so3_cmd_timeout_ n) (elapsed now (last_so3_cmd_time_ n)).

(** The callback up to the timeout test: the sample is stored. *)
Definition store_odom (odom : Odometry) : M unit :=
  let current_time := odom_stamp odom in
  let w_odom_current := twist_angular odom in
  update_w_dot current_time w_odom_current ;;
  assign (set_q_odom_ (pose_orientation odom)) ;;
  assign (set_w_odom_ w_odom_current).

Definition odom_callback (odom : Odometry) (now : Time) : M unit :=
  store_odom odom ;;
  n <- get (fun n => n) ;;
  when (so3_cmd_timed_out now n)
    (so3_cmd_callback (last_so3_cmd_ n)).

End Nodelet.

(** ** onInit

    The parameter server holds a value for a name or not; [getParam] leaves
    the member as it is when the name is missing (ROS_FATAL only prints),
    [param] falls back to the default. *)

Record ParamServer := {
  param_kp_yaw_rate : option double;
  param_c1 : option double;
  param_c2 : option double;
  param_c3 : option double;
  param_ang_acc_d_gain : option double;
  param_so3_cmd_timeout : option double;
  param_is_brushless : option bool;
  param_send_ctbr_cmds : option bool;
  param_thrust_pwm_max : option Z;
  param_thrust_pwm_min : option Z;
  param_mav_name : option (list Z)
}.

Definition getParam {A} (p : option A) (var : A) : A :=
  match p with Some v => v | None => var end.
Definition param {A} (p : option A) (default : A) : A :=
  match p with Some v => v | None => default end.
Definition has {A} (p : option A) : bool :=
  match p with Some _ => true | None => false end.

Section Init.
Context {P : Platform}.

(** The members after [onInit]; [this] is the object before it.  The three
    thrust coefficients are read with [&&]: a missing one stops the reading. *)
Definition onInit (ps : ParamServer) (this : Node) : Node :=
  {| odom_set_ := false;
     so3_cmd_set_ := false;
     last_odom_time_ := last_odom_time_ this;
     q_odom_ := q_odom_ this;
     w_odom_ := w_odom_ this;
     w_odom_last := w_odom_last this;
     w_dot_odom_ := w_dot_odom_ this;
     so3_cmd_timeout_ := param (param_so3_cmd_timeout ps) d_0_1;
     last_so3_cmd_time_ := last_so3_cmd_time_ this;
     last_so3_cmd_ := last_so3_cmd_ this;
     c1_ := getParam (param_c1 ps) (c1_ this);
     c2_ := if has (param_c1 ps) then getParam (param_c2 ps) (c2_ this) else c2_ this;
     c3_ := if has (param_c1 ps) && has (param_c2 ps)
            then getParam (param_c3 ps) (c3_ this) else c3_ this;
     ang_acc_d_gain := getParam (param_ang_acc_d_gain ps) (ang_acc_d_gain this);
     kp_yaw_rate_ := getParam (param_kp_yaw_rate ps) (kp_yaw_rate_ this);
     thrust_pwm_min_ := param (param_thrust_pwm_min ps) 10000;
     thrust_pwm_max_ := param (param_thrust_pwm_max ps) 60000;
     send_ctbr_cmds_ := param (param_send_ctbr_cmds ps) false;
     is_brushless_ := param (param_is_brushless ps) false;
     motor_status_ := 0;
     armed_ := false;
     arm_status_ := 0 |}.

(** Without a mav_name [onInit] returns before it subscribes: no callback
    ever runs. *)
Definition subscribed (ps : ParamServer) : bool := has (param_mav_name ps).

(** ** Runs of the nodelet: the callbacks in the order the messages arrive *)

Inductive Input :=
| Cmd (msg : SO3Command)                  (* a message on so3_cmd *)
| Odom (odom : Odometry) (now : Time).    (* a message on odom, and the clock when it is handled *)

Definition step (i : Input) : M unit :=
  match i with
  | Cmd msg => so3_cmd_callback msg
  | Odom odom now => odom_callback odom now
  end.

Fixpoint run (inputs : list Input) : M unit :=
  match inputs with
  | [] => ret tt
  | i :: rest => bind (step i) (fun _ => run rest)
  end.

(** The members and the world after [m]. *)
Definition exec {A} (m : M A) (n : Node) (w : World) : Node * World :=
  let '(_, n', w') := m n w in (n', w').

Definition start (answers : list bool) : World := {| replies := answers; trace := [] |}.

(** A state the nodelet can be in: after [onInit] and some inputs, none
    when [onInit] did not subscribe. *)
Definition reachable (n : Node) (w : World) : Prop :=
  exists ps this answers inputs,
    (subscribed ps = true \/ inputs = []) /\
    exec (run inputs) (onInit ps this) (start answers) = (n, w).

(** What a callback did: the events it added to the trace. *)
Definition events_of {A} (m : M A) (n : Node) (w : World) : list Event :=
  skipn (length (trace w)) (trace (snd (exec m n w))).

Definition publications (evs : list Event) : list (Channel * Twist) :=
  flat_map (fun e => match e with Publish ch t => [(ch, t)] | _ => [] end) evs.

Definition requests (evs : list Event) : list crtpPacket :=
  flat_map (fun e => match e with ServiceCall p _ => [p] | _ => [] end) evs.

End Init.

(** ** A platform to run the callbacks on

    Time stamps are nanoseconds; a duration in seconds is the whole seconds
    plus 1e-9 times the remaining nanoseconds, as ros::Duration::toSec has it.
    [atan2] and [asin] have the values C fixes for arguments on the axes
    (Annex F.10.1) and NaN where a libm would round a transcendental value;
    the rotation by the angle 0 leaves the matrix as it is.  The quaternion
    to matrix conversion is the one of Eigen::QuaternionBase. *)

Definition d_1e_9 : double :=
  Eval vm_compute in D.div (D.of_int 1) (D.of_int 1000000000).

Definition ns_elapsed (a b : Z) : double :=
  let d := a - b in
  D.add (D.of_int (d / 10^9)) (D.mul d_1e_9 (D.of_int (d mod 10^9))).

Definition with_sign (s : bool) (x : double) : double := if s then D.opp x else x.

Definition half_pi : double := Eval vm_compute in D.div M_PI (D.of_int 2).

Definition axis_atan2 (y x : double) : double :=
  match y, x with
  | S754_zero sy, (S754_zero sx | S754_finite sx _ _ | S754_infinity sx) =>
      if sx then with_sign sy M_PI else y
  | (S754_finite sy _ _ | S754_infinity sy), S754_zero _ => with_sign sy half_pi
  | _, _ => S754_nan
  end.

Definition axis_asin (x : double) : double :=
  match x with
  | S754_zero _ => x
  | _ => S754_nan
  end.

Definition eigen_toRotationMatrix (q : Quaterniond) : Matrix3d :=
  let two := D.of_int 2 in
  let one := D.of_int 1 in
  let tx := D.mul two (qx q) in
  let ty := D.mul two (qy q) in
  let tz := D.mul two (qz q) in
  let twx := D.mul tx (qw q) in
  let twy := D.mul ty (qw q) in
  let twz := D.mul tz (qw q) in
  let txx := D.mul tx (qx q) in
  let txy := D.mul ty (qx q) in
  let txz := D.mul tz (qx q) in
  let tyy := D.mul ty (qy q) in
  let tyz := D.mul tz (qy q) in
  let tzz := D.mul tz (qz q) in
  fun i j =>
    match i, j with
    | 0, 0 => D.sub one (D.add tyy tzz)
    | 0, 1 => D.sub txy twz
    | 0, 2 => D.add txz twy
    | 1, 0 => D.add txy twz
    | 1, 1 => D.sub one (D.add txx tzz)
    | 1, 2 => D.sub tyz twx
    | 2, 0 => D.sub txz twy
    | 2, 1 => D.add tyz twx
    | 2, 2 => D.sub one (D.add txx tyy)
    | _, _ => S754_nan
    end.

Definition axis_timesAngleAxisZ (R : Matrix3d) (angle : double) : Matrix3d :=
  match angle with
  | S754_zero _ => R
  | _ => fun _ _ => S754_nan
  end.

#[export] Instance axis_platform : Platform := {
  Time := Z;
  elapsed := ns_elapsed;
  atan2 := axis_atan2;
  asin := axis_asin;
  toRotationMatrix := eigen_toRotationMatrix;
  timesAngleAxisZ := axis_timesAngleAxisZ
}.

(** ** Concrete data for the examples *)

Definition q_identity : Quaterniond :=
  {| qw := D.of_int 1; qx := d_zero; qy := d_zero; qz := d_zero |}.

(** The half turn about z. *)
Definition q_half_turn : Quaterniond :=
  {| qw := d_zero; qx := d_zero; qy := d_zero; qz := D.of_int 1 |}.

(** A command at time [t] (nanoseconds) with the force [fz] along z. *)
Definition a_command (enable : bool) (t : Z) (fz : double) : SO3Command :=
  {| cmd_stamp := t;
     force := {| vx := d_zero; vy := d_zero; vz := fz |};
     orientation := q_identity;
     angular_velocity := Vector3d_Zero;
     kR := Vector3d_Zero;
     kOm := Vector3d_Zero;
     angle_corrections := (d_zero, d_zero);
     enable_motors := enable |}.

Definition an_odometry (t : Z) (q : Quaterniond) (w : Vector3d) : Odometry :=
  {| odom_stamp := t; pose_orientation := q; twist_angular := w |}.

(** The object before [onInit]. *)
Definition blank_node : Node :=
  {| odom_set_ := false; so3_cmd_set_ := false; last_odom_time_ := 0;
     q_odom_ := q_identity; w_odom_ := Vector3d_Zero; w_odom_last := Vector3d_Zero;
     w_dot_odom_ := Vector3d_Zero; so3_cmd_timeout_ := d_zero;
     last_so3_cmd_time_ := 0; last_so3_cmd_ := a_command false 0 d_zero;
     c1_ := d_zero; c2_ := d_zero; c3_ := d_zero; ang_acc_d_gain := d_zero;
     kp_yaw_rate_ := d_zero; thrust_pwm_min_ := 0; thrust_pwm_max_ := 0;
     send_ctbr_cmds_ := false; is_brushless_ := false;
     motor_status_ := 0; armed_ := false; arm_status_ := 0 |}.

(** Thrust curve [0.5 + 0 * sqrt(0 + f)], the default timeout and PWM
    bounds (0.1 s, 10000, 60000). *)
Definition some_params (brushless : bool) : ParamServer :=
  {| param_kp_yaw_rate := Some d_zero;
     param_c1 := Some d_0_5; param_c2 := Some d_zero; param_c3 := Some d_zero;
     param_ang_acc_d_gain := Some d_zero;
     param_so3_cmd_timeout := None;
     param_is_brushless := Some brushless;
     param_send_ctbr_cmds := None;
     param_thrust_pwm_max := None;
     param_thrust_pwm_min := None;
     param_mav_name := Some [99; 102] |}.

Definition fresh_node (brushless : bool) : Node := onInit (some_params brushless) blank_node.

(** ** What the properties are stated with *)

Fixpoint bytes_eqb (a b : list Z) : bool :=
  match a, b with
  | [], [] => true
  | x :: a', y :: b' => (x =? y) && bytes_eqb a' b'
  | _, _ => false
  end.

Definition packet_eqb (p q : crtpPacket) : bool :=
  (header p =? header q) && (size p =? size q) && bytes_eqb (data p) (data q).

Section Statements.
Context {P : Platform}.

(** The events of a disarming: the disarm request, SYSOFF, the pause, SYSON,
    each request with what the service answered. *)
Definition disarm_events (r1 r2 r3 : bool) : list Event :=
  [ServiceCall (arming_packet false) r1; ServiceCall sysoff_packet r2; Sleep d_0_5;
   ServiceCall syson_packet r3].

(** The events of a command with the motors enabled: the arm request of a
    brushless vehicle that is not armed, then the publications. *)
Definition arm_events (n : Node) (w : World) : list Event :=
  if is_brushless_ n && negb (armed_ n)
  then [ServiceCall (arming_packet true) (nth 0 (replies w) false)]
  else [].

Definition enabled_publications (n : Node) (msg : SO3Command) : list Event :=
  if motor_status_ n <? 3 then [Publish cmd_vel Twist_new]
  else (if motor_status_ n <? 10 then [Publish cmd_vel (min_thrust_cmd n)] else [])
       ++ [Publish cmd_vel_fast (crazy_vel_cmd n msg)].

(** What neither branch of so3_cmd_callback touches: the odometry members
    and the configuration. *)
Definition same_odom (n n' : Node) : Prop :=
  odom_set_ n' = odom_set_ n /\ last_odom_time_ n' = last_odom_time_ n /\
  q_odom_ n' = q_odom_ n /\ w_odom_ n' = w_odom_ n /\
  w_odom_last n' = w_odom_last n /\ w_dot_odom_ n' = w_dot_odom_ n.

Definition same_config (n n' : Node) : Prop :=
  so3_cmd_timeout_ n' = so3_cmd_timeout_ n /\
  c1_ n' = c1_ n /\ c2_ n' = c2_ n /\ c3_ n' = c3_ n /\
  ang_acc_d_gain n' = ang_acc_d_gain n /\ kp_yaw_rate_ n' = kp_yaw_rate_ n /\
  thrust_pwm_min_ n' = thrust_pwm_min_ n /\ thrust_pwm_max_ n' = thrust_pwm_max_ n /\
  send_ctbr_cmds_ n' = send_ctbr_cmds_ n /\ is_brushless_ n' = is_brushless_ n.

(** What storing an odometry sample does not touch. *)
Definition same_cmd_state (n n' : Node) : Prop :=
  so3_cmd_set_ n' = so3_cmd_set_ n /\ last_so3_cmd_ n' = last_so3_cmd_ n /\
  last_so3_cmd_time_ n' = last_so3_cmd_time_ n /\
  motor_status_ n' = motor_status_ n /\ armed_ n' = armed_ n.

(** The three cases of the finite difference. *)
Definition w_dot_updated (n : Node) (odom : Odometry) (n' : Node) : Prop :=
  let dt := elapsed (odom_stamp odom) (last_odom_time_ n) in
  (odom_set_ n = false ->
     w_odom_last n' = twist_angular odom /\
     last_odom_time_ n' = odom_stamp odom /\
     w_dot_odom_ n' = Vector3d_Zero) /\
  (odom_set_ n = true -> D.ltb d_1e_6 dt = true ->
     w_dot_odom_ n' = v_div (v_sub (twist_angular odom) (w_odom_last n)) dt /\
     w_odom_last n' = twist_angular odom /\
     last_odom_time_ n' = odom_stamp odom) /\
  (odom_set_ n = true -> D.ltb d_1e_6 dt = false ->
     w_dot_odom_ n' = w_dot_odom_ n /\
     w_odom_last n' = w_odom_last n /\
     last_odom_time_ n' = last_odom_time_ n).

(** Was an arm request sent since the last disarm request (or since the
    start, when there was none)? *)
Definition note_request (armed : bool) (e : Event) : bool :=
  match e with
  | ServiceCall p _ =>
      if packet_eqb p (arming_packet true) then true
      else if packet_eqb p (arming_packet false) then false
      else armed
  | _ => armed
  end.
Definition arm_requested (evs : list Event) : bool := fold_left note_request evs false.

(** The same for the requests the service acknowledged, as the spec words
    it: "at least one successful arm request was issued since the last
    disarm". *)
Definition note_success (armed : bool) (e : Event) : bool :=
  match e with
  | ServiceCall p ok =>
      if packet_eqb p (arming_packet true) then armed || ok
      else if packet_eqb p (arming_packet false) then false
      else armed
  | _ => armed
  end.
Definition spec_arm_succeeded (evs : list Event) : bool := fold_left note_success evs false.

(** Is a published thrust within [thrust_pwm_min_, thrust_pwm_max_]? *)
Definition within_pwm (n : Node) (thrust : double) : bool :=
  D.leb (D.of_int (thrust_pwm_min_ n)) thrust && D.leb thrust (D.of_int (thrust_pwm_max_ n)).

(** What [atan2] returns for its contract: a [double] from [-M_PI] to
    [M_PI].  [M_PI] is the [double] next to pi and below it, so these are
    the [double]s in [-pi, pi]. *)
Definition yaw_angle (a : double) : Prop :=
  D.valid a = true /\ D.leb (D.opp M_PI) a = true /\ D.leb a M_PI = true.

(** The thrust of a force that is not positive, as the spec words it:
    clamp(c1 + c2*sqrt(c3), pwmMin, pwmMax). *)
Definition spec_zero_force_floor (n : Node) : float :=
  CLAMP (d2f (D.add (c1_ n) (D.mul (c2_ n) (D.sqrt (c3_ n)))))
        (thrust_pwm_min_ n) (thrust_pwm_max_ n).

(** The same with the scaling by [thrust_pwm_max_] the code applies before
    it clamps. *)
Definition zero_force_floor (n : Node) : float :=
  CLAMP (F.mul (d2f (D.add (c1_ n) (D.mul (c2_ n) (D.sqrt (c3_ n)))))
               (F.of_int (thrust_pwm_max_ n)))
        (thrust_pwm_min_ n) (thrust_pwm_max_ n).

(** The test for the re-issue as the spec words it: with the stamp of the
    sample. *)
Definition spec_reissue_due (odom : Odometry) (n : Node) : bool :=
  so3_cmd_set_ n &&
  D.leb (so3_cmd_timeout_ n) (elapsed (odom_stamp odom) (last_so3_cmd_time_ n)).

End Statements.

(** Nodes on the platform above: after one command (motors enabled) on a
    brushed and on a brushless vehicle, after three commands and after ten. *)
Definition commanded_node : Node :=
  fst (exec (so3_cmd_callback (a_command true 0 d_zero)) (fresh_node false) (start [])).
Definition armed_node : Node :=
  fst (exec (so3_cmd_callback (a_command true 0 d_zero)) (fresh_node true) (start [true])).
Definition spinning_node : Node :=
  fst (exec (run (repeat (Cmd (a_command true 0 d_zero)) 3)) (fresh_node false) (start [])).
Definition ready_node : Node :=
  fst (exec (run (repeat (Cmd (a_command true 0 d_zero)) 10)) (fresh_node false) (start [])).

(** ** The published messages, field by field *)

(** A message that carries the thrust [z] and nothing else. *)
Definition thrust_only (z : double) (t : Twist) : Prop :=
  linear_x t = S754_zero false /\ linear_y t = S754_zero false /\ linear_z t = z /\
  angular_x t = S754_zero false /\ angular_y t = S754_zero false /\
  angular_z t = S754_zero false.

Section MessageFields.
Context {P : Platform}.

(** The fields of the converted command, each written out in the operations
    the callback applies to the members and to the message (lines 264 to
    347 of the source): roll and pitch in degrees plus the corrections, or
    the roll and pitch rates in rate mode; the clamped thrust; the yaw rate
    from the wrapped yaw error. *)
Definition conversion_of (n : Node) (msg : SO3Command) (t : Twist) : Prop :=
  let Rc := toRotationMatrix (q_odom_ n) in
  let Rd := toRotationMatrix (orientation msg) in
  let yaw_c := d2f (atan2 (Rc 1 0) (Rc 0 0)) in
  let yaw_d := d2f (atan2 (Rd 1 0) (Rd 0 0)) in
  let Rn := timesAngleAxisZ Rd (f2d (F.sub yaw_c yaw_d)) in
  let degrees := fun x : float => d2f (D.div (f2d (F.mul x (F.of_int 180))) M_PI) in
  let pitch := degrees (d2f (D.opp (asin (Rn 2 0)))) in
  let roll := degrees (d2f (atan2 (Rn 2 1) (Rn 2 2))) in
  let newtons :=
    D.add (D.add (D.mul (vx (force msg)) (Rc 0 2)) (D.mul (vy (force msg)) (Rc 1 2)))
          (D.mul (vz (force msg)) (Rc 2 2)) in
  let grams :=
    D.div (D.mul (if D.ltb newtons (S754_zero false) then S754_zero false else newtons)
                 (D.of_int 1000))
          d_9_81 in
  let pwm :=
    F.mul (d2f (D.add (c1_ n) (D.mul (c2_ n) (D.sqrt (D.add (c3_ n) grams)))))
          (F.of_int (thrust_pwm_max_ n)) in
  let thrust :=
    if F.ltb pwm (F.of_int (thrust_pwm_min_ n)) then F.of_int (thrust_pwm_min_ n)
    else if F.ltb (F.of_int (thrust_pwm_max_ n)) pwm then F.of_int (thrust_pwm_max_ n)
    else pwm in
  let e0 := F.sub yaw_d yaw_c in
  let turn := D.mul (D.of_int 2) M_PI in
  let e :=
    if D.ltb M_PI (f2d e0) then d2f (D.sub (f2d e0) turn)
    else if D.ltb (f2d e0) (D.opp M_PI) then d2f (D.add (f2d e0) turn)
    else e0 in
  let per_radian := D.div (D.of_int 180) M_PI in
  let yaw_rate :=
    d2f (D.mul (D.sub (D.mul (D.opp (vz (kR msg))) (f2d e)) (vz (angular_velocity msg)))
               per_radian) in
  let rate := fun k w_des w w_dot : double =>
    d2f (D.mul (f2d (F.sub (d2f (D.mul k (D.sub w_des w)))
                           (d2f (D.mul (ang_acc_d_gain n) w_dot))))
               per_radian) in
  linear_x t =
    (if send_ctbr_cmds_ n
     then f2d (rate (vy (kOm msg)) (vy (angular_velocity msg)) (vy (w_odom_ n))
                    (vy (w_dot_odom_ n)))
     else D.add (f2d pitch) (snd (angle_corrections msg))) /\
  linear_y t =
    (if send_ctbr_cmds_ n
     then f2d (rate (vx (kOm msg)) (vx (angular_velocity msg)) (vx (w_odom_ n))
                    (vx (w_dot_odom_ n)))
     else D.add (f2d roll) (fst (angle_corrections msg))) /\
  linear_z t = f2d thrust /\
  angular_x t = S754_zero false /\ angular_y t = S754_zero false /\
  angular_z t = f2d yaw_rate.

End MessageFields.

(** A vehicle in rate mode with the thrust curve sqrt(f) / 64, and a
    command for it: 9.81 N along z (1000 g), the angular velocity (3, 0, 1)
    rad/s, the gains kOm = (2, 0, 0) and kR[2] = 1.  [sqrt_curve_node k] has
    handled [k] such commands. *)
Definition d_1_64 : double := Eval vm_compute in D.div (D.of_int 1) (D.of_int 64).

Definition sqrt_curve_params : ParamServer :=
  {| param_kp_yaw_rate := Some d_zero;
     param_c1 := Some d_zero; param_c2 := Some d_1_64; param_c3 := Some d_zero;
     param_ang_acc_d_gain := Some d_zero;
     param_so3_cmd_timeout := None;
     param_is_brushless := Some false;
     param_send_ctbr_cmds := Some true;
     param_thrust_pwm_max := None;
     param_thrust_pwm_min := None;
     param_mav_name := Some [99; 102] |}.

Definition a_full_command : SO3Command :=
  {| cmd_stamp := 0;
     force := {| vx := d_zero; vy := d_zero; vz := d_9_81 |};
     orientation := q_identity;
     angular_velocity := {| vx := D.of_int 3; vy := d_zero; vz := D.of_int 1 |};
     kR := {| vx := d_zero; vy := d_zero; vz := D.of_int 1 |};
     kOm := {| vx := D.of_int 2; vy := d_zero; vz := d_zero |};
     angle_corrections := (d_zero, d_zero);
     enable_motors := true |}.

Definition sqrt_curve_node (k : nat) : Node :=
  fst (exec (run (repeat (Cmd a_full_command) k))
            (onInit sqrt_curve_params blank_node) (start [])).

(** What it publishes on cmd_vel_fast for that command: no pitch rate, the
    roll rate 343.77 deg/s, the thrust 29646.35, the yaw rate -57.30 deg/s. *)
Definition full_command_twist : Twist :=
  {| linear_x := S754_zero false;
     linear_y := S754_finite false 6047748281335808 (-44);
     linear_z := S754_finite false 8149127066025984 (-38);
     angular_x := S754_zero false;
     angular_y := S754_zero false;
     angular_z := S754_finite true 8063664196157440 (-47) |}.

(** The three requests of a disarming, byte by byte, and the zero message. *)
Definition disarm_bytes : crtpPacket :=
  {| header := 220; size := 2; data := 1 :: 0 :: repeat 0 28 |}.
Definition sysoff_bytes : crtpPacket :=
  {| header := 255; size := 2; data := 254 :: 2 :: repeat 0 28 |}.
Definition syson_bytes : crtpPacket :=
  {| header := 255; size := 2; data := 254 :: 3 :: repeat 0 28 |}.
Definition zero_twist : Twist :=
  {| linear_x := S754_zero false; linear_y := S754_zero false; linear_z := S754_zero false;
     angular_x := S754_zero false; angular_y := S754_zero false;
     angular_z := S754_zero false |}.

(** ** What the properties of the runs are stated with *)

(** Did a callback only publish: no request to the service, no sleep? *)
Definition publishes_only (evs : list Event) : bool :=
  forallb (fun e => match e with Publish _ _ => true | _ => false end) evs.

(** The channels of the publications of [k] commands with the motors
    enabled, the first one handled at motor_status_ 0. *)
Definition spin_up_channels (k : nat) : list Channel :=
  repeat cmd_vel (Nat.min k 3) ++
  concat (repeat [cmd_vel; cmd_vel_fast] (Nat.min (k - 3) 7)) ++
  repeat cmd_vel_fast (k - 10).

(** The channels of the publications of one command with the motors
    enabled, handled at motor_status_ [status]. *)
Definition channels_at (status : Z) : list Channel :=
  if status <? 3 then [cmd_vel]
  else if status <? 10 then [cmd_vel; cmd_vel_fast] else [cmd_vel_fast].

(** Not below zero: a NaN, a zero of either sign, or a number or infinity
    with the sign bit clear. *)
Definition not_negative (x : spec_float) : bool :=
  match x with
  | S754_finite s _ _ | S754_infinity s => negb s
  | _ => true
  end.

Section RunStatements.
Context {P : Platform}.

(** [armed_] against the last command: the motors of a brushless vehicle
    are armed exactly while the last command handled has them enabled. *)
Definition armed_by_last_command (n : Node) : bool :=
  so3_cmd_set_ n && is_brushless_ n && enable_motors (last_so3_cmd_ n).

(** Odometry samples as inputs, each with the clock reading when it is
    handled. *)
Definition odom_inputs (samples : list (Odometry * Time)) : list Input :=
  map (fun s => Odom (fst s) (snd s)) samples.


(** The argument of the square root in the thrust curve, for the force
    [f] along the body z axis: [c3_ + thrust_f], the force clamped at 0 and
    in grams. *)
Definition curve_argument (n : Node) (f : double) : double :=
  D.add (c3_ n) (D.div (D.mul (std_max f d_zero) (D.of_int 1000)) d_9_81).

End RunStatements.

(** Parameters as [some_params false], but for the thrust coefficients c1
    and c3, the timeout, the rate mode and the PWM bounds. *)
Definition params_with (c1 c3 timeout : option double) (ctbr : option bool)
    (pwm_min pwm_max : option Z) : ParamServer :=
  {| param_kp_yaw_rate := Some d_zero;
     param_c1 := c1; param_c2 := Some d_zero; param_c3 := c3;
     param_ang_acc_d_gain := Some d_zero;
     param_so3_cmd_timeout := timeout;
     param_is_brushless := Some false;
     param_send_ctbr_cmds := ctbr;
     param_thrust_pwm_max := pwm_max;
     param_thrust_pwm_min := pwm_min;
     param_mav_name := Some [99; 102] |}.

(** Nodes with c3 = -1, in rate mode, with the PWM bounds the wrong way
    round, with the thrust curve constant 0 and constant 2, and a node that
    has handled one command stamped 0 under the timeout [timeout]. *)
Definition negative_c3_node : Node :=
  onInit (params_with (Some d_0_5) (Some (D.of_int (-1))) None None None None) blank_node.
Definition rate_mode_node : Node :=
  onInit (params_with (Some d_0_5) (Some d_zero) None (Some true) None None) blank_node.
Definition swapped_bounds_node : Node :=
  onInit (params_with (Some d_0_5) (Some d_zero) None None (Some 60000) (Some 10000))
         blank_node.
Definition curve_node (c1 : Z) : Node :=
  onInit (params_with (Some (D.of_int c1)) (Some d_zero) None None None None) blank_node.
Definition timeout_node (timeout : double) : Node :=
  fst (exec (so3_cmd_callback (a_command true 0 d_zero))
            (onInit (params_with (Some d_0_5) (Some d_zero) (Some timeout) None None None)
                    blank_node)
            (start [])).

(** ** Numbers as values

    A finite [float] or [double] is a whole number of units of [2 ^ -1074],
    the least positive [double]: comparing two numbers is comparing these
    integers, and an operation returns the rounding of the exact result. *)

Definition val (x : spec_float) : Z :=
  match x with
  | S754_finite s m e => cond_Zopp s (Zpos m * 2 ^ (e + 1074))
  | _ => 0
  end.

Definition finite_or_zero (x : spec_float) : bool :=
  match x with
  | S754_zero _ | S754_finite _ _ _ => true
  | _ => false
  end.

(** The multiple of [2 ^ k] nearest to [v], the even one of two that are
    as near. *)
Definition rnd_even (k v : Z) : Z :=
  let q := v / 2 ^ k in
  let r := v mod 2 ^ k in
  if 2 * r <? 2 ^ k then q * 2 ^ k
  else if 2 * r =? 2 ^ k then (if Z.even q then q else q + 1) * 2 ^ k
  else (q + 1) * 2 ^ k.

(** The formats the lemmas are about: their least exponent is not below the
    one of binary64. *)
Definition format_ok (prec emax : Z) : Prop :=
  0 < prec /\ -1074 <= emin prec emax /\ emin prec emax <= emax - prec.

Section Rounding.
Variables prec emax : Z.

(** Round to nearest, ties to even, of a value counted in units of
    [2 ^ -1074]: the grid has the step [2 ^ k], [k] from the number of
    digits of the value and the least exponent of the format. *)
Definition RN (v : Z) : Z :=
  rnd_even (Z.max (Zdigits2 v - prec) (emin prec emax + 1074)) v.

(** The same for a value of either sign. *)
Definition RNs (v : Z) : Z := if v <? 0 then - RN (- v) else RN v.

(** From here on a rounded value is an infinity. *)
Definition overflow : Z := 2 ^ (emax + 1074).
End Rounding.

(** What [shr] remembers of the bits it shifted out: the remainder [rem]
    against half of the divisor [P]. *)
Definition loc_of (rem P : Z) : location :=
  if rem =? 0 then loc_Exact else loc_Inexact (2 * rem ?= P).

(** [st] is [m0] shifted right by [j] bits. *)
Definition shifted (m0 j : Z) (st : shr_record) : Prop :=
  shr_m st = m0 / 2 ^ j /\ loc_of_shr_record st = loc_of (m0 mod 2 ^ j) (2 ^ j).

(** Rounding to [float] and to [double]. *)
Definition RNf := RNs F.prec F.emax.
Definition RNd := RNs D.prec D.emax.

(** [M_PI] and [(float) M_PI], in units of [2 ^ -1074]. *)
Definition PI_d : Z := val M_PI.
Definition PI_f : Z := RNf PI_d.

(** * Properties *)

(** ** IEEE 754 rounding

    [SpecFloat] defines the operations; what follows relates them to the
    values: the comparison is the comparison of the values
    ([SFcompare_val]), an addition, subtraction or conversion returns the
    rounding [RN] of the exact value ([SFadd_val], [SFsub_val],
    [binary_round_val]), and [RN] is monotone ([RN_le]) and leaves the
    numbers of the format as they are ([RN_exact]). *)

(** *** The number of digits of a mantissa *)

Lemma digits2_pos_bounds (m : positive) :
  2 ^ (Zpos (digits2_pos m) - 1) <= Zpos m < 2 ^ Zpos (digits2_pos m).
Proof.
  induction m as [p IH | p IH | ]; simpl digits2_pos.
  - rewrite Pos2Z.inj_succ. replace (Z.succ (Zpos (digits2_pos p)) - 1) with (Z.succ (Zpos (digits2_pos p) - 1)) by lia.
    rewrite !Z.pow_succ_r by lia. lia.
  - rewrite Pos2Z.inj_succ. replace (Z.succ (Zpos (digits2_pos p)) - 1) with (Z.succ (Zpos (digits2_pos p) - 1)) by lia.
    rewrite !Z.pow_succ_r by lia. lia.
  - simpl. lia.
Qed.

Lemma digits2_pos_unique (m : positive) (d : Z) :
  2 ^ (d - 1) <= Zpos m < 2 ^ d -> Zpos (digits2_pos m) = d.
Proof.
  intros [H1 H2]. pose proof (digits2_pos_bounds m) as [B1 B2].
  assert (0 < d).
  { destruct (Z_lt_le_dec 0 d); auto. 
    assert (2 ^ d <= 1). { destruct (Z.eq_dec d 0) as [->|]; [simpl; lia|]. rewrite Z.pow_neg_r by lia. lia. }
    lia. }
  set (d' := Zpos (digits2_pos m)) in *.
  assert (d' - 1 < d). { apply (Z.pow_lt_mono_r_iff 2); lia. }
  assert (d - 1 < d'). { apply (Z.pow_lt_mono_r_iff 2); lia. }
  lia.
Qed.

Lemma digits2_pos_shift (m : positive) (j : positive) (m' : positive) :
  Zpos m' = Zpos m * 2 ^ Zpos j -> Zpos (digits2_pos m') = Zpos (digits2_pos m) + Zpos j.
Proof.
  intros H. apply digits2_pos_unique. rewrite H.
  pose proof (digits2_pos_bounds m) as [B1 B2].
  replace (Zpos (digits2_pos m) + Zpos j - 1) with ((Zpos (digits2_pos m) - 1) + Zpos j) by lia.
  rewrite !Z.pow_add_r by lia.
  assert (0 < 2 ^ Zpos j) by (apply Z.pow_pos_nonneg; lia).
  split; nia.
Qed.

(** *** Rounding to a multiple of a power of two *)

Lemma rnd_even_bounds (k v : Z) :
  0 <= k -> 0 <= v ->
  v / 2 ^ k * 2 ^ k <= rnd_even k v <= (v / 2 ^ k + 1) * 2 ^ k.
Proof.
  intros Hk Hv. unfold rnd_even.
  assert (0 < 2 ^ k) by (apply Z.pow_pos_nonneg; lia).
  destruct (2 * (v mod 2 ^ k) <? 2 ^ k); [nia|].
  destruct (2 * (v mod 2 ^ k) =? 2 ^ k); [|nia].
  destruct (Z.even (v / 2 ^ k)); nia.
Qed.

Lemma rnd_even_le (k v1 v2 : Z) :
  0 <= k -> 0 <= v1 <= v2 -> rnd_even k v1 <= rnd_even k v2.
Proof.
  intros Hk Hv.
  assert (HP : 0 < 2 ^ k) by (apply Z.pow_pos_nonneg; lia).
  pose proof (Z.div_le_mono v1 v2 (2 ^ k) HP ltac:(lia)) as Hq.
  destruct (Z.eq_dec (v1 / 2 ^ k) (v2 / 2 ^ k)) as [E | E].
  - pose proof (Z.div_mod v1 (2 ^ k) ltac:(lia)) as D1.
    pose proof (Z.div_mod v2 (2 ^ k) ltac:(lia)) as D2.
    pose proof (Z.mod_pos_bound v1 (2 ^ k) HP).
    pose proof (Z.mod_pos_bound v2 (2 ^ k) HP).
    unfold rnd_even. rewrite <- E.
    set (q := v1 / 2 ^ k) in *. set (r1 := v1 mod 2 ^ k) in *. set (r2 := v2 mod 2 ^ k) in *.
    assert (r1 <= r2) by nia.
    destruct (Z.ltb_spec (2 * r1) (2 ^ k)), (Z.ltb_spec (2 * r2) (2 ^ k));
      destruct (Z.eqb_spec (2 * r1) (2 ^ k)), (Z.eqb_spec (2 * r2) (2 ^ k));
      destruct (Z.even q); nia.
  - pose proof (rnd_even_bounds k v1 Hk ltac:(lia)).
    pose proof (rnd_even_bounds k v2 Hk ltac:(lia)).
    nia.
Qed.

Lemma rnd_even_exact (k v : Z) :
  0 <= k -> v mod 2 ^ k = 0 -> rnd_even k v = v.
Proof.
  intros Hk H. unfold rnd_even. rewrite H.
  assert (0 < 2 ^ k) by (apply Z.pow_pos_nonneg; lia).
  replace (2 * 0 <? 2 ^ k) with true by (symmetry; apply Z.ltb_lt; lia).
  pose proof (Z.div_mod v (2 ^ k) ltac:(lia)). lia.
Qed.

Lemma rnd_even_scale (k j v : Z) :
  0 <= k -> 0 <= j -> rnd_even (k + j) (v * 2 ^ j) = rnd_even k v * 2 ^ j.
Proof.
  intros Hk Hj. unfold rnd_even.
  assert (0 < 2 ^ k) by (apply Z.pow_pos_nonneg; lia).
  assert (0 < 2 ^ j) by (apply Z.pow_pos_nonneg; lia).
  rewrite Z.pow_add_r by lia.
  rewrite Z.div_mul_cancel_r by lia.
  rewrite Zmult_mod_distr_r.
  set (q := v / 2 ^ k). set (r := v mod 2 ^ k).
  destruct (Z.ltb_spec (2 * r) (2 ^ k)), (Z.ltb_spec (2 * (r * 2 ^ j)) (2 ^ k * 2 ^ j));
    try nia;
    destruct (Z.eqb_spec (2 * r) (2 ^ k)), (Z.eqb_spec (2 * (r * 2 ^ j)) (2 ^ k * 2 ^ j));
    try nia;
    destruct (Z.even q); nia.
Qed.

(** *** Shifting right and remembering what was lost *)

Lemma shr_1_nonneg (m : Z) (r s : bool) :
  0 <= m ->
  shr_1 {| shr_m := m; shr_r := r; shr_s := s |} =
  {| shr_m := m / 2; shr_r := Z.odd m; shr_s := r || s |}.
Proof.
  intros Hm. destruct m as [|p|p]; [reflexivity| |lia].
  destruct p as [p|p|]; simpl shr_1; f_equal.
  - rewrite Pos2Z.inj_xI. apply (Z.div_unique _ _ _ 1); lia.
  - rewrite Pos2Z.inj_xO. apply (Z.div_unique _ _ _ 0); lia.
Qed.

Lemma shifted_step (m0 j : Z) (st : shr_record) :
  0 <= m0 -> 0 <= j -> shifted m0 j st -> shifted m0 (j + 1) (shr_1 st).
Proof.
  intros Hm Hj [Hq Hl].
  assert (HP : 0 < 2 ^ j) by (apply Z.pow_pos_nonneg; lia).
  destruct st as [m r s]. simpl in Hq. subst m.
  rewrite shr_1_nonneg by (apply Z.div_pos; lia).
  unfold shifted. simpl shr_m.
  rewrite Z.pow_add_r by lia. change (2 ^ 1) with 2.
  pose proof (Z.div_mod m0 (2 ^ j) ltac:(lia)) as D.
  pose proof (Z.mod_pos_bound m0 (2 ^ j) HP) as B.
  set (q := m0 / 2 ^ j) in *. set (rem := m0 mod 2 ^ j) in *.
  pose proof (Z.div_mod q 2 ltac:(lia)) as D2.
  pose proof (Z.mod_pos_bound q 2 ltac:(lia)) as B2.
  assert (Hdiv : m0 / (2 ^ j * 2) = q / 2).
  { symmetry. apply (Z.div_unique _ _ _ (q mod 2 * 2 ^ j + rem)); nia. }
  assert (Hmod : m0 mod (2 ^ j * 2) = q mod 2 * 2 ^ j + rem).
  { symmetry. apply (Z.mod_unique _ _ (q / 2)); nia. }
  split; [symmetry; exact Hdiv|].
  rewrite Hmod.
  assert (Hodd : Z.odd q = (q mod 2 =? 1)).
  { rewrite Zmod_odd. destruct (Z.odd q); reflexivity. }
  rewrite Hodd.
  unfold loc_of in *. cbn [loc_of_shr_record] in Hl.
  assert (Hrs : r || s = negb (rem =? 0)).
  { destruct r, s, (rem =? 0); simpl in *; congruence. }
  rewrite Hrs. clear Hl Hrs.
  assert (q mod 2 = 0 \/ q mod 2 = 1) as [E | E] by lia; rewrite E.
  - change (0 =? 1) with false. rewrite Z.mul_0_l, Z.add_0_l.
    destruct (Z.eqb_spec rem 0); cbn [negb loc_of_shr_record]; [reflexivity|].
    f_equal. symmetry. apply Z.compare_lt_iff. lia.
  - change (1 =? 1) with true.
    destruct (Z.eqb_spec rem 0) as [E0 | E0]; cbn [negb loc_of_shr_record].
    + rewrite E0. replace (1 * 2 ^ j + 0 =? 0) with false by (symmetry; apply Z.eqb_neq; lia).
      f_equal. symmetry. apply Z.compare_eq_iff. lia.
    + replace (1 * 2 ^ j + rem =? 0) with false by (symmetry; apply Z.eqb_neq; lia).
      f_equal. symmetry. apply Z.compare_gt_iff. lia.
Qed.

Lemma shifted_iter (m0 : Z) (n : positive) :
  0 <= m0 -> forall j st, 0 <= j -> shifted m0 j st ->
  shifted m0 (j + Zpos n) (iter_pos shr_1 n st).
Proof.
  intros Hm. induction n as [n IH | n IH | ]; intros j st Hj H; simpl iter_pos.
  - replace (j + Zpos n~1) with (j + 1 + Zpos n + Zpos n) by lia.
    apply IH; [lia|]. apply IH; [lia|]. apply shifted_step; auto.
  - replace (j + Zpos n~0) with (j + Zpos n + Zpos n) by lia.
    apply IH; [lia|]. apply IH; auto.
  - apply shifted_step; auto.
Qed.

Lemma shifted_round (m0 j : Z) (st : shr_record) :
  0 <= m0 -> 0 <= j -> shifted m0 j st ->
  round_nearest_even (shr_m st) (loc_of_shr_record st) * 2 ^ j = rnd_even j m0.
Proof.
  intros Hm Hj [Hq Hl]. rewrite Hq, Hl. unfold loc_of, rnd_even.
  assert (HP : 0 < 2 ^ j) by (apply Z.pow_pos_nonneg; lia).
  pose proof (Z.mod_pos_bound m0 (2 ^ j) HP) as B.
  destruct (Z.eqb_spec (m0 mod 2 ^ j) 0) as [E | E].
  - rewrite E. simpl round_nearest_even.
    replace (2 * 0 <? 2 ^ j) with true by (symmetry; apply Z.ltb_lt; lia). reflexivity.
  - destruct (Z.compare_spec (2 * (m0 mod 2 ^ j)) (2 ^ j)) as [C | C | C];
      simpl round_nearest_even.
    + replace (2 * (m0 mod 2 ^ j) <? 2 ^ j) with false by (symmetry; apply Z.ltb_ge; lia).
      replace (2 * (m0 mod 2 ^ j) =? 2 ^ j) with true by (symmetry; apply Z.eqb_eq; lia).
      reflexivity.
    + replace (2 * (m0 mod 2 ^ j) <? 2 ^ j) with true by (symmetry; apply Z.ltb_lt; lia).
      reflexivity.
    + replace (2 * (m0 mod 2 ^ j) <? 2 ^ j) with false by (symmetry; apply Z.ltb_ge; lia).
      replace (2 * (m0 mod 2 ^ j) =? 2 ^ j) with false by (symmetry; apply Z.eqb_neq; lia).
      reflexivity.
Qed.

Lemma shifted_0 (m0 : Z) :
  shifted m0 0 {| shr_m := m0; shr_r := false; shr_s := false |}.
Proof.
  unfold shifted. simpl. rewrite Z.div_1_r, Z.mod_1_r. split; reflexivity.
Qed.

(** [shr] from an exact mantissa: the quotient, and the rounding of it. *)
Lemma shr_exact (m0 e n : Z) :
  0 <= m0 ->
  let '(st, e') := shr {| shr_m := m0; shr_r := false; shr_s := false |} e n in
  let k := Z.max n 0 in
  e' = e + k /\ shr_m st = m0 / 2 ^ k /\
  round_nearest_even (shr_m st) (loc_of_shr_record st) * 2 ^ k = rnd_even k m0.
Proof.
  intros Hm. unfold shr. destruct n as [|p|p].
  - simpl Z.max. pose proof (shifted_0 m0) as H.
    split; [lia|]. split; [apply H|]. apply shifted_round; auto; lia.
  - replace (Z.max (Zpos p) 0) with (Zpos p) by lia.
    pose proof (shifted_iter m0 p Hm 0 _ ltac:(lia) (shifted_0 m0)) as H.
    simpl Z.add in H.
    split; [reflexivity|]. split; [apply H|]. apply shifted_round; auto; lia.
  - replace (Z.max (Zneg p) 0) with 0 by lia. pose proof (shifted_0 m0) as H.
    split; [lia|]. split; [apply H|]. apply shifted_round; auto; lia.
Qed.

(** *** A format *)

Section Format.
Variables prec emax : Z.
Hypothesis Hfmt : format_ok prec emax.
Let Hprec : 0 < prec := proj1 Hfmt.
Let Hemin : -1074 <= emin prec emax := proj1 (proj2 Hfmt).
Let Hemax : emin prec emax <= emax - prec := proj2 (proj2 Hfmt).

Abbreviation emin := (emin prec emax).
Abbreviation fexp := (fexp prec emax).
Abbreviation bounded := (bounded prec emax).
Abbreviation valid_binary := (valid_binary prec emax).

Lemma fexp_ge_emin (e : Z) : emin <= fexp e.
Proof. unfold SpecFloat.fexp. lia. Qed.

Lemma bounded_inv (m : positive) (e : Z) :
  bounded m e = true ->
  emin <= e <= emax - prec /\ Zpos m < 2 ^ prec /\ (emin < e -> 2 ^ (prec - 1) <= Zpos m).
Proof.
  unfold SpecFloat.bounded, canonical_mantissa, SpecFloat.fexp.
  intros H. apply andb_prop in H as [H1 H2].
  apply Z.eqb_eq in H1. apply Z.leb_le in H2.
  pose proof (digits2_pos_bounds m) as [B1 B2].
  set (d := Zpos (digits2_pos m)) in *.
  assert (d <= prec) by lia.
  split; [lia|]. split.
  - apply Z.lt_le_trans with (1 := B2). apply Z.pow_le_mono_r; lia.
  - intros He. assert (d = prec) by lia. subst d. rewrite <- H0. exact B1.
Qed.

Lemma pow2_pos (k : Z) : 0 <= k -> 0 < 2 ^ k.
Proof. intros. apply Z.pow_pos_nonneg; lia. Qed.

Lemma val_finite_pos (m : positive) (e : Z) : -1074 <= e -> 0 < Zpos m * 2 ^ (e + 1074).
Proof. intros. pose proof (pow2_pos (e + 1074)). nia. Qed.

(** Canonical mantissas at different exponents are ordered by the exponent. *)
Lemma bounded_lt (m1 m2 : positive) (e1 e2 : Z) :
  bounded m1 e1 = true -> bounded m2 e2 = true -> e1 < e2 ->
  Zpos m1 * 2 ^ (e1 + 1074) < Zpos m2 * 2 ^ (e2 + 1074).
Proof.
  intros H1 H2 He.
  apply bounded_inv in H1 as (E1 & U1 & _).
  apply bounded_inv in H2 as (E2 & _ & L2).
  specialize (L2 ltac:(lia)).
  replace (e2 + 1074) with ((e2 - e1 - 1) + 1 + (e1 + 1074)) by lia.
  rewrite (Z.pow_add_r 2 (e2 - e1 - 1 + 1) (e1 + 1074)) by lia.
  rewrite (Z.pow_add_r 2 (e2 - e1 - 1) 1) by lia.
  assert (0 < 2 ^ (e1 + 1074)) by (apply pow2_pos; lia).
  assert (0 < 2 ^ (e2 - e1 - 1)) by (apply pow2_pos; lia).
  assert (2 ^ prec = 2 * 2 ^ (prec - 1)).
  { replace prec with (Z.succ (prec - 1)) at 1 by lia. apply Z.pow_succ_r. lia. }
  change (2 ^ 1) with 2.
  assert (Zpos m2 <= Zpos m2 * 2 ^ (e2 - e1 - 1)) by nia.
  assert (Zpos m1 < Zpos m2 * 2 ^ (e2 - e1 - 1) * 2) by lia.
  nia.
Qed.

Lemma SFcompare_val (x y : spec_float) :
  valid_binary x = true -> valid_binary y = true ->
  finite_or_zero x = true -> finite_or_zero y = true ->
  SFcompare x y = Some (val x ?= val y).
Proof.
  destruct x as [sx|sx| |sx mx ex], y as [sy|sy| |sy my ey];
    cbv [val SFcompare SpecFloat.valid_binary finite_or_zero]; try discriminate;
    intros Vx Vy _ _.
  - reflexivity.
  - pose proof (bounded_inv _ _ Vy) as (E & _).
    pose proof (val_finite_pos my ey ltac:(lia)).
    f_equal. destruct sy; cbv [cond_Zopp]; symmetry;
      [apply Z.compare_gt_iff | apply Z.compare_lt_iff]; lia.
  - pose proof (bounded_inv _ _ Vx) as (E & _).
    pose proof (val_finite_pos mx ex ltac:(lia)).
    f_equal. destruct sx; cbv [cond_Zopp]; symmetry;
      [apply Z.compare_lt_iff | apply Z.compare_gt_iff]; lia.
  - pose proof (bounded_inv _ _ Vx) as (Ex & _).
    pose proof (bounded_inv _ _ Vy) as (Ey & _).
    pose proof (val_finite_pos mx ex ltac:(lia)) as Px.
    pose proof (val_finite_pos my ey ltac:(lia)) as Py.
    f_equal.
    destruct sx, sy; cbv [cond_Zopp].
    + (* both negative *)
      destruct (Z.compare_spec ex ey) as [E|E|E].
      * subst ey. rewrite Pos.compare_cont_spec. cbv [Pos.switch_Eq].
        assert (0 < 2 ^ (ex + 1074)) by (apply pow2_pos; lia).
        symmetry.
        destruct (Pos.compare_spec mx my) as [C|C|C]; cbv [CompOpp];
          [apply Z.compare_eq_iff | apply Z.compare_gt_iff | apply Z.compare_lt_iff];
          try (subst; reflexivity); apply Pos2Z.pos_lt_pos in C; nia.
      * pose proof (bounded_lt _ _ _ _ Vx Vy E). symmetry. apply Z.compare_gt_iff. lia.
      * pose proof (bounded_lt _ _ _ _ Vy Vx E). symmetry. apply Z.compare_lt_iff. lia.
    + symmetry. apply Z.compare_lt_iff. lia.
    + symmetry. apply Z.compare_gt_iff. lia.
    + destruct (Z.compare_spec ex ey) as [E|E|E].
      * subst ey. rewrite Pos.compare_cont_spec. cbv [Pos.switch_Eq].
        assert (0 < 2 ^ (ex + 1074)) by (apply pow2_pos; lia).
        symmetry.
        destruct (Pos.compare_spec mx my) as [C|C|C];
          [apply Z.compare_eq_iff | apply Z.compare_lt_iff | apply Z.compare_gt_iff];
          try (subst; reflexivity); apply Pos2Z.pos_lt_pos in C; nia.
      * pose proof (bounded_lt _ _ _ _ Vx Vy E). symmetry. apply Z.compare_lt_iff. lia.
      * pose proof (bounded_lt _ _ _ _ Vy Vx E). symmetry. apply Z.compare_gt_iff. lia.
Qed.

Lemma pow2_succ (k : Z) : 0 <= k -> 2 ^ (k + 1) = 2 * 2 ^ k.
Proof. intros. rewrite Z.pow_add_r by lia. change (2 ^ 1) with 2. lia. Qed.

Lemma canonical_intro (m : positive) (e : Z) :
  2 ^ (prec - 1) <= Zpos m < 2 ^ prec -> emin <= e -> canonical_mantissa prec emax m e = true.
Proof.
  intros H He. unfold canonical_mantissa, SpecFloat.fexp.
  rewrite (digits2_pos_unique m prec H). apply Z.eqb_eq. lia.
Qed.

Lemma canonical_intro_emin (m : positive) :
  Zpos m < 2 ^ prec -> canonical_mantissa prec emax m emin = true.
Proof.
  intros H. unfold canonical_mantissa, SpecFloat.fexp.
  pose proof (digits2_pos_bounds m) as [B1 B2].
  assert (Zpos (digits2_pos m) - 1 < prec).
  { apply (Z.pow_lt_mono_r_iff 2); lia. }
  apply Z.eqb_eq. lia.
Qed.

(** The second [shr_fexp] of [binary_round_aux]: a rounded mantissa that
    reached [2 ^ prec] is halved. *)
Lemma canonicalize (m1 : positive) (t : Z) :
  emin <= t -> Zpos m1 <= 2 ^ prec -> (Zpos m1 < 2 ^ (prec - 1) -> t = emin) ->
  exists m2 st2 e2,
    shr_fexp prec emax (Zpos m1) t loc_Exact = (st2, e2) /\
    shr_m st2 = Zpos m2 /\
    canonical_mantissa prec emax m2 e2 = true /\
    t <= e2 /\ Zpos m2 * 2 ^ (e2 - t) = Zpos m1.
Proof.
  intros Ht Hm Hsub.
  unfold shr_fexp. cbn [shr_record_of_loc Zdigits2].
  assert (H2 : 2 ^ prec = 2 * 2 ^ (prec - 1)).
  { replace prec with (prec - 1 + 1) at 1 by lia. apply pow2_succ. lia. }
  destruct (Z.eq_dec (Zpos m1) (2 ^ prec)) as [E | E].
  - (* the mantissa is [2 ^ prec] *)
    assert (Hd : Zpos (digits2_pos m1) = prec + 1).
    { apply digits2_pos_unique. rewrite E. replace (prec + 1 - 1) with prec by lia.
      rewrite pow2_succ by lia. assert (0 < 2 ^ prec) by (apply pow2_pos; lia). lia. }
    rewrite Hd.
    replace (fexp (prec + 1 + t) - t) with 1 by (unfold SpecFloat.fexp; lia).
    pose proof (shr_exact (Zpos m1) t 1 ltac:(lia)) as Hs.
    destruct (shr _ t 1) as [st2 e2]. cbn [Z.max] in Hs.
    replace (Z.max 1 0) with 1 in Hs by lia.
    destruct Hs as (He2 & Hq & _).
    assert (Hq' : shr_m st2 = 2 ^ (prec - 1)).
    { rewrite Hq, E, H2. change (2 ^ 1) with 2. rewrite Z.mul_comm. apply Z.div_mul. lia. }
    assert (0 < 2 ^ (prec - 1)) by (apply pow2_pos; lia).
    destruct (shr_m st2) as [|m2|m2] eqn:Em2; try lia.
    exists m2, st2, e2. split; [reflexivity|]. split; [exact Em2|].
    split; [|split].
    + apply canonical_intro; lia.
    + lia.
    + replace (e2 - t) with 1 by lia. change (2 ^ 1) with 2. lia.
  - (* the mantissa is below [2 ^ prec] *)
    assert (Hn : fexp (Zpos (digits2_pos m1) + t) - t = 0).
    { unfold SpecFloat.fexp.
      pose proof (digits2_pos_bounds m1) as [B1 B2].
      assert (Zpos (digits2_pos m1) - 1 < prec).
      { apply (Z.pow_lt_mono_r_iff 2); lia. }
      destruct (Z_lt_le_dec (Zpos m1) (2 ^ (prec - 1))) as [L | L].
      - rewrite (Hsub L). lia.
      - rewrite (digits2_pos_unique m1 prec) by lia. lia. }
    rewrite Hn. cbv [shr].
    exists m1, {| shr_m := Zpos m1; shr_r := false; shr_s := false |}, t.
    split; [reflexivity|]. split; [reflexivity|]. split; [|split].
    + destruct (Z_lt_le_dec (Zpos m1) (2 ^ (prec - 1))) as [L | L].
      * rewrite (Hsub L). apply canonical_intro_emin. lia.
      * apply canonical_intro; lia.
    + lia.
    + rewrite Z.sub_diag. simpl. lia.
Qed.

Lemma canonical_inv (m : positive) (e : Z) :
  canonical_mantissa prec emax m e = true ->
  emin <= e /\ Zpos m < 2 ^ prec /\ (emin < e -> 2 ^ (prec - 1) <= Zpos m).
Proof.
  unfold canonical_mantissa, SpecFloat.fexp. intros H. apply Z.eqb_eq in H.
  pose proof (digits2_pos_bounds m) as [B1 B2].
  set (d := Zpos (digits2_pos m)) in *.
  assert (d <= prec) by lia.
  split; [lia|]. split.
  - apply Z.lt_le_trans with (1 := B2). apply Z.pow_le_mono_r; lia.
  - intros He. assert (d = prec) by lia. subst d. rewrite <- H1. exact B1.
Qed.

(** What [binary_round_aux] returns for an exact mantissa that is not
    above its canonical exponent. *)
Lemma round_aux_shape (s : bool) (m : positive) (e : Z) :
  e <= fexp (Zpos (digits2_pos m) + e) ->
  let n := fexp (Zpos (digits2_pos m) + e) - e in
  let R := rnd_even n (Zpos m) in
  match binary_round_aux prec emax s (Zpos m) e loc_Exact with
  | S754_zero s' => s' = s /\ R = 0
  | S754_infinity s' =>
      s' = s /\ exists e2, emax - prec < e2 /\ e <= e2 /\ 2 ^ (prec - 1) * 2 ^ (e2 - e) <= R
  | S754_nan => False
  | S754_finite s' m' e' =>
      s' = s /\ bounded m' e' = true /\ e <= e' /\ Zpos m' * 2 ^ (e' - e) = R
  end.
Proof.
  intros He n R.
  assert (Hn : 0 <= n) by (unfold n; lia).
  pose proof (digits2_pos_bounds m) as [B1 B2].
  set (d := Zpos (digits2_pos m)) in *.
  assert (Ht : e + n = fexp (d + e)) by (unfold n; lia).
  assert (HPn : 0 < 2 ^ n) by (apply pow2_pos; lia).
  unfold binary_round_aux.
  change (shr_fexp prec emax (Zpos m) e loc_Exact)
    with (shr {| shr_m := Zpos m; shr_r := false; shr_s := false |} e n).
  pose proof (shr_exact (Zpos m) e n ltac:(lia)) as Hs.
  destruct (shr _ e n) as [st e1].
  replace (Z.max n 0) with n in Hs by lia.
  destruct Hs as (He1 & Hq & Hr). fold R in Hr.
  set (m1 := round_nearest_even (shr_m st) (loc_of_shr_record st)) in *.
  pose proof (rnd_even_bounds n (Zpos m) Hn ltac:(lia)) as HRb. fold R in HRb.
  set (q := Zpos m / 2 ^ n) in *.
  assert (Hm1 : q <= m1 <= q + 1) by nia.
  assert (Hq0 : 0 <= q) by (apply Z.div_pos; lia).
  assert (Hd : d <= n + prec) by (unfold SpecFloat.fexp in Ht; lia).
  assert (Hqu : q < 2 ^ prec).
  { apply Z.div_lt_upper_bound; [lia|]. rewrite <- Z.pow_add_r by lia.
    apply Z.lt_le_trans with (1 := B2). apply Z.pow_le_mono_r; lia. }
  assert (Hsub : m1 < 2 ^ (prec - 1) -> e1 = emin).
  { intros L. destruct (Z.eq_dec e1 emin) as [|Ne]; [assumption|exfalso].
    assert (n = d - prec) by (unfold SpecFloat.fexp in Ht; lia).
    assert (2 ^ (prec - 1) <= q); [|lia].
    apply Z.div_le_lower_bound; [lia|]. rewrite <- Z.pow_add_r by lia.
    replace (n + (prec - 1)) with (d - 1) by lia. exact B1. }
  assert (Het : emin <= e1) by (rewrite He1, Ht; apply fexp_ge_emin).
  destruct m1 as [|p1|p1] eqn:Em1; [| |lia].
  - (* rounded to zero *)
    unfold shr_fexp. cbn [Zdigits2 shr_record_of_loc].
    assert (Hz : fexp (0 + e1) - e1 <= 0) by (unfold SpecFloat.fexp; lia).
    unfold shr. destruct (fexp (0 + e1) - e1) as [|z|z]; [| lia |]; cbn [shr_m];
      (split; [reflexivity | lia]).
  - destruct (canonicalize p1 e1 Het ltac:(lia) Hsub) as (m2 & st2 & e2 & Ec & Em2 & Hc & Hle & Hv).
    rewrite Ec, Em2.
    assert (HR : Zpos m2 * 2 ^ (e2 - e) = R).
    { replace (e2 - e) with ((e2 - e1) + n) by lia. rewrite Z.pow_add_r by lia. nia. }
    destruct (Z.leb_spec e2 (emax - prec)) as [Hb | Hb].
    + split; [reflexivity|]. split; [|split; [lia | exact HR]].
      unfold SpecFloat.bounded. rewrite Hc. apply Z.leb_le in Hb. rewrite Hb. reflexivity.
    + split; [reflexivity|].
      apply canonical_inv in Hc as (_ & _ & Hlow). specialize (Hlow ltac:(lia)).
      exists e2. split; [lia|]. split; [lia|]. rewrite <- HR.
      pose proof (pow2_pos (e2 - e) ltac:(lia)). nia.
Qed.

Abbreviation rn := (RN prec emax).
Abbreviation rns := (RNs prec emax).
Abbreviation ovf := (overflow emax).

Lemma Zdigits2_unique (v d : Z) :
  0 < v -> 2 ^ (d - 1) <= v < 2 ^ d -> Zdigits2 v = d.
Proof.
  intros Hv H. destruct v as [|p|p]; try lia. apply digits2_pos_unique, H.
Qed.

Lemma Zdigits2_bounds (v : Z) :
  0 < v -> 2 ^ (Zdigits2 v - 1) <= v < 2 ^ Zdigits2 v.
Proof.
  intros Hv. destruct v as [|p|p]; try lia. apply digits2_pos_bounds.
Qed.

Lemma Zdigits2_scaled (m : positive) (j : Z) :
  0 <= j -> Zdigits2 (Zpos m * 2 ^ j) = Zpos (digits2_pos m) + j.
Proof.
  intros Hj. pose proof (digits2_pos_bounds m) as [B1 B2].
  pose proof (pow2_pos j Hj).
  apply Zdigits2_unique; [nia|].
  replace (Zpos (digits2_pos m) + j - 1) with ((Zpos (digits2_pos m) - 1) + j) by lia.
  rewrite !Z.pow_add_r by lia. split; nia.
Qed.

(** [RN] of a scaled mantissa is the rounding of the mantissa. *)
Lemma RN_scaled (m : positive) (e : Z) :
  -1074 <= e -> e <= fexp (Zpos (digits2_pos m) + e) ->
  rn (Zpos m * 2 ^ (e + 1074)) =
  rnd_even (fexp (Zpos (digits2_pos m) + e) - e) (Zpos m) * 2 ^ (e + 1074).
Proof.
  intros He Ht. unfold RN.
  rewrite Zdigits2_scaled by lia.
  replace (Z.max (Zpos (digits2_pos m) + (e + 1074) - prec) (emin + 1074))
    with ((fexp (Zpos (digits2_pos m) + e) - e) + (e + 1074))
    by (unfold SpecFloat.fexp; lia).
  apply rnd_even_scale; lia.
Qed.

Lemma emax_pos : 2 <= emax.
Proof. unfold SpecFloat.emin in *. lia. Qed.

Lemma cond_Zopp_0 (s : bool) : cond_Zopp s 0 = 0.
Proof. destruct s; reflexivity. Qed.

Lemma rnd_even_nonneg (k v : Z) : 0 <= k -> 0 <= v -> 0 <= rnd_even k v.
Proof.
  intros Hk Hv. pose proof (rnd_even_bounds k v Hk Hv).
  pose proof (pow2_pos k Hk). pose proof (Z.div_pos v (2 ^ k) Hv ltac:(lia)). nia.
Qed.

Lemma round_aux_val (s : bool) (m : positive) (e : Z) :
  -1074 <= e -> e <= fexp (Zpos (digits2_pos m) + e) ->
  let v := Zpos m * 2 ^ (e + 1074) in
  let r := binary_round_aux prec emax s (Zpos m) e loc_Exact in
  valid_binary r = true /\
  (rn v < ovf -> finite_or_zero r = true /\ val r = cond_Zopp s (rn v)).
Proof.
  intros He Ht v r.
  pose proof (round_aux_shape s m e Ht) as H. fold r in H. cbv zeta in H.
  pose proof (RN_scaled m e He Ht) as Hv. fold v in Hv.
  set (R := rnd_even (fexp (Zpos (digits2_pos m) + e) - e) (Zpos m)) in *.
  pose proof (pow2_pos (e + 1074) ltac:(lia)) as HP.
  pose proof emax_pos as HE.
  destruct r as [s'|s'| |s' m' e'].
  - destruct H as (-> & HR). split; [reflexivity|]. intros _. split; [reflexivity|].
    rewrite Hv, HR. simpl. symmetry. apply cond_Zopp_0.
  - destruct H as (-> & e2 & H1 & H2 & H3). split; [reflexivity|]. intros Ho. exfalso.
    unfold overflow in Ho.
    assert (2 ^ (emax + 1074) <= 2 ^ (prec - 1) * 2 ^ (e2 - e) * 2 ^ (e + 1074)).
    { rewrite <- !Z.pow_add_r by lia. apply Z.pow_le_mono_r; lia. }
    nia.
  - destruct H.
  - destruct H as (-> & Hb & Hle & HR). split; [exact Hb|]. intros _. split; [reflexivity|].
    cbv [val]. f_equal. rewrite Hv, <- HR.
    replace (e' + 1074) with ((e' - e) + (e + 1074)) by lia.
    rewrite Z.pow_add_r by lia. ring.
Qed.

Lemma binary_round_val (s : bool) (m : positive) (e : Z) :
  -1074 <= e ->
  let v := Zpos m * 2 ^ (e + 1074) in
  let r := binary_round prec emax s m e in
  valid_binary r = true /\
  (rn v < ovf -> finite_or_zero r = true /\ val r = cond_Zopp s (rn v)).
Proof.
  intros He v r. subst r. unfold binary_round, shl_align.
  set (t := fexp (Zpos (digits2_pos m) + e)).
  destruct (t - e) as [|p|p] eqn:Ed.
  - apply round_aux_val; fold t; lia.
  - apply round_aux_val; fold t; lia.
  - assert (Hz : Zpos (Pos.iter xO m p) = Zpos m * 2 ^ Zpos p).
    { change (Pos.iter xO m p) with (shift_pos p m). rewrite shift_pos_correct.
      change (Z.pow_pos 2 p) with (2 ^ Zpos p). ring. }
    assert (Hd : Zpos (digits2_pos (Pos.iter xO m p)) = Zpos (digits2_pos m) + Zpos p).
    { apply digits2_pos_shift, Hz. }
    assert (Htm : emin <= t) by apply fexp_ge_emin.
    assert (Hv : v = Zpos (Pos.iter xO m p) * 2 ^ (t + 1074)).
    { unfold v. rewrite Hz. replace (e + 1074) with (Zpos p + (t + 1074)) by lia.
      rewrite Z.pow_add_r by lia. ring. }
    rewrite Hv. apply round_aux_val; [lia|].
    rewrite Hd. replace (Zpos (digits2_pos m) + Zpos p + t) with (Zpos (digits2_pos m) + e) by lia.
    fold t. lia.
Qed.

(** [RN] is monotone. *)
Lemma rnd_even_pow2 (k j : Z) : 0 <= k <= j -> rnd_even k (2 ^ j) = 2 ^ j.
Proof.
  intros H. apply rnd_even_exact; [lia|].
  replace j with ((j - k) + k) by lia. rewrite Z.pow_add_r by lia. apply Z_mod_mult.
Qed.

Lemma RN_nonneg (v : Z) : 0 <= v -> 0 <= rn v.
Proof. intros. apply rnd_even_nonneg; unfold SpecFloat.emin in *; lia. Qed.

Lemma RN_0 : rn 0 = 0.
Proof.
  unfold RN. apply rnd_even_exact; [simpl Zdigits2; lia|]. apply Z.mod_0_l.
  pose proof (pow2_pos (Z.max (Zdigits2 0 - prec) (emin + 1074)) ltac:(lia)). lia.
Qed.

Lemma RN_le (v1 v2 : Z) : 0 <= v1 <= v2 -> rn v1 <= rn v2.
Proof.
  intros [H1 H2].
  destruct (Z.eq_dec v1 0) as [-> | N1].
  { rewrite RN_0. apply RN_nonneg. lia. }
  pose proof (Zdigits2_bounds v1 ltac:(lia)) as [L1 U1].
  pose proof (Zdigits2_bounds v2 ltac:(lia)) as [L2 U2].
  set (d1 := Zdigits2 v1) in *. set (d2 := Zdigits2 v2) in *.
  assert (Hd1 : 0 < d1) by (subst d1; destruct v1; simpl; lia).
  assert (Hd2 : 0 < d2) by (subst d2; destruct v2; simpl; lia).
  assert (Hd : d1 <= d2).
  { assert (d1 - 1 < d2); [|lia]. apply (Z.pow_lt_mono_r_iff 2); lia. }
  unfold RN. fold d1 d2.
  set (k1 := Z.max (d1 - prec) (emin + 1074)). set (k2 := Z.max (d2 - prec) (emin + 1074)).
  destruct (Z.eq_dec k1 k2) as [E | E].
  - rewrite E. apply rnd_even_le; lia.
  - assert (Hk : k1 < k2) by lia.
    assert (Hk2 : k2 = d2 - prec) by lia.
    assert (Hdd : d1 <= d2 - 1) by lia.
    apply Z.le_trans with (2 ^ (d2 - 1)).
    + rewrite <- (rnd_even_pow2 k1 (d2 - 1)) by lia.
      apply rnd_even_le; [lia|]. split; [lia|].
      apply Z.le_trans with (2 ^ d1); [lia|]. apply Z.pow_le_mono_r; lia.
    + rewrite <- (rnd_even_pow2 k2 (d2 - 1)) at 1 by lia.
      apply rnd_even_le; [lia|]. split; [|lia].
      pose proof (pow2_pos (d2 - 1) ltac:(lia)). lia.
Qed.

Lemma RNs_le (v1 v2 : Z) : v1 <= v2 -> rns v1 <= rns v2.
Proof.
  intros H. unfold RNs.
  destruct (Z.ltb_spec v1 0), (Z.ltb_spec v2 0).
  - pose proof (RN_le (- v2) (- v1) ltac:(lia)). lia.
  - pose proof (RN_nonneg (- v1) ltac:(lia)). pose proof (RN_nonneg v2 ltac:(lia)). lia.
  - lia.
  - apply RN_le. lia.
Qed.

Lemma RNs_cond_Zopp (s : bool) (v : Z) : 0 < v -> cond_Zopp s (rn v) = rns (cond_Zopp s v).
Proof.
  intros Hv. unfold RNs. destruct s; simpl cond_Zopp.
  - replace (- v <? 0) with true by (symmetry; apply Z.ltb_lt; lia).
    rewrite Z.opp_involutive. reflexivity.
  - replace (v <? 0) with false by (symmetry; apply Z.ltb_ge; lia). reflexivity.
Qed.

Lemma RNs_abs (v : Z) : Z.abs (rns v) = rn (Z.abs v).
Proof.
  unfold RNs. destruct (Z.ltb_spec v 0).
  - pose proof (RN_nonneg (- v) ltac:(lia)). rewrite Z.abs_neq by lia.
    rewrite Z.abs_neq by lia. lia.
  - pose proof (RN_nonneg v ltac:(lia)). rewrite !Z.abs_eq by lia. reflexivity.
Qed.

(** The values the format holds are left as they are. *)
Lemma RN_bounded (m : positive) (e : Z) :
  bounded m e = true -> rn (Zpos m * 2 ^ (e + 1074)) = Zpos m * 2 ^ (e + 1074).
Proof.
  intros Hb. pose proof (bounded_inv m e Hb) as (He & _).
  unfold SpecFloat.bounded, canonical_mantissa in Hb. apply andb_prop in Hb as [Hc _].
  apply Z.eqb_eq in Hc.
  rewrite RN_scaled by lia. rewrite Hc, Z.sub_diag.
  rewrite rnd_even_exact; [reflexivity | lia | apply Z.mod_1_r].
Qed.

Lemma RNs_val (x : spec_float) : valid_binary x = true -> rns (val x) = val x.
Proof.
  destruct x as [s|s| |s m e]; cbv [val SpecFloat.valid_binary]; intros Hv;
    try (unfold RNs; simpl; apply RN_0).
  pose proof (bounded_inv m e Hv) as (He & _).
  pose proof (val_finite_pos m e ltac:(lia)).
  rewrite <- RNs_cond_Zopp by lia. rewrite RN_bounded by assumption. reflexivity.
Qed.

Lemma val_lt_overflow (x : spec_float) : valid_binary x = true -> Z.abs (val x) < ovf.
Proof.
  pose proof emax_pos.
  destruct x as [s|s| |s m e]; cbv [val SpecFloat.valid_binary]; intros Hv;
    try (change (Z.abs 0) with 0; apply pow2_pos; lia).
  pose proof (bounded_inv m e Hv) as (He & Hu & _).
  pose proof (val_finite_pos m e ltac:(lia)).
  assert (Z.abs (cond_Zopp s (Zpos m * 2 ^ (e + 1074))) = Zpos m * 2 ^ (e + 1074)) as ->.
  { destruct s; cbv [cond_Zopp]; lia. }
  unfold overflow.
  apply Z.lt_le_trans with (2 ^ prec * 2 ^ (e + 1074)).
  - pose proof (pow2_pos (e + 1074) ltac:(lia)). nia.
  - rewrite <- Z.pow_add_r by lia. apply Z.pow_le_mono_r; lia.
Qed.

(** *** The operations, by value *)

Lemma RNs_0 : rns 0 = 0.
Proof. unfold RNs. simpl. apply RN_0. Qed.

Lemma binary_normalize_val (z e : Z) :
  -1074 <= e ->
  let v := z * 2 ^ (e + 1074) in
  let r := binary_normalize prec emax z e false in
  valid_binary r = true /\
  (Z.abs (rns v) < ovf -> finite_or_zero r = true /\ val r = rns v).
Proof.
  intros He v r. subst v r.
  pose proof (pow2_pos (e + 1074) ltac:(lia)) as HP.
  destruct z as [|m|m]; cbv [binary_normalize].
  - split; [reflexivity|]. intros _. split; [reflexivity|]. rewrite Z.mul_0_l, RNs_0. reflexivity.
  - destruct (binary_round_val false m e He) as (Hv & Hr). split; [exact Hv|].
    rewrite RNs_abs, Z.abs_eq by nia. intros Ho. destruct (Hr Ho) as (Hf & Hx).
    split; [exact Hf|]. rewrite Hx. apply RNs_cond_Zopp. nia.
  - destruct (binary_round_val true m e He) as (Hv & Hr). split; [exact Hv|].
    change (Zneg m) with (- Zpos m). rewrite Z.mul_opp_l.
    rewrite RNs_abs, Z.abs_opp, Z.abs_eq by nia.
    intros Ho. destruct (Hr Ho) as (Hf & Hx).
    split; [exact Hf|]. rewrite Hx. rewrite RNs_cond_Zopp by nia. reflexivity.
Qed.

Lemma shl_align_val (m : positive) (e e' : Z) :
  e' <= e -> Zpos (fst (shl_align m e e')) = Zpos m * 2 ^ (e - e').
Proof.
  intros H. unfold shl_align. destruct (e' - e) as [|p|p] eqn:E; cbn [fst].
  - replace (e - e') with 0 by lia. simpl. lia.
  - lia.
  - change (Pos.iter xO m p) with (shift_pos p m). rewrite shift_pos_correct.
    change (Z.pow_pos 2 p) with (2 ^ Zpos p). replace (e - e') with (Zpos p) by lia. ring.
Qed.

Lemma val_aligned (s : bool) (m : positive) (e e' : Z) :
  -1074 <= e' <= e ->
  cond_Zopp s (Zpos (fst (shl_align m e e'))) * 2 ^ (e' + 1074) =
  val (S754_finite s m e).
Proof.
  intros H. rewrite shl_align_val by lia. cbv [val].
  replace (e + 1074) with ((e - e') + (e' + 1074)) by lia.
  rewrite (Z.pow_add_r 2 (e - e') (e' + 1074)) by lia.
  destruct s; cbv [cond_Zopp]; ring.
Qed.

Lemma SFsub_val (x y : spec_float) :
  valid_binary x = true -> valid_binary y = true ->
  finite_or_zero x = true -> finite_or_zero y = true ->
  let r := SFsub prec emax x y in
  valid_binary r = true /\
  (Z.abs (rns (val x - val y)) < ovf -> finite_or_zero r = true /\ val r = rns (val x - val y)).
Proof.
  intros Vx Vy Fx Fy r. subst r.
  destruct x as [sx|sx| |sx mx ex], y as [sy|sy| |sy my ey]; try discriminate.
  - split; [destruct sx, sy; reflexivity|]. intros _.
    split; [destruct sx, sy; reflexivity|].
    change (val (S754_zero sx) - val (S754_zero sy)) with 0. rewrite RNs_0.
    destruct sx, sy; reflexivity.
  - cbv [SFsub]. split; [exact Vy|]. intros _. split; [reflexivity|].
    replace (val (S754_zero sx) - val (S754_finite sy my ey))
      with (val (S754_finite (negb sy) my ey)).
    + symmetry. apply RNs_val. exact Vy.
    + cbv [val]. destruct sy; cbv [cond_Zopp negb]; lia.
  - cbv [SFsub]. split; [exact Vx|]. intros _. split; [reflexivity|].
    replace (val (S754_finite sx mx ex) - val (S754_zero sy)) with (val (S754_finite sx mx ex))
      by (cbv [val]; lia).
    symmetry. apply RNs_val. exact Vx.
  - pose proof (bounded_inv _ _ Vx) as (Ex & _). pose proof (bounded_inv _ _ Vy) as (Ey & _).
    cbv [SFsub].
    replace (val (S754_finite sx mx ex) - val (S754_finite sy my ey))
      with ((cond_Zopp sx (Zpos (fst (shl_align mx ex (Z.min ex ey)))) -
             cond_Zopp sy (Zpos (fst (shl_align my ey (Z.min ex ey))))) *
            2 ^ (Z.min ex ey + 1074)).
    + apply binary_normalize_val. lia.
    + rewrite Z.mul_sub_distr_r, !val_aligned by lia. reflexivity.
Qed.

Lemma SFadd_val (x y : spec_float) :
  valid_binary x = true -> valid_binary y = true ->
  finite_or_zero x = true -> finite_or_zero y = true ->
  let r := SFadd prec emax x y in
  valid_binary r = true /\
  (Z.abs (rns (val x + val y)) < ovf -> finite_or_zero r = true /\ val r = rns (val x + val y)).
Proof.
  intros Vx Vy Fx Fy r. subst r.
  destruct x as [sx|sx| |sx mx ex], y as [sy|sy| |sy my ey]; try discriminate.
  - split; [destruct sx, sy; reflexivity|]. intros _.
    split; [destruct sx, sy; reflexivity|].
    change (val (S754_zero sx) + val (S754_zero sy)) with 0. rewrite RNs_0.
    destruct sx, sy; reflexivity.
  - cbv [SFadd]. split; [exact Vy|]. intros _. split; [reflexivity|].
    replace (val (S754_zero sx) + val (S754_finite sy my ey)) with (val (S754_finite sy my ey))
      by (cbv [val]; lia).
    symmetry. apply RNs_val. exact Vy.
  - cbv [SFadd]. split; [exact Vx|]. intros _. split; [reflexivity|].
    replace (val (S754_finite sx mx ex) + val (S754_zero sy)) with (val (S754_finite sx mx ex))
      by (cbv [val]; lia).
    symmetry. apply RNs_val. exact Vx.
  - pose proof (bounded_inv _ _ Vx) as (Ex & _). pose proof (bounded_inv _ _ Vy) as (Ey & _).
    cbv [SFadd].
    replace (val (S754_finite sx mx ex) + val (S754_finite sy my ey))
      with ((cond_Zopp sx (Zpos (fst (shl_align mx ex (Z.min ex ey)))) +
             cond_Zopp sy (Zpos (fst (shl_align my ey (Z.min ex ey))))) *
            2 ^ (Z.min ex ey + 1074)).
    + apply binary_normalize_val. lia.
    + rewrite Z.mul_add_distr_r, !val_aligned by lia. reflexivity.
Qed.

(** A product of valid numbers is valid. *)
Lemma SFmul_valid (x y : spec_float) :
  valid_binary x = true -> valid_binary y = true ->
  valid_binary (SFmul prec emax x y) = true.
Proof.
  intros Vx Vy.
  destruct x as [sx|sx| |sx mx ex], y as [sy|sy| |sy my ey]; try reflexivity.
  cbv [SFmul].
  assert (Hpre : ex + ey <= fexp (Zpos (digits2_pos (mx * my)) + (ex + ey))).
  { cbv [SpecFloat.valid_binary SpecFloat.bounded] in Vx, Vy.
    apply andb_prop in Vx as [Cx _]. apply andb_prop in Vy as [Cy _].
    unfold canonical_mantissa, SpecFloat.fexp in Cx, Cy.
    apply Z.eqb_eq in Cx. apply Z.eqb_eq in Cy.
    pose proof (digits2_pos_bounds mx) as [Lx Ux].
    pose proof (digits2_pos_bounds my) as [Ly Uy].
    pose proof (digits2_pos_bounds (mx * my)) as [L U].
    set (dx := Zpos (digits2_pos mx)) in *. set (dy := Zpos (digits2_pos my)) in *.
    set (d := Zpos (digits2_pos (mx * my))) in *.
    assert (dx + dy - 1 <= d).
    { assert (dx - 1 + (dy - 1) < d); [|lia]. apply (Z.pow_lt_mono_r_iff 2); [lia | lia |].
      rewrite Z.pow_add_r by lia. rewrite Pos2Z.inj_mul in U.
      pose proof (pow2_pos (dx - 1) ltac:(lia)). pose proof (pow2_pos (dy - 1) ltac:(lia)).
      nia. }
    unfold SpecFloat.fexp, SpecFloat.emin in *. lia. }
  pose proof (round_aux_shape (xorb sx sy) (mx * my) (ex + ey) Hpre) as H. cbv zeta in H.
  destruct (binary_round_aux prec emax (xorb sx sy) (Zpos (mx * my)) (ex + ey) loc_Exact)
    as [s'|s'| |s' m' e']; try reflexivity. apply H.
Qed.

(** Whatever it is given, [binary_round] returns a valid number. *)
Lemma binary_round_valid (s : bool) (m : positive) (e : Z) :
  valid_binary (binary_round prec emax s m e) = true.
Proof.
  assert (Haux : forall m e, e <= fexp (Zpos (digits2_pos m) + e) ->
            valid_binary (binary_round_aux prec emax s (Zpos m) e loc_Exact) = true).
  { clear m e. intros m e Ht. pose proof (round_aux_shape s m e Ht) as H. cbv zeta in H.
    destruct (binary_round_aux prec emax s (Zpos m) e loc_Exact); try reflexivity. apply H. }
  unfold binary_round, shl_align.
  set (t := fexp (Zpos (digits2_pos m) + e)).
  destruct (t - e) as [|p|p] eqn:Ed.
  - apply Haux. fold t. lia.
  - apply Haux. fold t. lia.
  - assert (Hz : Zpos (Pos.iter xO m p) = Zpos m * 2 ^ Zpos p).
    { change (Pos.iter xO m p) with (shift_pos p m). rewrite shift_pos_correct.
      change (Z.pow_pos 2 p) with (2 ^ Zpos p). ring. }
    apply Haux. rewrite (digits2_pos_shift m p _ Hz).
    replace (Zpos (digits2_pos m) + Zpos p + t) with (Zpos (digits2_pos m) + e) by lia.
    fold t. lia.
Qed.

Lemma binary_normalize_valid (z e : Z) (s : bool) :
  valid_binary (binary_normalize prec emax z e s) = true.
Proof. destruct z; cbv [binary_normalize]; [reflexivity| |]; apply binary_round_valid. Qed.

(** A mantissa that is a multiple of the grid step is not rounded. *)
Lemma RN_exact (m : positive) (e : Z) :
  -1074 <= e ->
  Zpos m mod 2 ^ Z.max (fexp (Zpos (digits2_pos m) + e) - e) 0 = 0 ->
  rn (Zpos m * 2 ^ (e + 1074)) = Zpos m * 2 ^ (e + 1074).
Proof.
  intros He Hm. set (t := fexp (Zpos (digits2_pos m) + e)) in *.
  destruct (Z_le_gt_dec e t) as [L | L].
  - rewrite RN_scaled by (fold t; lia). fold t.
    replace (Z.max (t - e) 0) with (t - e) in Hm by lia.
    rewrite rnd_even_exact; [reflexivity | lia | exact Hm].
  - unfold RN. rewrite Zdigits2_scaled by lia.
    pose proof (fexp_ge_emin (Zpos (digits2_pos m) + e)) as Hge. fold t in Hge.
    replace (Z.max (Zpos (digits2_pos m) + (e + 1074) - prec) (emin + 1074))
      with (t + 1074) by (unfold t, SpecFloat.fexp; lia).
    apply rnd_even_exact; [lia|].
    replace (e + 1074) with ((e - t) + (t + 1074)) by lia.
    rewrite (Z.pow_add_r 2 (e - t) (t + 1074)) by lia.
    rewrite Z.mul_assoc. apply Z_mod_mult.
Qed.

End Format.

(** *** binary32 and binary64 *)

Lemma F_ok : format_ok F.prec F.emax.
Proof. cbv. repeat split; discriminate. Qed.
Lemma D_ok : format_ok D.prec D.emax.
Proof. cbv. repeat split; discriminate. Qed.

Lemma overflow_F_D : overflow F.emax < overflow D.emax.
Proof. unfold overflow. apply Z.pow_lt_mono_r; cbv; try discriminate; reflexivity. Qed.

Lemma d2f_valid (x : double) : F.valid (d2f x) = true.
Proof. destruct x; try reflexivity. apply binary_round_valid; exact F_ok. Qed.

Lemma F_of_int_valid (z : Z) : F.valid (F.of_int z) = true.
Proof. apply binary_normalize_valid; exact F_ok. Qed.

Lemma F_mul_valid (x y : float) : F.valid x = true -> F.valid y = true -> F.valid (F.mul x y) = true.
Proof. apply SFmul_valid; exact F_ok. Qed.

Lemma d2f_val (x : double) :
  D.valid x = true -> finite_or_zero x = true ->
  Z.abs (RNf (val x)) < overflow F.emax ->
  finite_or_zero (d2f x) = true /\ val (d2f x) = RNf (val x).
Proof.
  intros Vx Fx Ho. destruct x as [s|s| |s m e]; try discriminate.
  - split; [reflexivity|]. symmetry. apply (RNs_0 F.prec F.emax F_ok).
  - pose proof (bounded_inv D.prec D.emax _ _ Vx) as (He & _).
    change (emin D.prec D.emax) with (-1074) in He.
    pose proof (val_finite_pos m e ltac:(lia)) as Hp.
    destruct (binary_round_val F.prec F.emax F_ok s m e ltac:(lia)) as (_ & H).
    unfold RNf in *. cbv [val] in Ho |- *.
    rewrite <- (RNs_cond_Zopp F.prec F.emax) in Ho |- * by lia.
    cbv [d2f]. apply H.
    pose proof (RN_nonneg F.prec F.emax F_ok (Zpos m * 2 ^ (e + 1074)) ltac:(lia)).
    destruct s; cbv [cond_Zopp] in Ho; lia.
Qed.

Lemma f2d_val (x : float) :
  F.valid x = true -> finite_or_zero x = true ->
  D.valid (f2d x) = true /\ finite_or_zero (f2d x) = true /\ val (f2d x) = val x.
Proof.
  intros Vx Fx. destruct x as [s|s| |s m e]; try discriminate.
  - repeat split.
  - pose proof (bounded_inv F.prec F.emax _ _ Vx) as (He & Hu & _).
    change (emin F.prec F.emax) with (-149) in He.
    pose proof (val_finite_pos m e ltac:(lia)) as Hp.
    destruct (binary_round_val D.prec D.emax D_ok s m e ltac:(lia)) as (Hv & H).
    assert (Hx : RN D.prec D.emax (Zpos m * 2 ^ (e + 1074)) = Zpos m * 2 ^ (e + 1074)).
    { apply (RN_exact D.prec D.emax D_ok); [lia|].
      pose proof (digits2_pos_bounds m) as [B1 B2].
      assert (Zpos (digits2_pos m) - 1 < F.prec).
      { apply (Z.pow_lt_mono_r_iff 2); [lia | cbv; discriminate | lia]. }
      replace (Z.max (fexp D.prec D.emax (Zpos (digits2_pos m) + e) - e) 0) with 0.
      - apply Z.mod_1_r.
      - unfold fexp, emin, D.prec, D.emax, F.prec in *. lia. }
    cbv [f2d]. split; [exact Hv|]. rewrite Hx in H. apply H.
    pose proof (val_lt_overflow F.prec F.emax F_ok _ Vx) as Ho.
    pose proof overflow_F_D.
    cbv [val] in Ho. destruct s; cbv [cond_Zopp] in Ho; lia.
Qed.

(** An [int] of at most 24 bits is the same number as a [float] and as a
    [double]. *)
Lemma small_int_exact (prec emax : Z) (Hfmt : format_ok prec emax) (z : Z) :
  24 <= prec -> 128 <= emax -> emin prec emax <= -24 -> Z.abs z <= 2 ^ 24 ->
  let r := binary_normalize prec emax z 0 false in
  valid_binary prec emax r = true /\ finite_or_zero r = true /\ val r = z * 2 ^ 1074.
Proof.
  intros H24 H128 Hemin Hz r.
  destruct (binary_normalize_val prec emax Hfmt z 0 ltac:(lia)) as (Hv & H).
  fold r in Hv, H. cbv zeta in H. change (0 + 1074) with 1074 in H.
  assert (Hex : RNs prec emax (z * 2 ^ 1074) = z * 2 ^ 1074).
  { assert (Hpos : forall m : positive, Zpos m <= 2 ^ 24 ->
              RN prec emax (Zpos m * 2 ^ 1074) = Zpos m * 2 ^ 1074).
    { intros m Hle. apply (RN_exact prec emax Hfmt m 0); [lia|].
      pose proof (digits2_pos_bounds m) as [B1 B2].
      destruct (Z.eq_dec (Zpos m) (2 ^ 24)) as [E | E].
      - rewrite (digits2_pos_unique m 25) by (rewrite E; cbv; split; [discriminate | reflexivity]).
        assert (Z.max (fexp prec emax (25 + 0) - 0) 0 = 0 \/
                Z.max (fexp prec emax (25 + 0) - 0) 0 = 1) as [-> | ->]
          by (unfold fexp; lia).
        + apply Z.mod_1_r.
        + rewrite E. reflexivity.
      - assert (Zpos (digits2_pos m) - 1 < 24).
        { apply (Z.pow_lt_mono_r_iff 2); lia. }
        replace (Z.max (fexp prec emax (Zpos (digits2_pos m) + 0) - 0) 0) with 0
          by (unfold fexp; lia).
        apply Z.mod_1_r. }
    unfold RNs. destruct z as [|m|m].
    - simpl. apply (RN_0 prec emax Hfmt).
    - replace (Zpos m * 2 ^ 1074 <? 0) with false by (symmetry; apply Z.ltb_ge; lia).
      apply Hpos. lia.
    - replace (Zneg m * 2 ^ 1074 <? 0) with true by (symmetry; apply Z.ltb_lt; lia).
      change (Zneg m) with (- Zpos m). rewrite Z.mul_opp_l, Z.opp_involutive.
      rewrite Hpos by lia. reflexivity. }
  rewrite Hex in H. split; [exact Hv|]. apply H.
  unfold overflow. apply Z.le_lt_trans with (2 ^ 24 * 2 ^ 1074).
  - rewrite Z.abs_mul. rewrite (Z.abs_eq (2 ^ 1074)) by (apply Z.pow_nonneg; lia).
    apply Z.mul_le_mono_nonneg_r; [apply Z.pow_nonneg; lia | exact Hz].
  - rewrite <- Z.pow_add_r by lia. apply Z.pow_lt_mono_r; lia.
Qed.

Lemma F_of_int_val (z : Z) :
  Z.abs z <= 2 ^ 24 ->
  F.valid (F.of_int z) = true /\ finite_or_zero (F.of_int z) = true /\
  val (F.of_int z) = z * 2 ^ 1074.
Proof.
  apply (small_int_exact F.prec F.emax F_ok); cbv; discriminate.
Qed.

Lemma D_of_int_val (z : Z) :
  Z.abs z <= 2 ^ 24 ->
  D.valid (D.of_int z) = true /\ finite_or_zero (D.of_int z) = true /\
  val (D.of_int z) = z * 2 ^ 1074.
Proof.
  apply (small_int_exact D.prec D.emax D_ok); cbv; discriminate.
Qed.

Lemma SFleb_val (prec emax : Z) (Hfmt : format_ok prec emax) (x y : spec_float) :
  valid_binary prec emax x = true -> valid_binary prec emax y = true ->
  finite_or_zero x = true -> finite_or_zero y = true ->
  SFleb x y = (val x <=? val y).
Proof.
  intros Vx Vy Fx Fy. unfold SFleb. rewrite (SFcompare_val prec emax Hfmt x y Vx Vy Fx Fy).
  unfold Z.leb. destruct (val x ?= val y); reflexivity.
Qed.

Lemma SFltb_val (prec emax : Z) (Hfmt : format_ok prec emax) (x y : spec_float) :
  valid_binary prec emax x = true -> valid_binary prec emax y = true ->
  finite_or_zero x = true -> finite_or_zero y = true ->
  SFltb x y = (val x <? val y).
Proof.
  intros Vx Vy Fx Fy. unfold SFltb. rewrite (SFcompare_val prec emax Hfmt x y Vx Vy Fx Fy).
  unfold Z.ltb. destruct (val x ?= val y); reflexivity.
Qed.

Lemma RNf_le (v1 v2 : Z) : v1 <= v2 -> RNf v1 <= RNf v2.
Proof. exact (RNs_le F.prec F.emax F_ok v1 v2). Qed.

Lemma RNd_le (v1 v2 : Z) : v1 <= v2 -> RNd v1 <= RNd v2.
Proof. exact (RNs_le D.prec D.emax D_ok v1 v2). Qed.

Lemma RNf_val (x : float) : F.valid x = true -> RNf (val x) = val x.
Proof. exact (RNs_val F.prec F.emax F_ok x). Qed.

Lemma F_sub_val (x y : float) :
  F.valid x = true -> F.valid y = true ->
  finite_or_zero x = true -> finite_or_zero y = true ->
  F.valid (F.sub x y) = true /\
  (Z.abs (RNf (val x - val y)) < overflow F.emax ->
   finite_or_zero (F.sub x y) = true /\ val (F.sub x y) = RNf (val x - val y)).
Proof. exact (SFsub_val F.prec F.emax F_ok x y). Qed.

Lemma D_sub_val (x y : double) :
  D.valid x = true -> D.valid y = true ->
  finite_or_zero x = true -> finite_or_zero y = true ->
  D.valid (D.sub x y) = true /\
  (Z.abs (RNd (val x - val y)) < overflow D.emax ->
   finite_or_zero (D.sub x y) = true /\ val (D.sub x y) = RNd (val x - val y)).
Proof. exact (SFsub_val D.prec D.emax D_ok x y). Qed.

Lemma D_add_val (x y : double) :
  D.valid x = true -> D.valid y = true ->
  finite_or_zero x = true -> finite_or_zero y = true ->
  D.valid (D.add x y) = true /\
  (Z.abs (RNd (val x + val y)) < overflow D.emax ->
   finite_or_zero (D.add x y) = true /\ val (D.add x y) = RNd (val x + val y)).
Proof. exact (SFadd_val D.prec D.emax D_ok x y). Qed.

(** An infinity is not between two finite numbers. *)
Lemma between_finite (x lo hi : spec_float) :
  is_nan x = false -> finite_or_zero lo = true -> finite_or_zero hi = true ->
  SFltb x lo = false -> SFltb hi x = false -> finite_or_zero x = true.
Proof.
  destruct x as [s|s| |s m e]; try reflexivity; try discriminate.
  destruct lo as [sl|sl| |sl ml el], hi as [sh|sh| |sh mh eh], s; try discriminate.
Qed.

(** The clamped thrust, as the [double] that is published, is within the
    bounds. *)
Lemma CLAMP_within (x : float) (lo hi : Z) :
  F.valid x = true -> is_nan x = false ->
  lo <= hi -> Z.abs lo <= 2 ^ 24 -> Z.abs hi <= 2 ^ 24 ->
  D.leb (D.of_int lo) (f2d (CLAMP x lo hi)) = true /\
  D.leb (f2d (CLAMP x lo hi)) (D.of_int hi) = true.
Proof.
  intros Vx Nx Hle Hlo Hhi.
  destruct (F_of_int_val lo Hlo) as (Vlf & Flf & Elf).
  destruct (F_of_int_val hi Hhi) as (Vhf & Fhf & Ehf).
  destruct (D_of_int_val lo Hlo) as (Vld & Fld & Eld).
  destruct (D_of_int_val hi Hhi) as (Vhd & Fhd & Ehd).
  assert (HS : 0 < 2 ^ 1074) by (apply Z.pow_pos_nonneg; lia).
  assert (Hin : forall r : float, F.valid r = true -> finite_or_zero r = true ->
            lo * 2 ^ 1074 <= val r <= hi * 2 ^ 1074 ->
            D.leb (D.of_int lo) (f2d r) = true /\ D.leb (f2d r) (D.of_int hi) = true).
  { intros r Vr Fr Hr. destruct (f2d_val r Vr Fr) as (Vd & Fd & Ed).
    unfold D.leb. rewrite !(SFleb_val D.prec D.emax D_ok) by assumption.
    rewrite Ed, Eld, Ehd. split; apply Z.leb_le; lia. }
  unfold CLAMP. destruct (F.ltb x (F.of_int lo)) eqn:E1.
  - apply Hin; auto. rewrite Elf. nia.
  - destruct (F.ltb (F.of_int hi) x) eqn:E2.
    + apply Hin; auto. rewrite Ehf. nia.
    + assert (Fx : finite_or_zero x = true) by exact (between_finite x (F.of_int lo) (F.of_int hi) Nx Flf Fhf E1 E2).
      apply Hin; auto.
      unfold F.ltb in E1, E2.
      rewrite (SFltb_val F.prec F.emax F_ok) in E1, E2 by assumption.
      rewrite Elf in E1. rewrite Ehf in E2.
      apply Z.ltb_ge in E1. apply Z.ltb_ge in E2. lia.
Qed.

(** *** The yaw error, in values

    [M_PI] is not a [float]: the [float] next to it, [(float) M_PI], is
    above it.  So no yaw error is exactly [-M_PI], one beyond [M_PI] is at
    least [(float) M_PI], and the ends of the ranges after a wrap are
    numbers that evaluate. *)

Lemma PI_f_value : PI_f = val (S754_finite false 13176795 (-22)).
Proof. vm_compute. reflexivity. Qed.

Lemma RNf_PI_d_opp : RNf (- PI_d) = - PI_f.
Proof. vm_compute. reflexivity. Qed.

Lemma RNf_above_PI_d : RNf (PI_d + 1) = PI_f.
Proof. vm_compute. reflexivity. Qed.

Lemma RNf_below_PI_d_opp : RNf (- PI_d - 1) = - PI_f.
Proof. vm_compute. reflexivity. Qed.

Lemma RNf_two_PI_f : RNf (2 * PI_f) = 2 * PI_f /\ RNf (- (2 * PI_f)) = - (2 * PI_f).
Proof. split; vm_compute; reflexivity. Qed.

Lemma PI_d_lt_PI_f : 0 < PI_d < PI_f.
Proof. split; vm_compute; reflexivity. Qed.

Lemma two_PI_f_small : 2 * PI_f < overflow F.emax.
Proof. vm_compute. reflexivity. Qed.

Lemma two_pi_val :
  D.valid two_pi = true /\ finite_or_zero two_pi = true /\ val two_pi = 2 * PI_d.
Proof. repeat split; vm_compute; reflexivity. Qed.

Lemma wrapped_down_range :
  - PI_d < RNf (RNd (PI_f - 2 * PI_d)) /\
  RNf (RNd (2 * PI_f - 2 * PI_d)) <= PI_d /\
  Z.abs (RNd (PI_f - 2 * PI_d)) < overflow D.emax /\
  Z.abs (RNd (2 * PI_f - 2 * PI_d)) < overflow D.emax.
Proof. repeat split; vm_compute; first [reflexivity | discriminate]. Qed.

Lemma wrapped_up_range :
  - PI_d < RNf (RNd (- (2 * PI_f) + 2 * PI_d)) /\
  RNf (RNd (- PI_f + 2 * PI_d)) <= PI_d /\
  Z.abs (RNd (- (2 * PI_f) + 2 * PI_d)) < overflow D.emax /\
  Z.abs (RNd (- PI_f + 2 * PI_d)) < overflow D.emax.
Proof. repeat split; vm_compute; first [reflexivity | discriminate]. Qed.

Lemma M_PI_val :
  D.valid M_PI = true /\ finite_or_zero M_PI = true /\
  D.valid (D.opp M_PI) = true /\ finite_or_zero (D.opp M_PI) = true /\
  val (D.opp M_PI) = - PI_d.
Proof. repeat split; vm_compute; reflexivity. Qed.

Lemma in_range_finite (a : double) :
  D.leb (D.opp M_PI) a = true -> D.leb a M_PI = true -> finite_or_zero a = true.
Proof.
  intros H1 H2. destruct a as [s|s| |s m e]; try reflexivity.
  - destruct s; vm_compute in H1, H2; discriminate.
  - vm_compute in H1. discriminate.
Qed.

Lemma in_range_val (a : double) :
  D.valid a = true -> D.leb (D.opp M_PI) a = true -> D.leb a M_PI = true ->
  finite_or_zero a = true /\ - PI_d <= val a <= PI_d.
Proof.
  intros Va H1 H2. pose proof (in_range_finite a H1 H2) as Fa.
  destruct M_PI_val as (Vp & Fp & Vn & Fn & En).
  unfold D.leb in H1, H2.
  rewrite (SFleb_val D.prec D.emax D_ok) in H1, H2 by assumption.
  rewrite En in H1. apply Z.leb_le in H1. apply Z.leb_le in H2.
  change (val M_PI) with PI_d in H2. split; [exact Fa | lia].
Qed.

(** A yaw angle as the callback holds it: the [float] next to a [double]
    between [-M_PI] and [M_PI]. *)
Lemma yaw_val (a : double) :
  D.valid a = true -> D.leb (D.opp M_PI) a = true -> D.leb a M_PI = true ->
  F.valid (d2f a) = true /\ finite_or_zero (d2f a) = true /\
  - PI_f <= val (d2f a) <= PI_f.
Proof.
  intros Va H1 H2. destruct (in_range_val a Va H1 H2) as (Fa & Hr).
  pose proof (RNf_le (- PI_d) (val a) ltac:(lia)) as L.
  pose proof (RNf_le (val a) PI_d ltac:(lia) : RNf (val a) <= PI_f) as U.
  rewrite RNf_PI_d_opp in L.
  pose proof PI_d_lt_PI_f. pose proof two_PI_f_small.
  destruct (d2f_val a Va Fa ltac:(lia)) as (Ff & Ev).
  split; [apply d2f_valid|]. split; [exact Ff|]. rewrite Ev. lia.
Qed.

Lemma F_sub_yaw (yd yc : float) :
  F.valid yd = true -> finite_or_zero yd = true -> - PI_f <= val yd <= PI_f ->
  F.valid yc = true -> finite_or_zero yc = true -> - PI_f <= val yc <= PI_f ->
  F.valid (F.sub yd yc) = true /\ finite_or_zero (F.sub yd yc) = true /\
  - (2 * PI_f) <= val (F.sub yd yc) <= 2 * PI_f.
Proof.
  intros Vd Fd Rd Vc Fc Rc.
  destruct (F_sub_val yd yc Vd Vc Fd Fc) as (Vs & Hs).
  pose proof (RNf_le (- (2 * PI_f)) (val yd - val yc) ltac:(lia)) as L.
  pose proof (RNf_le (val yd - val yc) (2 * PI_f) ltac:(lia)) as U.
  destruct RNf_two_PI_f as (E1 & E2). rewrite E2 in L. rewrite E1 in U.
  pose proof two_PI_f_small.
  destruct (Hs ltac:(lia)) as (Fs & Es).
  split; [exact Vs|]. split; [exact Fs|]. rewrite Es. lia.
Qed.

(** The wrapped yaw error is in (-M_PI, M_PI], whatever the two yaw angles
    in [-M_PI, M_PI] were. *)
Lemma wrap_yaw_range (e0 : float) :
  F.valid e0 = true -> finite_or_zero e0 = true ->
  - (2 * PI_f) <= val e0 <= 2 * PI_f ->
  D.ltb (D.opp M_PI) (f2d (wrap_yaw e0)) = true /\
  D.leb (f2d (wrap_yaw e0)) M_PI = true.
Proof.
  intros V0 F0 R0.
  destruct M_PI_val as (Vp & Fp & Vn & Fn & En).
  destruct two_pi_val as (Vt & Ft & Et).
  destruct (f2d_val e0 V0 F0) as (VE & FE & EE).
  pose proof (RNf_val e0 V0) as Hrep.
  pose proof PI_d_lt_PI_f as HP. pose proof two_PI_f_small as Hsm.
  assert (Hout : forall r : float, F.valid r = true -> finite_or_zero r = true ->
            - PI_d < val r <= PI_d ->
            D.ltb (D.opp M_PI) (f2d r) = true /\ D.leb (f2d r) M_PI = true).
  { intros r Vr Fr Hr. destruct (f2d_val r Vr Fr) as (Vd & Fd & Ed).
    unfold D.ltb, D.leb.
    rewrite (SFltb_val D.prec D.emax D_ok), (SFleb_val D.prec D.emax D_ok) by assumption.
    rewrite Ed, En. change (val M_PI) with PI_d.
    split; [apply Z.ltb_lt | apply Z.leb_le]; lia. }
  unfold wrap_yaw, D.ltb.
  rewrite (SFltb_val D.prec D.emax D_ok M_PI (f2d e0) Vp VE Fp FE).
  rewrite (SFltb_val D.prec D.emax D_ok (f2d e0) (D.opp M_PI) VE Vn FE Fn).
  rewrite EE, En. change (val M_PI) with PI_d.
  destruct (Z.ltb_spec PI_d (val e0)) as [Hhi | Hhi].
  - (* above M_PI: 2 pi is subtracted *)
    assert (Hge : PI_f <= val e0).
    { rewrite <- Hrep, <- RNf_above_PI_d. apply RNf_le. lia. }
    destruct (D_sub_val (f2d e0) two_pi VE Vt FE Ft) as (Vs & Hs).
    rewrite EE, Et in Hs.
    destruct wrapped_down_range as (C1 & C2 & O1 & O2).
    pose proof (RNd_le (PI_f - 2 * PI_d) (val e0 - 2 * PI_d) ltac:(lia)) as L.
    pose proof (RNd_le (val e0 - 2 * PI_d) (2 * PI_f - 2 * PI_d) ltac:(lia)) as U.
    destruct (Hs ltac:(lia)) as (Fs & Es).
    pose proof (RNf_le _ _ L) as L'.
    pose proof (RNf_le _ _ U) as U'.
    rewrite <- Es in L', U'.
    destruct (d2f_val _ Vs Fs ltac:(lia)) as (Fr & Er).
    apply Hout; [apply d2f_valid | exact Fr | rewrite Er; lia].
  - destruct (Z.ltb_spec (val e0) (- PI_d)) as [Hlo | Hlo].
    + (* below -M_PI: 2 pi is added *)
      assert (Hle : val e0 <= - PI_f).
      { rewrite <- Hrep, <- RNf_below_PI_d_opp. apply RNf_le. lia. }
      destruct (D_add_val (f2d e0) two_pi VE Vt FE Ft) as (Vs & Hs).
      rewrite EE, Et in Hs.
      destruct wrapped_up_range as (C1 & C2 & O1 & O2).
      pose proof (RNd_le (- (2 * PI_f) + 2 * PI_d) (val e0 + 2 * PI_d) ltac:(lia)) as L.
      pose proof (RNd_le (val e0 + 2 * PI_d) (- PI_f + 2 * PI_d) ltac:(lia)) as U.
      destruct (Hs ltac:(lia)) as (Fs & Es).
      pose proof (RNf_le _ _ L) as L'.
      pose proof (RNf_le _ _ U) as U'.
      rewrite <- Es in L', U'.
      destruct (d2f_val _ Vs Fs ltac:(lia)) as (Fr & Er).
      apply Hout; [apply d2f_valid | exact Fr | rewrite Er; lia].
    + (* in between: left as it is; -M_PI itself is not a float *)
      apply Hout; auto.
      assert (val e0 <> - PI_d); [|lia].
      intros E. rewrite E in Hrep. rewrite RNf_PI_d_opp in Hrep. lia.
Qed.

(** ** The callbacks *)

Lemma skipn_app_length {A} (l r : list A) : skipn (length l) (l ++ r) = r.
Proof. induction l; simpl; auto. Qed.

Section Callbacks.
Context {P : Platform}.

#[local] Arguments crazy_vel_cmd : simpl never.
#[local] Arguments min_thrust_cmd : simpl never.
#[local] Arguments arming_packet : simpl never.
#[local] Arguments sysoff_packet : simpl never.
#[local] Arguments syson_packet : simpl never.
#[local] Arguments Twist_new : simpl never.
#[local] Arguments int_add : simpl never.
#[local] Arguments Z.ltb : simpl never.
#[local] Arguments d_0_5 : simpl never.

Ltac callback :=
  unfold exec, events_of, odom_callback, store_odom, update_w_dot, so3_cmd_callback,
    convert_and_publish, save_last, reboot, send_arming_request, for_, when,
    publish, sleep, call, emit, assign, get, bind, ret.

(** The events of a callback, once its trace is known. *)
Lemma events_of_trace {A} (m : M A) (n : Node) (w : World) (evs : list Event) :
  trace (snd (exec m n w)) = trace w ++ evs -> events_of m n w = evs.
Proof. intros H. unfold events_of. rewrite H. apply skipn_app_length. Qed.

(** *** so3_cmd_callback with the motors disabled *)


Lemma disabled_exec (n : Node) (w : World) (msg : SO3Command) :
  enable_motors msg = false ->
  exists n' w',
    exec (so3_cmd_callback msg) n w = (n', w') /\
    motor_status_ n' = 0 /\
    last_so3_cmd_ n' = msg /\
    last_so3_cmd_time_ n' = cmd_stamp msg /\
    so3_cmd_set_ n' = true /\
    armed_ n' = (if is_brushless_ n then false else armed_ n) /\
    trace w' = trace w ++
      Publish cmd_vel Twist_new ::
      (if is_brushless_ n && armed_ n
       then disarm_events (nth 0 (replies w) false) (nth 1 (replies w) false)
                          (nth 2 (replies w) false)
       else []).
Proof.
  intros H. callback. rewrite H.
  destruct (so3_cmd_set_ n) eqn:Hs; simpl;
    destruct (is_brushless_ n) eqn:Hb; simpl;
    destruct (armed_ n) eqn:Ha; simpl;
    try (do 2 eexists; repeat split; simpl; rewrite ?Hs, ?Hb, ?Ha; eauto; fail).
  all: destruct (replies w) as [|r1 [|r2 [|r3 rest]]]; simpl;
    do 2 eexists; repeat split; simpl; rewrite ?Hs, ?Hb, ?Ha, <- ?app_assoc; reflexivity.
Qed.

(** *** so3_cmd_callback with the motors enabled *)



Lemma enabled_exec (n : Node) (w : World) (msg : SO3Command) :
  enable_motors msg = true ->
  exists n' w',
    exec (so3_cmd_callback msg) n w = (n', w') /\
    motor_status_ n' = int_add (motor_status_ n) 1 /\
    last_so3_cmd_ n' = msg /\
    last_so3_cmd_time_ n' = cmd_stamp msg /\
    so3_cmd_set_ n' = true /\
    armed_ n' = (if is_brushless_ n then true else armed_ n) /\
    trace w' = trace w ++ arm_events n w ++ enabled_publications n msg.
Proof.
  intros H. callback. unfold arm_events, enabled_publications. rewrite H.
  destruct (so3_cmd_set_ n) eqn:Hs; simpl;
    destruct (is_brushless_ n) eqn:Hb; simpl;
    destruct (armed_ n) eqn:Ha; simpl;
    try (destruct (replies w) as [|r1 rest]; simpl);
    destruct (motor_status_ n <? 3) eqn:H3; simpl;
    try (destruct (motor_status_ n <? 10) eqn:H10; simpl);
    do 2 eexists; repeat split; simpl;
    rewrite ?Hs, ?Hb, ?Ha, <- ?app_assoc; reflexivity.
Qed.



Lemma so3_cmd_callback_frame (n : Node) (w : World) (msg : SO3Command) :
  same_odom n (fst (exec (so3_cmd_callback msg) n w)) /\
  same_config n (fst (exec (so3_cmd_callback msg) n w)).
Proof.
  callback. unfold same_odom, same_config.
  destruct (enable_motors msg);
    destruct (so3_cmd_set_ n) eqn:Hs; simpl;
    destruct (is_brushless_ n) eqn:Hb; simpl;
    destruct (armed_ n) eqn:Ha; simpl;
    try (destruct (replies w) as [|r1 [|r2 [|r3 rest]]]; simpl);
    try (destruct (motor_status_ n <? 3) eqn:H3; simpl);
    try (destruct (motor_status_ n <? 10) eqn:H10; simpl);
    repeat split; simpl; rewrite ?Hb; reflexivity.
Qed.

Lemma int_add_1 (z : Z) : - 2^31 <= z < 2^31 - 1 -> int_add z 1 = z + 1.
Proof.
  intros H. unfold int_add.
  rewrite Z.mod_small; lia.
Qed.

(** *** odom_callback *)



Lemma store_odom_exec (n : Node) (w : World) (odom : Odometry) :
  exists n',
    exec (store_odom odom) n w = (n', w) /\
    q_odom_ n' = pose_orientation odom /\
    w_odom_ n' = twist_angular odom /\
    odom_set_ n' = true /\
    w_dot_updated n odom n' /\
    same_cmd_state n n' /\ same_config n n'.
Proof.
  callback. unfold w_dot_updated, same_cmd_state, same_config.
  destruct (odom_set_ n) eqn:Hs; simpl.
  - destruct (D.ltb d_1e_6 (elapsed (odom_stamp odom) (last_odom_time_ n))) eqn:Hdt; simpl;
      eexists; repeat split; simpl; try reflexivity; try congruence.
  - eexists; repeat split; simpl; try reflexivity; try congruence.
Qed.

Lemma odom_callback_exec (n : Node) (w : World) (odom : Odometry) (now : Time) :
  exec (odom_callback odom now) n w =
    if so3_cmd_timed_out now n
    then exec (so3_cmd_callback (last_so3_cmd_ n)) (fst (exec (store_odom odom) n w)) w
    else exec (store_odom odom) n w.
Proof.
  destruct (store_odom_exec n w odom) as (n' & He & _ & _ & _ & _ & Hc & Hf).
  rewrite He. simpl.
  unfold exec in He. unfold exec, odom_callback, bind at 1.
  destruct (store_odom odom n w) as [[u n1] w1]. inversion He; subst n1 w1.
  unfold bind, get, when.
  assert (Ht : so3_cmd_timed_out now n' = so3_cmd_timed_out now n).
  { unfold so3_cmd_timed_out. destruct Hc as (-> & _ & -> & _), Hf as (-> & _). reflexivity. }
  rewrite Ht. destruct (so3_cmd_timed_out now n).
  - destruct Hc as (_ & -> & _). reflexivity.
  - reflexivity.
Qed.

(** Every run of so3_cmd_callback publishes. *)
Lemma so3_cmd_callback_publishes (n : Node) (w : World) (msg : SO3Command) :
  publications (events_of (so3_cmd_callback msg) n w) <> [].
Proof.
  destruct (enable_motors msg) eqn:He.
  - destruct (enabled_exec n w msg He) as (n' & w' & Hx & _ & _ & _ & _ & _ & Ht).
    rewrite (events_of_trace _ _ _ (arm_events n w ++ enabled_publications n msg)).
    2: { rewrite Hx. exact Ht. }
    unfold arm_events, enabled_publications.
    destruct (is_brushless_ n && negb (armed_ n)), (motor_status_ n <? 3),
      (motor_status_ n <? 10); simpl; discriminate.
  - destruct (disabled_exec n w msg He) as (n' & w' & Hx & _ & _ & _ & _ & _ & Ht).
    rewrite (events_of_trace _ _ _ _ ltac:(rewrite Hx; exact Ht)).
    simpl. discriminate.
Qed.

(** *** Comparisons *)

Lemma SFcompare_antisym (x y : spec_float) :
  SFcompare y x = option_map CompOpp (SFcompare x y).
Proof.
  destruct x as [sx|sx| |sx mx ex], y as [sy|sy| |sy my ey]; simpl;
    try destruct sx; try destruct sy; try reflexivity.
  all: rewrite (Z.compare_antisym ex ey); destruct (ex ?= ey); simpl; try reflexivity.
  all: rewrite <- (Pos.compare_cont_antisym _ _ Eq); simpl;
    rewrite ?CompOpp_involutive; reflexivity.
Qed.

Lemma SFleb_not_ltb (x y : spec_float) : SFleb x y = true -> SFltb y x = false.
Proof.
  unfold SFleb, SFltb. rewrite (SFcompare_antisym x y).
  destruct (SFcompare x y) as [[ | | ]|]; simpl; congruence.
Qed.

(** *** Runs *)

Lemma exec_bind {A B} (m : M A) (k : A -> M B) (n : Node) (w : World) :
  exec (bind m k) n w =
    let '(a, n', w') := m n w in exec (k a) n' w'.
Proof. unfold exec, bind. destruct (m n w) as [[a n'] w']. reflexivity. Qed.

Lemma exec_run_cons (i : Input) (rest : list Input) (n : Node) (w : World) :
  exec (run (i :: rest)) n w =
    exec (run rest) (fst (exec (step i) n w)) (snd (exec (step i) n w)).
Proof.
  simpl. rewrite exec_bind. unfold exec.
  destruct (step i n w) as [[a n'] w']. reflexivity.
Qed.

Lemma run_invariant (Inv : Node -> World -> Prop) :
  (forall i n w, Inv n w ->
     Inv (fst (exec (step i) n w)) (snd (exec (step i) n w))) ->
  forall inputs n w, Inv n w ->
    Inv (fst (exec (run inputs) n w)) (snd (exec (run inputs) n w)).
Proof.
  intros Hstep inputs. induction inputs as [|i rest IH]; intros n w HI.
  - exact HI.
  - rewrite exec_run_cons. apply IH, Hstep, HI.
Qed.

(** *** The motor sequencing *)

(** The converted message has the fields of the conversion, the
    minimum-thrust message the thrust thrust_pwm_min_ and nothing else. *)
Lemma crazy_vel_cmd_fields (n : Node) (msg : SO3Command) :
  conversion_of n msg (crazy_vel_cmd n msg).
Proof. unfold conversion_of. cbv zeta. repeat split. Qed.

Lemma min_thrust_cmd_fields (n : Node) :
  thrust_only (D.of_int (thrust_pwm_min_ n)) (min_thrust_cmd n).
Proof. repeat split. Qed.

Lemma Twist_new_fields : thrust_only (S754_zero false) Twist_new.
Proof. repeat split. Qed.

Lemma of_int_positive (z : Z) :
  0 < z <= 2 ^ 24 -> D.ltb (S754_zero false) (D.of_int z) = true.
Proof.
  intros Hz. destruct (D_of_int_val z ltac:(lia)) as (Vz & Fz & Ez).
  unfold D.ltb. rewrite (SFltb_val D.prec D.emax D_ok) by (assumption || reflexivity).
  rewrite Ez. apply Z.ltb_lt. change (val (S754_zero false)) with 0.
  assert (0 < 2 ^ 1074) by (apply Z.pow_pos_nonneg; lia). nia.
Qed.

(** C4: a command with the motors enabled, handled while motor_status_ is in
    [3, 10), publishes the minimum-thrust message on cmd_vel and then, in the
    same call, the converted message on cmd_vel_fast; while motor_status_ is
    below 3 it publishes the zero message on cmd_vel and nothing else (the
    conversion is not published).  The minimum-thrust message has the thrust
    thrust_pwm_min_ as a double and every other field 0, a thrust above the
    0 of the zero message for a positive thrust_pwm_min_; the converted
    message has the fields of the conversion; the zero message has every
    field 0. *)
Theorem spin_up_publications (n : Node) (w : World) (msg : SO3Command) :
  enable_motors msg = true ->
  let evs := events_of (so3_cmd_callback msg) n w in
  (3 <= motor_status_ n < 10 ->
     publications evs = [(cmd_vel, min_thrust_cmd n); (cmd_vel_fast, crazy_vel_cmd n msg)] /\
     thrust_only (D.of_int (thrust_pwm_min_ n)) (min_thrust_cmd n) /\
     (0 < thrust_pwm_min_ n <= 2 ^ 24 ->
        D.ltb (linear_z Twist_new) (linear_z (min_thrust_cmd n)) = true) /\
     conversion_of n msg (crazy_vel_cmd n msg)) /\
  (motor_status_ n < 3 ->
     publications evs = [(cmd_vel, Twist_new)] /\
     thrust_only (S754_zero false) Twist_new).
Proof.
  intros He evs.
  destruct (enabled_exec n w msg He) as (n' & w' & Hx & _ & _ & _ & _ & _ & Ht).
  assert (Hev : evs = arm_events n w ++ enabled_publications n msg).
  { apply events_of_trace. rewrite Hx. exact Ht. }
  rewrite Hev. unfold arm_events, enabled_publications. split; intros Hm.
  - replace (motor_status_ n <? 3) with false by (symmetry; apply Z.ltb_ge; lia).
    replace (motor_status_ n <? 10) with true by (symmetry; apply Z.ltb_lt; lia).
    split; [destruct (is_brushless_ n && negb (armed_ n)); reflexivity|].
    split; [apply min_thrust_cmd_fields|].
    split; [exact (of_int_positive (thrust_pwm_min_ n)) | apply crazy_vel_cmd_fields].
  - replace (motor_status_ n <? 3) with true by (symmetry; apply Z.ltb_lt; lia).
    split; [destruct (is_brushless_ n && negb (armed_ n)); reflexivity|].
    apply Twist_new_fields.
Qed.

(** C5: a command with the motors disabled sets motor_status_ to 0, publishes
    the zero message on cmd_vel exactly once and nothing on cmd_vel_fast,
    stores the command and its stamp as the last one and, when the vehicle is
    brushless and armed, sends one disarm request, then the SYSOFF request,
    sleeps 0.5 s and sends the SYSON request, whatever the service answers.
    The events are given byte by byte: the disarm request has the header
    220, the size 2 and the payload 1, 0 (arm = 0); SYSOFF and SYSON have the
    header 255, the size 2 and the payloads 0xFE, 0x02 and 0xFE, 0x03; the
    pause is the double 0.5; the zero message has every field 0. *)
Theorem disable_motors_sequence (n : Node) (w : World) (msg : SO3Command) :
  enable_motors msg = false ->
  let n' := fst (exec (so3_cmd_callback msg) n w) in
  let evs := events_of (so3_cmd_callback msg) n w in
  motor_status_ n' = 0 /\
  last_so3_cmd_ n' = msg /\
  last_so3_cmd_time_ n' = cmd_stamp msg /\
  publications evs = [(cmd_vel, Twist_new)] /\
  publications evs = [(cmd_vel, zero_twist)] /\
  (is_brushless_ n && armed_ n = true ->
     armed_ n' = false /\
     requests evs = [arming_packet false; sysoff_packet; syson_packet] /\
     requests evs = [disarm_bytes; sysoff_bytes; syson_bytes] /\
     (exists r1 r2 r3, evs = Publish cmd_vel Twist_new :: disarm_events r1 r2 r3) /\
     (exists r1 r2 r3,
        evs = [Publish cmd_vel zero_twist;
               ServiceCall disarm_bytes r1;
               ServiceCall sysoff_bytes r2;
               Sleep (S754_finite false 4503599627370496 (-53));
               ServiceCall syson_bytes r3]) /\
     D.add (S754_finite false 4503599627370496 (-53))
           (S754_finite false 4503599627370496 (-53)) = D.of_int 1) /\
  (is_brushless_ n && armed_ n = false ->
     evs = [Publish cmd_vel Twist_new] /\ evs = [Publish cmd_vel zero_twist]).
Proof.
  intros He n' evs.
  destruct (disabled_exec n w msg He) as (n1 & w1 & Hx & Hm & Hl & Hs & _ & Ha & Ht).
  assert (Hev : evs = Publish cmd_vel Twist_new ::
     (if is_brushless_ n && armed_ n
      then disarm_events (nth 0 (replies w) false) (nth 1 (replies w) false)
                         (nth 2 (replies w) false)
      else [])).
  { apply events_of_trace. rewrite Hx. exact Ht. }
  subst n'. rewrite Hx. simpl fst. rewrite Hev.
  split; [exact Hm|]. split; [exact Hl|]. split; [exact Hs|].
  split; [destruct (is_brushless_ n && armed_ n); reflexivity|].
  split; [destruct (is_brushless_ n && armed_ n); reflexivity|].
  split.
  - intros H. rewrite H. split.
    { rewrite Ha. destruct (is_brushless_ n); [reflexivity | discriminate]. }
    split; [reflexivity|]. split; [reflexivity|].
    split; [eauto|]. split; [|vm_compute; reflexivity].
    do 3 eexists. reflexivity.
  - intros H. rewrite H. split; reflexivity.
Qed.

(** C8, as the code has it: a command with the motors disabled sets
    motor_status_ to 0; a command with the motors enabled adds 1 to it in
    int arithmetic, whatever its value, with no saturation at 10: every value
    below INT_MAX becomes the value plus 1 (10 becomes 11), and INT_MAX, where
    the addition overflows, becomes INT_MIN on the two's complement the
    compilers give; from 10 on the value of the counter changes nothing in
    what the callback emits. *)
Theorem motor_status_counts (n : Node) (w : World) (msg : SO3Command) :
  let n' := fst (exec (so3_cmd_callback msg) n w) in
  (enable_motors msg = false -> motor_status_ n' = 0) /\
  (enable_motors msg = true ->
     motor_status_ n' = (motor_status_ n + 1 + 2 ^ 31) mod 2 ^ 32 - 2 ^ 31) /\
  (enable_motors msg = true -> - 2^31 <= motor_status_ n < 2^31 - 1 ->
     motor_status_ n' = motor_status_ n + 1) /\
  (enable_motors msg = true -> motor_status_ n = 2^31 - 1 ->
     motor_status_ n' = - 2^31) /\
  (enable_motors msg = true -> 10 <= motor_status_ n ->
     forall k, 10 <= k ->
       events_of (so3_cmd_callback msg) (set_motor_status_ k n) w =
       events_of (so3_cmd_callback msg) n w).
Proof.
  intros n'. subst n'. repeat split.
  - intros He. destruct (disabled_exec n w msg He) as (n1 & w1 & Hx & Hm & _).
    rewrite Hx. exact Hm.
  - intros He. destruct (enabled_exec n w msg He) as (n1 & w1 & Hx & Hm & _).
    rewrite Hx. simpl. rewrite Hm. reflexivity.
  - intros He Hr. destruct (enabled_exec n w msg He) as (n1 & w1 & Hx & Hm & _).
    rewrite Hx. simpl. rewrite Hm. apply int_add_1, Hr.
  - intros He Hr. destruct (enabled_exec n w msg He) as (n1 & w1 & Hx & Hm & _).
    rewrite Hx. simpl. rewrite Hm, Hr. reflexivity.
  - intros He Hn k Hk.
    destruct (enabled_exec n w msg He) as (n1 & w1 & Hx & _ & _ & _ & _ & _ & Ht).
    destruct (enabled_exec (set_motor_status_ k n) w msg He)
      as (n2 & w2 & Hx2 & _ & _ & _ & _ & _ & Ht2).
    rewrite (events_of_trace _ _ _ _ ltac:(rewrite Hx; exact Ht)).
    rewrite (events_of_trace _ _ _ _ ltac:(rewrite Hx2; exact Ht2)).
    unfold arm_events, enabled_publications. simpl.
    replace (motor_status_ n <? 3) with false by (symmetry; apply Z.ltb_ge; lia).
    replace (motor_status_ n <? 10) with false by (symmetry; apply Z.ltb_ge; lia).
    replace (k <? 3) with false by (symmetry; apply Z.ltb_ge; lia).
    replace (k <? 10) with false by (symmetry; apply Z.ltb_ge; lia).
    reflexivity.
Qed.

(** *** The odometry *)

(** C7: the first odometry sample stores its angular velocity and stamp as
    the last ones and sets the angular acceleration to zero; a later sample
    with dt = stamp - last stamp > 1e-6 sets the acceleration to
    (angular velocity - last angular velocity) / dt and stores the sample's
    angular velocity and stamp as the last ones; with dt <= 1e-6 the
    acceleration and the stored last values stay as they are.  The
    acceleration is given coefficient by coefficient: the three zeros of the
    first sample, and the quotient by dt of the difference of each
    coefficient for a later one. *)
Theorem angular_acceleration_update (n : Node) (w : World) (odom : Odometry) (now : Time) :
  let n' := fst (exec (odom_callback odom now) n w) in
  let dt := elapsed (odom_stamp odom) (last_odom_time_ n) in
  (odom_set_ n = false ->
     w_odom_last n' = twist_angular odom /\
     last_odom_time_ n' = odom_stamp odom /\
     w_dot_odom_ n' = Vector3d_Zero /\
     vx (w_dot_odom_ n') = S754_zero false /\
     vy (w_dot_odom_ n') = S754_zero false /\
     vz (w_dot_odom_ n') = S754_zero false) /\
  (odom_set_ n = true -> D.ltb d_1e_6 dt = true ->
     w_dot_odom_ n' = v_div (v_sub (twist_angular odom) (w_odom_last n)) dt /\
     w_odom_last n' = twist_angular odom /\
     last_odom_time_ n' = odom_stamp odom /\
     vx (w_dot_odom_ n') = D.div (D.sub (vx (twist_angular odom)) (vx (w_odom_last n))) dt /\
     vy (w_dot_odom_ n') = D.div (D.sub (vy (twist_angular odom)) (vy (w_odom_last n))) dt /\
     vz (w_dot_odom_ n') = D.div (D.sub (vz (twist_angular odom)) (vz (w_odom_last n))) dt) /\
  (odom_set_ n = true -> D.leb dt d_1e_6 = true ->
     w_dot_odom_ n' = w_dot_odom_ n /\
     w_odom_last n' = w_odom_last n /\
     last_odom_time_ n' = last_odom_time_ n) /\
  D.mul d_1e_6 (D.of_int 1000000) = D.of_int 1.
Proof.
  intros n' dt.
  destruct (store_odom_exec n w odom) as (n1 & Hx & _ & _ & _ & (H1 & H2 & H3) & _).
  assert (Hs : same_odom n1 n').
  { subst n'. rewrite odom_callback_exec. destruct (so3_cmd_timed_out now n).
    - rewrite Hx. simpl fst. apply so3_cmd_callback_frame.
    - rewrite Hx. repeat split. }
  destruct Hs as (_ & Et & _ & _ & El & Ed). rewrite Et, El, Ed.
  split; [|split; [|split]].
  - intros Hf. destruct (H1 Hf) as (A & B & C). rewrite C.
    split; [exact A|]. split; [exact B|]. repeat split.
  - intros Hf Hd. destruct (H2 Hf Hd) as (A & B & C). rewrite A.
    split; [reflexivity|]. split; [exact B|]. split; [exact C|]. repeat split.
  - intros Hf Hd. apply H3; auto. apply SFleb_not_ltb; assumption.
  - vm_compute. reflexivity.
Qed.

(** C10: every odometry sample overwrites the stored orientation and angular
    velocity with its own, also when dt <= 1e-6 leaves the angular
    acceleration and the stored last angular velocity and stamp as they
    were. *)
Theorem odometry_always_stored (n : Node) (w : World) (odom : Odometry) (now : Time) :
  let n' := fst (exec (odom_callback odom now) n w) in
  let dt := elapsed (odom_stamp odom) (last_odom_time_ n) in
  q_odom_ n' = pose_orientation odom /\
  w_odom_ n' = twist_angular odom /\
  (odom_set_ n = true -> D.leb dt d_1e_6 = true ->
     q_odom_ n' = pose_orientation odom /\
     w_odom_ n' = twist_angular odom /\
     w_dot_odom_ n' = w_dot_odom_ n /\
     w_odom_last n' = w_odom_last n /\
     last_odom_time_ n' = last_odom_time_ n).
Proof.
  intros n' dt.
  destruct (store_odom_exec n w odom) as (n1 & Hx & Hq & Hw & _ & (_ & _ & H3) & _).
  assert (Hs : same_odom n1 n').
  { subst n'. rewrite odom_callback_exec. destruct (so3_cmd_timed_out now n).
    - rewrite Hx. simpl fst. apply so3_cmd_callback_frame.
    - rewrite Hx. repeat split. }
  destruct Hs as (_ & Et & Eq & Ew & El & Ed). rewrite Et, Eq, Ew, El, Ed.
  repeat split; auto; apply H3; auto; apply SFleb_not_ltb; assumption.
Qed.

(** C3, as the code has it: an odometry sample makes the callback run
    so3_cmd_callback again on the stored last command, with the sample
    already stored, exactly when a command was handled before and the clock
    read when the sample is handled, not the sample's stamp, is at least
    so3_cmd_timeout_ past the stamp of the last command; otherwise the sample
    is stored and nothing is emitted. *)
Theorem timeout_reissue (n : Node) (w : World) (odom : Odometry) (now : Time) :
  (so3_cmd_set_ n && D.leb (so3_cmd_timeout_ n) (elapsed now (last_so3_cmd_time_ n)) = true ->
     exec (odom_callback odom now) n w =
       exec (so3_cmd_callback (last_so3_cmd_ n)) (fst (exec (store_odom odom) n w)) w /\
     publications (events_of (odom_callback odom now) n w) <> []) /\
  (so3_cmd_set_ n && D.leb (so3_cmd_timeout_ n) (elapsed now (last_so3_cmd_time_ n)) = false ->
     exec (odom_callback odom now) n w = exec (store_odom odom) n w /\
     events_of (odom_callback odom now) n w = []).
Proof.
  fold (so3_cmd_timed_out now n).
  pose proof (odom_callback_exec n w odom now) as Hx.
  destruct (store_odom_exec n w odom) as (n1 & Hs & _).
  split; intros Ht; rewrite Ht in Hx; split; try exact Hx.
  - unfold events_of. rewrite Hx, Hs. simpl fst.
    apply (so3_cmd_callback_publishes n1 w).
  - unfold events_of. rewrite Hx, Hs. simpl.
    rewrite <- (app_nil_r (trace w)) at 2. apply skipn_app_length.
Qed.

(** *** Arming *)





Lemma note_request_enabled_publications (n : Node) (msg : SO3Command) (a : bool) :
  fold_left note_request (enabled_publications n msg) a = a.
Proof.
  unfold enabled_publications.
  destruct (motor_status_ n <? 3), (motor_status_ n <? 10); reflexivity.
Qed.

Lemma armed_tracks_requests_step (i : Input) (n : Node) (w : World) :
  armed_ n = arm_requested (trace w) ->
  armed_ (fst (exec (step i) n w)) = arm_requested (trace (snd (exec (step i) n w))).
Proof.
  assert (Hcmd : forall msg n w, armed_ n = arm_requested (trace w) ->
    armed_ (fst (exec (so3_cmd_callback msg) n w)) =
    arm_requested (trace (snd (exec (so3_cmd_callback msg) n w)))).
  { clear. intros msg n w HI. destruct (enable_motors msg) eqn:He.
    - destruct (enabled_exec n w msg He) as (n' & w' & Hx & _ & _ & _ & _ & Ha & Ht).
      rewrite Hx. simpl. rewrite Ha, Ht. unfold arm_requested.
      rewrite !fold_left_app, note_request_enabled_publications.
      fold (arm_requested (trace w)). rewrite <- HI. unfold arm_events.
      destruct (is_brushless_ n), (armed_ n); reflexivity.
    - destruct (disabled_exec n w msg He) as (n' & w' & Hx & _ & _ & _ & _ & Ha & Ht).
      rewrite Hx. simpl. rewrite Ha, Ht. unfold arm_requested.
      rewrite fold_left_app. fold (arm_requested (trace w)). rewrite <- HI.
      destruct (is_brushless_ n), (armed_ n); reflexivity. }
  intros HI. destruct i as [msg | odom now]; simpl step.
  - apply Hcmd, HI.
  - rewrite odom_callback_exec.
    destruct (store_odom_exec n w odom) as (n1 & Hx & _ & _ & _ & _ & Hc & _).
    rewrite Hx. simpl fst.
    assert (HI1 : armed_ n1 = arm_requested (trace w)).
    { destruct Hc as (_ & _ & _ & _ & ->). exact HI. }
    destruct (so3_cmd_timed_out now n).
    + apply Hcmd, HI1.
    + exact HI1.
Qed.

Lemma armed_tracks_requests (n : Node) (w : World) :
  reachable n w -> armed_ n = arm_requested (trace w).
Proof.
  intros (ps & this & answers & inputs & _ & Hr).
  pose proof (run_invariant (fun n w => armed_ n = arm_requested (trace w))
                armed_tracks_requests_step inputs (onInit ps this) (start answers)
                eq_refl) as H.
  rewrite Hr in H. exact H.
Qed.

(** C9, as the code has it: in every reachable state, armed_ is true only if
    an arm request was sent since the last disarm request, acknowledged or
    not; a command with the motors enabled leaves a brushless vehicle's
    armed_ true whatever the service answered. *)
Theorem armed_after_request (n : Node) (w : World) :
  reachable n w ->
  (armed_ n = true -> arm_requested (trace w) = true) /\
  (forall msg, enable_motors msg = true -> is_brushless_ n = true ->
     armed_ (fst (exec (so3_cmd_callback msg) n w)) = true).
Proof.
  intros Hr. split.
  - intros Ha. rewrite <- (armed_tracks_requests n w Hr). exact Ha.
  - intros msg He Hb.
    destruct (enabled_exec n w msg He) as (n' & w' & Hx & _ & _ & _ & _ & Ha & _).
    rewrite Hx. simpl. rewrite Ha, Hb. reflexivity.
Qed.

(** *** The thrust *)

Lemma enabled_events (n : Node) (w : World) (msg : SO3Command) :
  enable_motors msg = true ->
  events_of (so3_cmd_callback msg) n w = arm_events n w ++ enabled_publications n msg.
Proof.
  intros He. destruct (enabled_exec n w msg He) as (n' & w' & Hx & _ & _ & _ & _ & _ & Ht).
  apply events_of_trace. rewrite Hx. exact Ht.
Qed.

Lemma disabled_publications (n : Node) (w : World) (msg : SO3Command) :
  enable_motors msg = false ->
  publications (events_of (so3_cmd_callback msg) n w) = [(cmd_vel, Twist_new)].
Proof.
  intros He. destruct (disabled_exec n w msg He) as (n' & w' & Hx & _ & _ & _ & _ & _ & Ht).
  rewrite (events_of_trace _ _ _ _ ltac:(rewrite Hx; exact Ht)).
  destruct (is_brushless_ n && armed_ n); reflexivity.
Qed.

Lemma publications_arm_events (n : Node) (w : World) (evs : list Event) :
  publications (arm_events n w ++ evs) = publications evs.
Proof. unfold arm_events. destruct (is_brushless_ n && negb (armed_ n)); reflexivity. Qed.

Lemma thrust_pwm_valid (n : Node) (msg : SO3Command) : F.valid (thrust_pwm n msg) = true.
Proof.
  unfold thrust_pwm, thrust_pwm_of. apply F_mul_valid; [apply d2f_valid | apply F_of_int_valid].
Qed.

Lemma min_thrust_within (n : Node) :
  thrust_pwm_min_ n <= thrust_pwm_max_ n ->
  Z.abs (thrust_pwm_min_ n) <= 2 ^ 24 -> Z.abs (thrust_pwm_max_ n) <= 2 ^ 24 ->
  within_pwm n (linear_z (min_thrust_cmd n)) = true.
Proof.
  intros Hle Hlo Hhi. unfold within_pwm, min_thrust_cmd. cbn [linear_z].
  destruct (D_of_int_val _ Hlo) as (Vl & Fl & El).
  destruct (D_of_int_val _ Hhi) as (Vh & Fh & Eh).
  assert (0 < 2 ^ 1074) by (apply Z.pow_pos_nonneg; lia).
  unfold D.leb. rewrite !(SFleb_val D.prec D.emax D_ok) by assumption.
  rewrite El, Eh. apply andb_true_intro. split; apply Z.leb_le; nia.
Qed.

Lemma conversion_within (n : Node) (msg : SO3Command) :
  thrust_pwm_min_ n <= thrust_pwm_max_ n ->
  Z.abs (thrust_pwm_min_ n) <= 2 ^ 24 -> Z.abs (thrust_pwm_max_ n) <= 2 ^ 24 ->
  is_nan (thrust_pwm n msg) = false ->
  within_pwm n (linear_z (crazy_vel_cmd n msg)) = true.
Proof.
  intros Hle Hlo Hhi Hnan. unfold within_pwm, crazy_vel_cmd. cbn [linear_z].
  destruct (CLAMP_within (thrust_pwm n msg) _ _ (thrust_pwm_valid n msg) Hnan Hle Hlo Hhi)
    as (H1 & H2).
  rewrite H1, H2. reflexivity.
Qed.

(** C1, as the code has it: the zero message of the spin-up (motor_status_
    below 3) and of the disarming is the only publication of its call and
    has the thrust 0, not a thrust within the PWM bounds; the minimum-thrust
    message and the converted message have a thrust within
    [thrust_pwm_min_, thrust_pwm_max_], for bounds in order and of at most
    24 bits and a thrust that is a number before the clamp. *)
Theorem published_thrust_range (n : Node) (w : World) (msg : SO3Command) :
  thrust_pwm_min_ n <= thrust_pwm_max_ n ->
  Z.abs (thrust_pwm_min_ n) <= 2 ^ 24 -> Z.abs (thrust_pwm_max_ n) <= 2 ^ 24 ->
  is_nan (thrust_pwm n msg) = false ->
  let evs := events_of (so3_cmd_callback msg) n w in
  (enable_motors msg = false \/ motor_status_ n < 3 ->
     publications evs = [(cmd_vel, Twist_new)] /\ linear_z Twist_new = d_zero) /\
  (enable_motors msg = true -> 3 <= motor_status_ n ->
     forall ch t, In (ch, t) (publications evs) -> within_pwm n (linear_z t) = true).
Proof.
  intros Hle Hlo Hhi Hnan evs. split.
  - intros Hc. split; [|reflexivity].
    destruct (enable_motors msg) eqn:He.
    + destruct Hc as [Hc | Hc]; [discriminate|].
      subst evs. rewrite (enabled_events n w msg He), publications_arm_events.
      unfold enabled_publications.
      replace (motor_status_ n <? 3) with true by (symmetry; apply Z.ltb_lt; lia).
      reflexivity.
    + apply (disabled_publications n w msg He).
  - intros He Hm ch t Hin. subst evs.
    rewrite (enabled_events n w msg He), publications_arm_events in Hin.
    unfold enabled_publications in Hin.
    replace (motor_status_ n <? 3) with false in Hin by (symmetry; apply Z.ltb_ge; lia).
    assert (Ht' : t = min_thrust_cmd n \/ t = crazy_vel_cmd n msg).
    { destruct (motor_status_ n <? 10); simpl in Hin; intuition congruence. }
    destruct Ht' as [-> | ->].
    + apply min_thrust_within; assumption.
    + apply conversion_within; assumption.
Qed.

(** The force in grams of a force that is not positive: a zero. *)
Lemma no_force_grams (f : double) :
  D.leb f d_zero = true ->
  exists s, D.div (D.mul (std_max f d_zero) (D.of_int 1000)) d_9_81 = S754_zero s.
Proof.
  intros H. destruct f as [s|s| |s m e]; try discriminate.
  - destruct s; eexists; vm_compute; reflexivity.
  - destruct s; [|discriminate]. eexists; vm_compute; reflexivity.
  - destruct s; [|discriminate]. eexists; vm_compute; reflexivity.
Qed.

Lemma add_zero_r (x : double) (s : bool) :
  x <> S754_zero true -> D.add x (S754_zero s) = x.
Proof.
  intros H. destruct x as [sx|sx| |sx mx ex]; try reflexivity.
  destruct sx, s; try reflexivity. congruence.
Qed.

(** C6, as the code has it: for every force along the body z axis that is
    not positive the clamped thrust is clamp((c1 + c2*sqrt(c3)) * pwmMax,
    pwmMin, pwmMax), the curve at no force scaled by thrust_pwm_max_ and
    then clamped; the force is replaced by 0 before the curve, and every
    such force gives this one value (c3 not being the negative zero). *)
Theorem zero_force_thrust (n : Node) (f : double) :
  D.leb f d_zero = true -> c3_ n <> S754_zero true ->
  CLAMP (thrust_pwm_of n f) (thrust_pwm_min_ n) (thrust_pwm_max_ n) = zero_force_floor n /\
  (forall msg, thrust_f n msg = f ->
     linear_z (crazy_vel_cmd n msg) = f2d (zero_force_floor n)).
Proof.
  intros Hf Hc.
  assert (H : CLAMP (thrust_pwm_of n f) (thrust_pwm_min_ n) (thrust_pwm_max_ n) =
              zero_force_floor n).
  { unfold zero_force_floor, thrust_pwm_of.
    destruct (no_force_grams f Hf) as (s & ->).
    rewrite (add_zero_r _ s Hc). reflexivity. }
  split; [exact H|].
  intros msg Hm. unfold crazy_vel_cmd. cbn [linear_z]. unfold thrust_pwm.
  rewrite Hm, H. reflexivity.
Qed.

(** *** The yaw error *)


(** ** Runs of the callbacks, the service, and the conversion at its edges *)

(** *** What the callbacks leave of the service's answers *)

Lemma enabled_rest (n : Node) (w : World) (msg : SO3Command) :
  enable_motors msg = true ->
  arm_status_ (fst (exec (so3_cmd_callback msg) n w)) = arm_status_ n /\
  replies (snd (exec (so3_cmd_callback msg) n w)) =
    if is_brushless_ n && negb (armed_ n) then tl (replies w) else replies w.
Proof.
  intros H. callback. rewrite H.
  destruct (so3_cmd_set_ n) eqn:Hs; simpl;
    destruct (is_brushless_ n) eqn:Hb; simpl;
    destruct (armed_ n) eqn:Ha; simpl;
    try (destruct (replies w) as [|r1 rest] eqn:Hr; simpl);
    destruct (motor_status_ n <? 3) eqn:H3; simpl;
    try (destruct (motor_status_ n <? 10) eqn:H10; simpl);
    split; rewrite ?Hr; reflexivity.
Qed.

Lemma disabled_rest (n : Node) (w : World) (msg : SO3Command) :
  enable_motors msg = false ->
  arm_status_ (fst (exec (so3_cmd_callback msg) n w)) = arm_status_ n /\
  replies (snd (exec (so3_cmd_callback msg) n w)) =
    if is_brushless_ n && armed_ n then skipn 3 (replies w) else replies w.
Proof.
  intros H. callback. rewrite H.
  destruct (so3_cmd_set_ n) eqn:Hs; simpl;
    destruct (is_brushless_ n) eqn:Hb; simpl;
    destruct (armed_ n) eqn:Ha; simpl;
    try (split; reflexivity).
  all: destruct (replies w) as [|r1 [|r2 [|r3 rest]]] eqn:Hr; simpl; split;
    rewrite ?Hr; reflexivity.
Qed.

Lemma store_odom_arm_status (n : Node) (w : World) (odom : Odometry) :
  arm_status_ (fst (exec (store_odom odom) n w)) = arm_status_ n.
Proof.
  callback. destruct (odom_set_ n); simpl; [|reflexivity].
  destruct (D.ltb d_1e_6 (elapsed (odom_stamp odom) (last_odom_time_ n))); reflexivity.
Qed.

(** *** The members after a command *)

Lemma so3_cmd_callback_exec (n : Node) (w : World) (msg : SO3Command) :
  let n' := fst (exec (so3_cmd_callback msg) n w) in
  let w' := snd (exec (so3_cmd_callback msg) n w) in
  so3_cmd_set_ n' = true /\
  last_so3_cmd_ n' = msg /\
  last_so3_cmd_time_ n' = cmd_stamp msg /\
  armed_ n' = (if is_brushless_ n then enable_motors msg else armed_ n) /\
  arm_status_ n' = arm_status_ n /\
  replies w' =
    (if is_brushless_ n && xorb (enable_motors msg) (armed_ n)
     then (if enable_motors msg then tl (replies w) else skipn 3 (replies w))
     else replies w) /\
  exists evs,
    trace w' = trace w ++ evs /\
    publications evs <> [] /\
    (is_brushless_ n && xorb (enable_motors msg) (armed_ n) = false ->
     publishes_only evs = true).
Proof.
  intros n' w'. subst n' w'. destruct (enable_motors msg) eqn:He.
  - destruct (enabled_exec n w msg He) as (n1 & w1 & Hx & _ & Hl & Ht & Hs & Ha & Hev).
    destruct (enabled_rest n w msg He) as (Hr1 & Hr2).
    rewrite Hx in *. cbn [fst snd] in *.
    repeat (split; [assumption ||
      (rewrite ?Ha, ?Hr2; destruct (is_brushless_ n), (armed_ n); reflexivity)|]).
    exists (arm_events n w ++ enabled_publications n msg). split; [exact Hev|]. split.
    + rewrite publications_arm_events. unfold enabled_publications.
      destruct (motor_status_ n <? 3), (motor_status_ n <? 10); simpl; discriminate.
    + intros Hb. unfold arm_events.
      replace (is_brushless_ n && negb (armed_ n)) with false
        by (destruct (is_brushless_ n), (armed_ n); simpl in *; congruence).
      unfold enabled_publications.
      destruct (motor_status_ n <? 3), (motor_status_ n <? 10); reflexivity.
  - destruct (disabled_exec n w msg He) as (n1 & w1 & Hx & _ & Hl & Ht & Hs & Ha & Hev).
    destruct (disabled_rest n w msg He) as (Hr1 & Hr2).
    rewrite Hx in *. cbn [fst snd] in *.
    repeat (split; [assumption ||
      (rewrite ?Ha, ?Hr2; destruct (is_brushless_ n), (armed_ n); reflexivity)|]).
    eexists. split; [exact Hev|]. split; [discriminate|].
    intros Hb.
    replace (is_brushless_ n && armed_ n) with false
      by (destruct (is_brushless_ n), (armed_ n); simpl in *; congruence).
    reflexivity.
Qed.

(** *** Traces *)

Lemma same_config_refl (n : Node) : same_config n n.
Proof. repeat split. Qed.

Lemma same_config_trans (a b c : Node) : same_config a b -> same_config b c -> same_config a c.
Proof. unfold same_config. intros H1 H2. intuition congruence. Qed.

Lemma same_odom_trans (a b c : Node) : same_odom a b -> same_odom b c -> same_odom a c.
Proof. unfold same_odom. intros H1 H2. intuition congruence. Qed.

Lemma events_of_extends {A} (m : M A) (n : Node) (w : World) :
  (exists evs, trace (snd (exec m n w)) = trace w ++ evs) ->
  trace (snd (exec m n w)) = trace w ++ events_of m n w.
Proof. intros (evs & H). rewrite (events_of_trace m n w evs H). exact H. Qed.

Lemma so3_cmd_callback_trace (n : Node) (w : World) (msg : SO3Command) :
  trace (snd (exec (so3_cmd_callback msg) n w)) =
  trace w ++ events_of (so3_cmd_callback msg) n w.
Proof.
  apply events_of_extends.
  destruct (so3_cmd_callback_exec n w msg) as (_ & _ & _ & _ & _ & _ & evs & H & _).
  exists evs. exact H.
Qed.

Lemma odom_callback_trace (n : Node) (w : World) (odom : Odometry) (now : Time) :
  trace (snd (exec (odom_callback odom now) n w)) =
  trace w ++ events_of (odom_callback odom now) n w.
Proof.
  apply events_of_extends. rewrite odom_callback_exec.
  destruct (store_odom_exec n w odom) as (n1 & Hx & _). rewrite Hx. cbn [fst].
  destruct (so3_cmd_timed_out now n).
  - eexists. apply so3_cmd_callback_trace.
  - exists []. cbn [snd]. symmetry. apply app_nil_r.
Qed.

Lemma step_trace (i : Input) (n : Node) (w : World) :
  trace (snd (exec (step i) n w)) = trace w ++ events_of (step i) n w.
Proof. destruct i; [apply so3_cmd_callback_trace | apply odom_callback_trace]. Qed.

Lemma run_trace (inputs : list Input) (n : Node) (w : World) :
  trace (snd (exec (run inputs) n w)) = trace w ++ events_of (run inputs) n w.
Proof.
  apply events_of_extends. revert n w.
  induction inputs as [|i rest IH]; intros n w.
  - exists []. symmetry. apply app_nil_r.
  - rewrite exec_run_cons.
    destruct (IH (fst (exec (step i) n w)) (snd (exec (step i) n w))) as (evs & H).
    rewrite H, step_trace, <- app_assoc. eexists. reflexivity.
Qed.

Lemma events_of_run_cons (i : Input) (rest : list Input) (n : Node) (w : World) :
  events_of (run (i :: rest)) n w =
  events_of (step i) n w ++
  events_of (run rest) (fst (exec (step i) n w)) (snd (exec (step i) n w)).
Proof.
  apply events_of_trace. rewrite exec_run_cons, run_trace, step_trace, <- app_assoc.
  reflexivity.
Qed.

Lemma events_of_run_nil (n : Node) (w : World) : events_of (run []) n w = [].
Proof. apply events_of_trace. symmetry. apply app_nil_r. Qed.

(** The events of an odometry sample are those of the re-issued command,
    if there is one. *)
Lemma odom_callback_events (n : Node) (w : World) (odom : Odometry) (now : Time) :
  events_of (odom_callback odom now) n w =
    if so3_cmd_timed_out now n
    then events_of (so3_cmd_callback (last_so3_cmd_ n)) (fst (exec (store_odom odom) n w)) w
    else [].
Proof.
  unfold events_of at 1. rewrite odom_callback_exec.
  destruct (store_odom_exec n w odom) as (n1 & Hx & _). rewrite Hx. cbn [fst].
  destruct (so3_cmd_timed_out now n).
  - reflexivity.
  - cbn [snd]. rewrite <- (app_nil_r (trace w)) at 2. apply skipn_app_length.
Qed.

(** *** The configuration *)

Lemma step_keeps_configuration (i : Input) (n : Node) (w : World) :
  same_config n (fst (exec (step i) n w)) /\
  arm_status_ (fst (exec (step i) n w)) = arm_status_ n.
Proof.
  assert (Hcmd : forall msg n w,
    same_config n (fst (exec (so3_cmd_callback msg) n w)) /\
    arm_status_ (fst (exec (so3_cmd_callback msg) n w)) = arm_status_ n).
  { clear. intros msg n w. split; [apply so3_cmd_callback_frame|].
    apply so3_cmd_callback_exec. }
  destruct i as [msg | odom now]; cbn [step].
  - apply Hcmd.
  - rewrite odom_callback_exec.
    destruct (store_odom_exec n w odom) as (n1 & Hx & _ & _ & _ & _ & _ & Hc).
    pose proof (store_odom_arm_status n w odom) as Ha.
    rewrite Hx in *. cbn [fst] in *.
    destruct (so3_cmd_timed_out now n); [|split; assumption].
    destruct (Hcmd (last_so3_cmd_ n) n1 w) as (H1 & H2). split.
    + exact (same_config_trans _ _ _ Hc H1).
    + congruence.
Qed.

Lemma step_keeps_timeout (i : Input) (n : Node) (w : World) :
  so3_cmd_timeout_ (fst (exec (step i) n w)) = so3_cmd_timeout_ n.
Proof. destruct (step_keeps_configuration i n w) as ((H & _) & _). exact H. Qed.

(** *** The commands, one at a time *)

(** X1: once the spin-up is over (motor_status_ from 10 on), a command with
    the motors enabled publishes the converted message on cmd_vel_fast and
    nothing else: nothing goes to cmd_vel any more.  The message has the
    fields of the conversion: roll and pitch (or their rates), the clamped
    thrust of the curve and the yaw rate of the wrapped yaw error. *)
Theorem steady_state_publication (n : Node) (w : World) (msg : SO3Command) :
  enable_motors msg = true -> 10 <= motor_status_ n ->
  publications (events_of (so3_cmd_callback msg) n w) =
    [(cmd_vel_fast, crazy_vel_cmd n msg)] /\
  conversion_of n msg (crazy_vel_cmd n msg).
Proof.
  intros He Hm. split; [|apply crazy_vel_cmd_fields].
  rewrite (enabled_events n w msg He), publications_arm_events.
  unfold enabled_publications.
  replace (motor_status_ n <? 3) with false by (symmetry; apply Z.ltb_ge; lia).
  replace (motor_status_ n <? 10) with false by (symmetry; apply Z.ltb_ge; lia).
  reflexivity.
Qed.

(** X2: every run of so3_cmd_callback, on each of its paths (zero message,
    minimum thrust, conversion, motors disabled), marks that a command was
    received and stores the message and its stamp as the last command. *)
Theorem command_always_stored (n : Node) (w : World) (msg : SO3Command) :
  let n' := fst (exec (so3_cmd_callback msg) n w) in
  so3_cmd_set_ n' = true /\
  last_so3_cmd_ n' = msg /\
  last_so3_cmd_time_ n' = cmd_stamp msg.
Proof.
  destruct (so3_cmd_callback_exec n w msg) as (H1 & H2 & H3 & _).
  repeat split; assumption.
Qed.

(** *** What the callbacks do not touch *)

(** X3: no sequence of commands and odometry samples changes what onInit
    read from the parameter server (timeout, thrust coefficients, gains, PWM
    bounds, the two mode flags), nor arm_status_. *)
Theorem run_keeps_configuration (inputs : list Input) (n : Node) (w : World) :
  same_config n (fst (exec (run inputs) n w)) /\
  arm_status_ (fst (exec (run inputs) n w)) = arm_status_ n.
Proof.
  apply (run_invariant (fun n' _ => same_config n n' /\ arm_status_ n' = arm_status_ n)).
  - intros i n1 w1 (H1 & H2).
    destruct (step_keeps_configuration i n1 w1) as (H3 & H4). split.
    + exact (same_config_trans _ _ _ H1 H3).
    + congruence.
  - split; [apply same_config_refl | reflexivity].
Qed.

(** X4: commands do not touch what the odometry callback stores: after any
    sequence of commands the orientation, the angular velocity, the angular
    acceleration and the last odometry stamp are the ones before it. *)
Theorem commands_keep_odometry (msgs : list SO3Command) (n : Node) (w : World) :
  same_odom n (fst (exec (run (map Cmd msgs)) n w)).
Proof.
  revert n w. induction msgs as [|msg rest IH]; intros n w.
  - repeat split.
  - cbn [map]. rewrite exec_run_cons. cbn [step].
    eapply same_odom_trans; [|apply IH]. apply so3_cmd_callback_frame.
Qed.

(** X5: before the first command, odometry samples publish nothing and
    request nothing, however many there are and whatever the clock reads:
    the world is left as it was, and so is the command state. *)
Theorem odometry_before_first_command
    (samples : list (Odometry * Time)) (n : Node) (w : World) :
  so3_cmd_set_ n = false ->
  snd (exec (run (odom_inputs samples)) n w) = w /\
  same_cmd_state n (fst (exec (run (odom_inputs samples)) n w)).
Proof.
  revert n. induction samples as [|[odom now] rest IH]; intros n Hs.
  - repeat split.
  - unfold odom_inputs in *. cbn [map fst snd]. rewrite exec_run_cons. cbn [step].
    rewrite odom_callback_exec. unfold so3_cmd_timed_out. rewrite Hs. cbn [andb].
    destruct (store_odom_exec n w odom) as (n1 & Hx & _ & _ & _ & _ & Hc & _).
    rewrite Hx. cbn [fst snd].
    assert (Hs1 : so3_cmd_set_ n1 = false) by (destruct Hc as (-> & _); exact Hs).
    destruct (IH n1 Hs1) as (Hw & Hc'). split; [exact Hw|].
    unfold same_cmd_state in *. intuition congruence.
Qed.

(** *** The service *)

Lemma publishes_only_app (a b : list Event) :
  publishes_only (a ++ b) = publishes_only a && publishes_only b.
Proof. apply forallb_app. Qed.

Lemma brushed_step (i : Input) (n : Node) (w : World) :
  is_brushless_ n = false ->
  let n' := fst (exec (step i) n w) in
  let w' := snd (exec (step i) n w) in
  is_brushless_ n' = false /\ armed_ n' = armed_ n /\ replies w' = replies w /\
  publishes_only (events_of (step i) n w) = true.
Proof.
  assert (Hcmd : forall msg n w, is_brushless_ n = false ->
    is_brushless_ (fst (exec (so3_cmd_callback msg) n w)) = false /\
    armed_ (fst (exec (so3_cmd_callback msg) n w)) = armed_ n /\
    replies (snd (exec (so3_cmd_callback msg) n w)) = replies w /\
    publishes_only (events_of (so3_cmd_callback msg) n w) = true).
  { clear. intros msg n w Hb.
    destruct (so3_cmd_callback_exec n w msg) as (_ & _ & _ & Ha & _ & Hr & evs & Ht & _ & Hp).
    destruct (so3_cmd_callback_frame n w msg) as (_ & Hc).
    rewrite Hb in *. cbn [andb] in *.
    split; [|split; [exact Ha | split; [exact Hr|]]].
    - unfold same_config in Hc. intuition congruence.
    - rewrite (events_of_trace _ _ _ evs Ht). apply Hp. reflexivity. }
  intros Hb n' w'. subst n' w'. destruct i as [msg | odom now]; cbn [step].
  - apply Hcmd, Hb.
  - rewrite odom_callback_events, odom_callback_exec.
    destruct (store_odom_exec n w odom) as (n1 & Hx & _ & _ & _ & _ & Hc & Hf).
    rewrite Hx. cbn [fst].
    assert (Hb1 : is_brushless_ n1 = false) by (unfold same_config in Hf; intuition congruence).
    assert (Ha1 : armed_ n1 = armed_ n) by (unfold same_cmd_state in Hc; intuition congruence).
    destruct (so3_cmd_timed_out now n).
    + destruct (Hcmd (last_so3_cmd_ n) n1 w Hb1) as (H1 & H2 & H3 & H4).
      repeat split; congruence.
    + repeat split; assumption.
Qed.

(** X6: a vehicle that is not brushless (is_brushless false, the default)
    never calls the send_packet service and never sleeps, whatever the
    commands and the odometry: every event of a run is a publication, the
    answers of the service are left unread and armed_ keeps its value. *)
Theorem brushed_never_calls_service (inputs : list Input) (n : Node) (w : World) :
  is_brushless_ n = false ->
  publishes_only (events_of (run inputs) n w) = true /\
  requests (events_of (run inputs) n w) = [] /\
  replies (snd (exec (run inputs) n w)) = replies w /\
  armed_ (fst (exec (run inputs) n w)) = armed_ n.
Proof.
  revert n w. induction inputs as [|i rest IH]; intros n w Hb.
  - rewrite events_of_run_nil. repeat split.
  - destruct (brushed_step i n w Hb) as (Hb1 & Ha1 & Hr1 & Hp1).
    destruct (IH _ (snd (exec (step i) n w)) Hb1) as (Hp & Hq & Hr & Ha).
    rewrite events_of_run_cons, exec_run_cons, publishes_only_app, Hp1, Hp.
    unfold requests in *. rewrite flat_map_app, Hq, app_nil_r.
    repeat split; try congruence.
    clear - Hp1. induction (events_of (step i) n w) as [|e l IHl]; [reflexivity|].
    destruct e; try discriminate. apply IHl, Hp1.
Qed.

(** [armed_] follows the last command. *)
Lemma armed_by_last_command_step (i : Input) (n : Node) (w : World) :
  armed_ n = armed_by_last_command n ->
  armed_ (fst (exec (step i) n w)) = armed_by_last_command (fst (exec (step i) n w)).
Proof.
  assert (Hcmd : forall msg n w, armed_ n = armed_by_last_command n ->
    armed_ (fst (exec (so3_cmd_callback msg) n w)) =
    armed_by_last_command (fst (exec (so3_cmd_callback msg) n w))).
  { clear. intros msg n w HI.
    destruct (so3_cmd_callback_exec n w msg) as (Hs & Hl & _ & Ha & _).
    destruct (so3_cmd_callback_frame n w msg) as (_ & Hc).
    assert (Hb : is_brushless_ (fst (exec (so3_cmd_callback msg) n w)) = is_brushless_ n)
      by (unfold same_config in Hc; intuition congruence).
    unfold armed_by_last_command in *. rewrite Ha, Hs, Hl, Hb.
    destruct (is_brushless_ n); [reflexivity|].
    rewrite HI, andb_false_r. reflexivity. }
  intros HI. destruct i as [msg | odom now]; cbn [step].
  - apply Hcmd, HI.
  - rewrite odom_callback_exec.
    destruct (store_odom_exec n w odom) as (n1 & Hx & _ & _ & _ & _ & Hc & Hf).
    rewrite Hx. cbn [fst].
    assert (HI1 : armed_ n1 = armed_by_last_command n1).
    { unfold armed_by_last_command, same_cmd_state, same_config in *.
      destruct Hc as (-> & -> & _ & _ & ->).
      replace (is_brushless_ n1) with (is_brushless_ n) by intuition congruence.
      exact HI. }
    destruct (so3_cmd_timed_out now n); [apply Hcmd, HI1 | exact HI1].
Qed.

Lemma armed_by_last_command_reachable (n : Node) (w : World) :
  reachable n w -> armed_ n = armed_by_last_command n.
Proof.
  intros (ps & this & answers & inputs & _ & Hr).
  pose proof (run_invariant (fun n _ => armed_ n = armed_by_last_command n)
                (fun i n w => armed_by_last_command_step i n w) inputs
                (onInit ps this) (start answers) eq_refl) as H.
  rewrite Hr in H. exact H.
Qed.

(** X7: in every state the nodelet can reach, armed_ is true exactly when a
    command was received, the vehicle is brushless and the last command
    received has the motors enabled. *)
Theorem armed_mirrors_last_command (n : Node) (w : World) :
  reachable n w ->
  armed_ n = so3_cmd_set_ n && is_brushless_ n && enable_motors (last_so3_cmd_ n).
Proof. apply armed_by_last_command_reachable. Qed.

(** A command that agrees with [armed_] requests nothing. *)
Lemma settled_command_publishes_only (n : Node) (w : World) (msg : SO3Command) :
  is_brushless_ n = true -> armed_ n = enable_motors msg ->
  publishes_only (events_of (so3_cmd_callback msg) n w) = true /\
  replies (snd (exec (so3_cmd_callback msg) n w)) = replies w.
Proof.
  intros Hb Ha.
  destruct (so3_cmd_callback_exec n w msg) as (_ & _ & _ & _ & _ & Hr & evs & Ht & _ & Hp).
  rewrite Hb, Ha, xorb_nilpotent in *. cbn [andb] in *.
  split; [|exact Hr].
  rewrite (events_of_trace _ _ _ evs Ht). apply Hp. reflexivity.
Qed.

(** X8: in every state the nodelet can reach, an odometry sample never
    calls the send_packet service and never sleeps, also when it re-issues
    the last command after the timeout: the re-issued command finds the
    vehicle armed or disarmed as it left it.  The events of the sample are
    publications, and the answers of the service are left unread. *)
Theorem odometry_never_calls_service (n : Node) (w : World) (odom : Odometry) (now : Time) :
  reachable n w ->
  publishes_only (events_of (odom_callback odom now) n w) = true /\
  replies (snd (exec (odom_callback odom now) n w)) = replies w.
Proof.
  intros Hr. pose proof (armed_by_last_command_reachable n w Hr) as HI.
  rewrite odom_callback_events, odom_callback_exec.
  destruct (store_odom_exec n w odom) as (n1 & Hx & _ & _ & _ & _ & Hc & Hf).
  rewrite Hx. cbn [fst].
  destruct (so3_cmd_timed_out now n) eqn:Ht; [|split; reflexivity].
  unfold so3_cmd_timed_out in Ht. apply andb_prop in Ht as (Hs & _).
  assert (Hb1 : is_brushless_ n1 = is_brushless_ n)
    by (unfold same_config in Hf; intuition congruence).
  assert (Ha1 : armed_ n1 = armed_ n)
    by (unfold same_cmd_state in Hc; intuition congruence).
  unfold armed_by_last_command in HI. rewrite Hs in HI. cbn [andb] in HI.
  destruct (is_brushless_ n) eqn:Hb; cbn [andb] in HI.
  - apply settled_command_publishes_only; congruence.
  - pose proof (brushed_step (Cmd (last_so3_cmd_ n)) n1 w Hb1) as (_ & _ & H3 & H4).
    split; assumption.
Qed.

(** X9: of two commands in a row with the same enable_motors, the second
    one requests nothing from the service, whatever the service answered to
    the first: an arm request that failed is not repeated, and neither is a
    disarming. *)
Theorem repeated_command_requests_nothing
    (n : Node) (w : World) (msg1 msg2 : SO3Command) :
  enable_motors msg1 = enable_motors msg2 ->
  let n1 := fst (exec (so3_cmd_callback msg1) n w) in
  let w1 := snd (exec (so3_cmd_callback msg1) n w) in
  publishes_only (events_of (so3_cmd_callback msg2) n1 w1) = true /\
  requests (events_of (so3_cmd_callback msg2) n1 w1) = [] /\
  replies (snd (exec (so3_cmd_callback msg2) n1 w1)) = replies w1.
Proof.
  intros He n1 w1.
  destruct (so3_cmd_callback_exec n w msg1) as (_ & _ & _ & Ha & _).
  destruct (so3_cmd_callback_frame n w msg1) as (_ & Hc).
  assert (Hb : is_brushless_ n1 = is_brushless_ n)
    by (unfold same_config in Hc; intuition congruence).
  fold n1 in Ha.
  assert (H : publishes_only (events_of (so3_cmd_callback msg2) n1 w1) = true /\
              replies (snd (exec (so3_cmd_callback msg2) n1 w1)) = replies w1).
  { destruct (is_brushless_ n) eqn:Hbn.
    - apply settled_command_publishes_only; [exact Hb | rewrite Ha; exact He].
    - pose proof (brushed_step (Cmd msg2) n1 w1 Hb) as (_ & _ & H3 & H4).
      split; assumption. }
  destruct H as (Hp & Hr). split; [exact Hp|]. split; [|exact Hr].
  clear - Hp. unfold requests.
  induction (events_of (so3_cmd_callback msg2) n1 w1) as [|e l IHl]; [reflexivity|].
  destruct e; try discriminate. apply IHl, Hp.
Qed.


(** *** The stored command *)

Lemma stored_stamp_step (i : Input) (n : Node) (w : World) :
  (so3_cmd_set_ n = true -> last_so3_cmd_time_ n = cmd_stamp (last_so3_cmd_ n)) ->
  let n' := fst (exec (step i) n w) in
  so3_cmd_set_ n' = true -> last_so3_cmd_time_ n' = cmd_stamp (last_so3_cmd_ n').
Proof.
  intros HI n' Hs. subst n'. destruct i as [msg | odom now]; cbn [step] in *.
  - destruct (so3_cmd_callback_exec n w msg) as (_ & Hl & Ht & _). congruence.
  - rewrite odom_callback_exec in *.
    destruct (store_odom_exec n w odom) as (n1 & Hx & _ & _ & _ & _ & Hc & _).
    rewrite Hx in *. cbn [fst] in *.
    destruct (so3_cmd_timed_out now n).
    + destruct (so3_cmd_callback_exec n1 w (last_so3_cmd_ n)) as (_ & Hl & Ht & _).
      congruence.
    + cbn [fst] in *. unfold same_cmd_state in Hc. destruct Hc as (E1 & E2 & E3 & _).
      rewrite E2, E3. apply HI. congruence.
Qed.

Lemma stored_stamp_reachable (n : Node) (w : World) :
  reachable n w ->
  so3_cmd_set_ n = true -> last_so3_cmd_time_ n = cmd_stamp (last_so3_cmd_ n).
Proof.
  intros (ps & this & answers & inputs & _ & Hr).
  pose proof (run_invariant
                (fun n _ => so3_cmd_set_ n = true ->
                            last_so3_cmd_time_ n = cmd_stamp (last_so3_cmd_ n))
                (fun i n w => stored_stamp_step i n w) inputs
                (onInit ps this) (start answers)) as H.
  rewrite Hr in H. apply H. discriminate.
Qed.

(** X10: in every state the nodelet can reach, an odometry sample leaves the
    stored command and its stamp as they are, also when it re-issues the
    command: the re-issue does not restart the timeout, so a command that
    timed out stays timed out, for the same clock reading, until a new
    command arrives. *)
Theorem reissue_keeps_stored_command
    (n : Node) (w : World) (odom : Odometry) (now : Time) :
  reachable n w ->
  let n' := fst (exec (odom_callback odom now) n w) in
  so3_cmd_set_ n' = so3_cmd_set_ n /\
  last_so3_cmd_ n' = last_so3_cmd_ n /\
  last_so3_cmd_time_ n' = last_so3_cmd_time_ n /\
  (forall later, so3_cmd_timed_out later n' = so3_cmd_timed_out later n).
Proof.
  intros Hr n'.
  pose proof (stored_stamp_reachable n w Hr) as HI.
  assert (H : so3_cmd_set_ n' = so3_cmd_set_ n /\
              last_so3_cmd_ n' = last_so3_cmd_ n /\
              last_so3_cmd_time_ n' = last_so3_cmd_time_ n).
  { subst n'. rewrite odom_callback_exec.
    destruct (store_odom_exec n w odom) as (n1 & Hx & _ & _ & _ & _ & Hc & _).
    rewrite Hx. cbn [fst].
    unfold same_cmd_state in Hc. destruct Hc as (E1 & E2 & E3 & _).
    destruct (so3_cmd_timed_out now n) eqn:Ht.
    - unfold so3_cmd_timed_out in Ht. apply andb_prop in Ht as (Hs & _).
      destruct (so3_cmd_callback_exec n1 w (last_so3_cmd_ n)) as (H1 & H2 & H3 & _).
      rewrite H1, H2, H3, Hs, (HI Hs). repeat split.
    - cbn [fst]. repeat split; assumption. }
  destruct H as (H1 & H2 & H3). repeat split; try assumption.
  intros later. unfold so3_cmd_timed_out. rewrite H1, H3.
  pose proof (step_keeps_timeout (Odom odom now) n w) as H4. cbn [step] in H4.
  fold n' in H4. rewrite H4. reflexivity.
Qed.


(** *** The spin-up *)

(** X11: a stored command with the motors enabled that has timed out is
    re-issued by every odometry sample handled past the timeout, and each
    re-issue counts as a command: [k] such samples add [k] to motor_status_,
    so the spin-up goes on, and ends, on odometry alone. *)
Theorem stale_command_spins_up
    (samples : list (Odometry * Time)) (n : Node) (w : World) :
  so3_cmd_set_ n = true ->
  last_so3_cmd_time_ n = cmd_stamp (last_so3_cmd_ n) ->
  enable_motors (last_so3_cmd_ n) = true ->
  Forall (fun s => D.leb (so3_cmd_timeout_ n) (elapsed (snd s) (last_so3_cmd_time_ n)) = true)
         samples ->
  0 <= motor_status_ n -> motor_status_ n + Z.of_nat (length samples) < 2 ^ 31 ->
  let n' := fst (exec (run (odom_inputs samples)) n w) in
  motor_status_ n' = motor_status_ n + Z.of_nat (length samples) /\
  last_so3_cmd_ n' = last_so3_cmd_ n.
Proof.
  intros Hs Hst He Hall.
  assert (Hgen : forall T t0, 
    Forall (fun s => D.leb T (elapsed (snd s) t0) = true) samples ->
    forall n w, so3_cmd_timeout_ n = T -> last_so3_cmd_time_ n = t0 ->
    so3_cmd_set_ n = true -> last_so3_cmd_time_ n = cmd_stamp (last_so3_cmd_ n) ->
    enable_motors (last_so3_cmd_ n) = true ->
    0 <= motor_status_ n -> motor_status_ n + Z.of_nat (length samples) < 2 ^ 31 ->
    motor_status_ (fst (exec (run (odom_inputs samples)) n w)) =
      motor_status_ n + Z.of_nat (length samples) /\
    last_so3_cmd_ (fst (exec (run (odom_inputs samples)) n w)) = last_so3_cmd_ n).
  { clear. intros T t0 Hall.
    induction Hall as [|[odom now] rest Hto Hrest IH]; intros n w HT Ht0 Hs Hst He H0 Hk.
    - cbn. split; [lia | reflexivity].
    - unfold odom_inputs in *. cbn [map fst snd length] in *.
      rewrite exec_run_cons. cbn [step].
      rewrite odom_callback_exec. unfold so3_cmd_timed_out. rewrite Hs, HT, Ht0, Hto.
      cbn [andb].
      destruct (store_odom_exec n w odom) as (n0 & Hx & _ & _ & _ & _ & Hc & Hf).
      rewrite Hx. cbn [fst].
      unfold same_cmd_state in Hc. destruct Hc as (C1 & C2 & C3 & C4 & _).
      destruct (enabled_exec n0 w (last_so3_cmd_ n) He)
        as (n1 & w1 & Hx1 & Hm & Hl & Ht & Hs1 & _).
      pose proof (so3_cmd_callback_frame n0 w (last_so3_cmd_ n)) as (_ & Hf1).
      rewrite Hx1 in *. cbn [fst snd] in *.
      rewrite int_add_1 in Hm by lia.
      assert (Hto1 : so3_cmd_timeout_ n1 = T)
        by (unfold same_config in *; intuition congruence).
      destruct (IH n1 w1) as (IH1 & IH2); try congruence; try lia.
      rewrite IH1, IH2, Hm, C4, Hl. split; [lia | reflexivity]. }
  intros H0 Hk n'. subst n'. eapply Hgen; eauto.
Qed.


Lemma channels_after_spin_up (s k : nat) :
  (10 <= s)%nat ->
  flat_map channels_at (map Z.of_nat (seq s k)) = repeat cmd_vel_fast k.
Proof.
  revert s. induction k as [|k IH]; intros s Hs; [reflexivity|].
  cbn [seq map flat_map repeat]. rewrite (IH (S s)) by lia.
  unfold channels_at.
  replace (Z.of_nat s <? 3) with false by (symmetry; apply Z.ltb_ge; lia).
  replace (Z.of_nat s <? 10) with false by (symmetry; apply Z.ltb_ge; lia).
  reflexivity.
Qed.

Lemma spin_up_channels_spec (k : nat) :
  flat_map channels_at (map Z.of_nat (seq 0 k)) = spin_up_channels k.
Proof.
  do 10 (destruct k as [|k]; [reflexivity|]).
  change (S (S (S (S (S (S (S (S (S (S k)))))))))) with (10 + k)%nat.
  rewrite seq_app, map_app, flat_map_app.
  rewrite (channels_after_spin_up (0 + 10) k) by lia.
  unfold spin_up_channels.
  replace (Nat.min (10 + k) 3) with 3%nat by lia.
  replace (Nat.min (10 + k - 3) 7) with 7%nat by lia.
  replace (10 + k - 10)%nat with k by lia.
  reflexivity.
Qed.

Lemma publications_app (a b : list Event) :
  publications (a ++ b) = publications a ++ publications b.
Proof. apply flat_map_app. Qed.

Lemma enabled_channels (n : Node) (msg : SO3Command) :
  map fst (publications (enabled_publications n msg)) = channels_at (motor_status_ n).
Proof.
  unfold enabled_publications, channels_at.
  destruct (motor_status_ n <? 3), (motor_status_ n <? 10); reflexivity.
Qed.

Lemma spin_up_run (msgs : list SO3Command) :
  Forall (fun msg => enable_motors msg = true) msgs ->
  forall (n : Node) (w : World),
  0 <= motor_status_ n -> motor_status_ n + Z.of_nat (length msgs) < 2 ^ 31 ->
  map fst (publications (events_of (run (map Cmd msgs)) n w)) =
    flat_map channels_at
      (map (fun i => motor_status_ n + Z.of_nat i) (seq 0 (length msgs))) /\
  motor_status_ (fst (exec (run (map Cmd msgs)) n w)) =
    motor_status_ n + Z.of_nat (length msgs).
Proof.
  induction 1 as [|msg rest He Hrest IH]; intros n w H0 Hk.
  - cbn [map length seq flat_map]. rewrite events_of_run_nil. split; [reflexivity|].
    cbn. lia.
  - cbn [map]. rewrite events_of_run_cons, exec_run_cons. cbn [step].
    destruct (enabled_exec n w msg He) as (n1 & w1 & Hx & Hm & _).
    rewrite (enabled_events n w msg He), Hx. cbn [fst snd].
    rewrite int_add_1 in Hm by (cbn [length] in Hk; lia).
    cbn [length] in Hk.
    destruct (IH n1 w1 ltac:(lia) ltac:(lia)) as (IH1 & IH2).
    rewrite publications_app, publications_arm_events, map_app, enabled_channels, IH1, IH2.
    split; [|cbn [length]; lia].
    cbn [length seq map flat_map]. rewrite Z.add_0_r. f_equal.
    rewrite <- seq_shift, map_map. f_equal. apply map_ext. intros i. lia.
Qed.

(** X12: the spin-up as a whole.  From a node whose motor_status_ is 0
    (after onInit, or after a command with the motors disabled), [k]
    commands in a row with the motors enabled publish on these channels, in
    this order: cmd_vel for each of the first three (the zero messages),
    cmd_vel and then cmd_vel_fast for each of the next seven (minimum thrust
    and conversion), cmd_vel_fast alone for every command after the tenth;
    and motor_status_ is [k] afterwards. *)
Theorem spin_up_channel_sequence (msgs : list SO3Command) (n : Node) (w : World) :
  Forall (fun msg => enable_motors msg = true) msgs ->
  motor_status_ n = 0 -> Z.of_nat (length msgs) < 2 ^ 31 ->
  map fst (publications (events_of (run (map Cmd msgs)) n w)) =
    spin_up_channels (length msgs) /\
  motor_status_ (fst (exec (run (map Cmd msgs)) n w)) = Z.of_nat (length msgs).
Proof.
  intros He H0 Hk.
  destruct (spin_up_run msgs He n w ltac:(lia) ltac:(lia)) as (H1 & H2).
  rewrite H1, H2, H0. split; [|lia].
  rewrite <- spin_up_channels_spec. f_equal.
Qed.

(** X13: a command with the motors disabled restarts the spin-up, whatever
    the state it finds: it publishes the zero message on cmd_vel, and the
    [k] commands with the motors enabled that follow it publish as after
    onInit, three zero messages first. *)
Theorem disable_restarts_spin_up
    (msg0 : SO3Command) (msgs : list SO3Command) (n : Node) (w : World) :
  enable_motors msg0 = false ->
  Forall (fun msg => enable_motors msg = true) msgs ->
  Z.of_nat (length msgs) < 2 ^ 31 ->
  map fst (publications (events_of (run (Cmd msg0 :: map Cmd msgs)) n w)) =
    cmd_vel :: spin_up_channels (length msgs).
Proof.
  intros H0 He Hk. rewrite events_of_run_cons. cbn [step].
  destruct (disabled_exec n w msg0 H0) as (n1 & w1 & Hx & Hm & _).
  rewrite publications_app, map_app, (disabled_publications n w msg0 H0), Hx.
  cbn [fst snd map app]. f_equal.
  destruct (spin_up_run msgs He n1 w1 ltac:(lia) ltac:(lia)) as (H1 & _).
  rewrite H1, Hm, <- spin_up_channels_spec. f_equal.
Qed.

(** *** What is published where *)

(** X14: cmd_vel only ever carries a thrust: every message so3_cmd_callback
    publishes there has roll, pitch and yaw rate 0 and the thrust 0 or
    thrust_pwm_min_; attitude and yaw rate only go to cmd_vel_fast.  No
    published message sets angular.x or angular.y. *)
Theorem cmd_vel_carries_thrust_only
    (n : Node) (w : World) (msg : SO3Command) (ch : Channel) (t : Twist) :
  In (ch, t) (publications (events_of (so3_cmd_callback msg) n w)) ->
  angular_x t = d_zero /\ angular_y t = d_zero /\
  (ch = cmd_vel ->
     linear_x t = d_zero /\ linear_y t = d_zero /\ angular_z t = d_zero /\
     (linear_z t = d_zero \/ linear_z t = D.of_int (thrust_pwm_min_ n))).
Proof.
  intros Hin.
  assert (H : (ch, t) = (cmd_vel, Twist_new) \/ (ch, t) = (cmd_vel, min_thrust_cmd n) \/
              (ch, t) = (cmd_vel_fast, crazy_vel_cmd n msg)).
  { destruct (enable_motors msg) eqn:He.
    - rewrite (enabled_events n w msg He), publications_arm_events in Hin.
      unfold enabled_publications in Hin.
      destruct (motor_status_ n <? 3), (motor_status_ n <? 10); simpl in Hin;
        intuition congruence.
    - rewrite (disabled_publications n w msg He) in Hin. simpl in Hin. intuition congruence. }
  destruct H as [H | [H | H]]; inversion H; subst ch t.
  - repeat split. left. reflexivity.
  - repeat split. right. reflexivity.
  - split; [reflexivity|]. split; [reflexivity|]. intros Hc. discriminate Hc.
Qed.


(** *** onInit *)

(** X15: onInit reads the three thrust coefficients with a short-circuit
    [&&]: a coefficient that is missing on the parameter server stops the
    reading, and the coefficients after it keep the value the member had
    before onInit even when the server has them; with the three of them on
    the server the members are the server's values. *)
Theorem onInit_thrust_coefficients (ps : ParamServer) (this : Node) :
  let n := onInit ps this in
  (param_c1 ps = None -> c1_ n = c1_ this /\ c2_ n = c2_ this /\ c3_ n = c3_ this) /\
  (param_c2 ps = None -> c2_ n = c2_ this /\ c3_ n = c3_ this) /\
  (param_c3 ps = None -> c3_ n = c3_ this) /\
  (forall a b c, param_c1 ps = Some a -> param_c2 ps = Some b -> param_c3 ps = Some c ->
     c1_ n = a /\ c2_ n = b /\ c3_ n = c).
Proof.
  cbv zeta. unfold onInit. cbn [c1_ c2_ c3_]. split; [|split; [|split]].
  - intros ->. repeat split.
  - intros ->. destruct (param_c1 ps); repeat split.
  - intros ->. destruct (has (param_c1 ps) && has (param_c2 ps)); reflexivity.
  - intros a b c -> -> ->. repeat split.
Qed.

(** *** Signs *)

Lemma ltb_zero (x : spec_float) : SFltb x (S754_zero false) = negb (not_negative x).
Proof. destruct x as [s|s| |s m e]; try destruct s; reflexivity. Qed.

Lemma round_aux_not_negative (prec emax m e : Z) (l : location) :
  not_negative (binary_round_aux prec emax false m e l) = true.
Proof.
  unfold binary_round_aux.
  destruct (shr_fexp prec emax m e l) as [st1 e1].
  destruct (shr_fexp prec emax _ e1 loc_Exact) as [st2 e2].
  destruct (shr_m st2); try reflexivity.
  destruct (e2 <=? emax - prec); reflexivity.
Qed.

Lemma round_not_negative (prec emax : Z) (m : positive) (e : Z) :
  not_negative (binary_round prec emax false m e) = true.
Proof.
  unfold binary_round. destruct (shl_align m e _) as [mz ez].
  apply round_aux_not_negative.
Qed.

Lemma SFmul_not_negative (prec emax : Z) (x y : spec_float) :
  not_negative x = true -> not_negative y = true ->
  not_negative (SFmul prec emax x y) = true.
Proof.
  destruct x as [sx|sx| |sx mx ex], y as [sy|sy| |sy my ey]; cbn [not_negative SFmul];
    intros Hx Hy; try reflexivity;
    try (apply negb_true_iff in Hx; subst sx); try (apply negb_true_iff in Hy; subst sy);
    try reflexivity.
  apply round_aux_not_negative.
Qed.

Lemma SFdiv_not_negative (prec emax : Z) (x : spec_float) (my : positive) (ey : Z) :
  not_negative x = true ->
  not_negative (SFdiv prec emax x (S754_finite false my ey)) = true.
Proof.
  destruct x as [sx|sx| |sx mx ex]; cbn [not_negative SFdiv];
    intros Hx; try reflexivity;
    try (apply negb_true_iff in Hx; subst sx); try reflexivity.
  destruct (SFdiv_core_binary prec emax (Zpos mx) ex (Zpos my) ey) as [[mz ez] lz].
  apply round_aux_not_negative.
Qed.

Lemma SFadd_not_negative (prec emax : Z) (x y : spec_float) :
  not_negative x = true -> not_negative y = true ->
  not_negative (SFadd prec emax x y) = true.
Proof.
  destruct x as [sx|sx| |sx mx ex], y as [sy|sy| |sy my ey]; cbn [not_negative SFadd];
    intros Hx Hy; try reflexivity;
    try (apply negb_true_iff in Hx; subst sx); try (apply negb_true_iff in Hy; subst sy);
    try reflexivity; try (destruct sx, sy; reflexivity).
  cbn [cond_Zopp Z.add binary_normalize]. apply round_not_negative.
Qed.

Lemma std_max_zero_not_negative (f : double) : not_negative (std_max f d_zero) = true.
Proof.
  unfold std_max, D.ltb, d_zero. rewrite ltb_zero.
  destruct (not_negative f) eqn:H; [exact H | reflexivity].
Qed.

(** *** Numbers of a format, by value *)

Lemma finite_val_inj (prec emax : Z) (Hfmt : format_ok prec emax)
    (s1 s2 : bool) (m1 m2 : positive) (e1 e2 : Z) :
  bounded prec emax m1 e1 = true -> bounded prec emax m2 e2 = true ->
  val (S754_finite s1 m1 e1) = val (S754_finite s2 m2 e2) ->
  S754_finite s1 m1 e1 = S754_finite s2 m2 e2.
Proof.
  intros B1 B2 Hv.
  pose proof (bounded_inv prec emax _ _ B1) as (E1 & _).
  pose proof (bounded_inv prec emax _ _ B2) as (E2 & _).
  pose proof Hfmt as (_ & Hemin & _).
  pose proof (val_finite_pos m1 e1 ltac:(lia)) as P1.
  pose proof (val_finite_pos m2 e2 ltac:(lia)) as P2.
  cbv [val] in Hv.
  assert (Hs : s1 = s2) by (destruct s1, s2; cbv [cond_Zopp] in Hv; try reflexivity; lia).
  subst s2.
  assert (Hm : Zpos m1 * 2 ^ (e1 + 1074) = Zpos m2 * 2 ^ (e2 + 1074))
    by (destruct s1; cbv [cond_Zopp] in Hv; lia).
  assert (He : e1 = e2).
  { destruct (Z.lt_trichotomy e1 e2) as [L | [E | L]]; [|exact E|].
    - pose proof (bounded_lt prec emax Hfmt m1 m2 e1 e2 B1 B2 L). lia.
    - pose proof (bounded_lt prec emax Hfmt m2 m1 e2 e1 B2 B1 L). lia. }
  subst e2. apply Z.mul_cancel_r in Hm; [|lia]. congruence.
Qed.

(** A [float] stored in a [double] and read back is the same [float]. *)
Lemma d2f_f2d (x : float) : F.valid x = true -> d2f (f2d x) = x.
Proof.
  intros Vx. destruct x as [s|s| |s m e]; try reflexivity.
  destruct (f2d_val _ Vx eq_refl) as (Vd & Fd & Ed).
  pose proof (RNf_val _ Vx) as Hr.
  pose proof (val_lt_overflow F.prec F.emax F_ok _ Vx) as Ho.
  destruct (d2f_val _ Vd Fd) as (Ff & Ef).
  { rewrite Ed, Hr. exact Ho. }
  rewrite Ed, Hr in Ef.
  pose proof (d2f_valid (f2d (S754_finite s m e))) as Vf.
  pose proof (bounded_inv F.prec F.emax _ _ Vx) as (He & _).
  change (emin F.prec F.emax) with (-149) in He.
  pose proof (val_finite_pos m e ltac:(lia)) as Hp.
  destruct (d2f (f2d (S754_finite s m e))) as [s'|s'| |s' m' e']; try discriminate.
  - cbv [val] in Ef. destruct s; cbv [cond_Zopp] in Ef; lia.
  - apply (finite_val_inj F.prec F.emax F_ok); assumption.
Qed.

(** An [int] of at most 24 bits is the same [double] whether it is
    converted at once or by way of [float]. *)
Lemma f2d_of_int (z : Z) : Z.abs z <= 2 ^ 24 -> f2d (F.of_int z) = D.of_int z.
Proof.
  intros Hz. destruct (Z.eq_dec z 0) as [-> | Hnz]; [reflexivity|].
  destruct (F_of_int_val z Hz) as (Vf & Ff & Ef).
  destruct (D_of_int_val z Hz) as (Vd & Fd & Ed).
  destruct (f2d_val _ Vf Ff) as (Vx & Fx & Ex).
  rewrite Ef in Ex.
  assert (HS : 0 < 2 ^ 1074) by (apply Z.pow_pos_nonneg; lia).
  assert (Hv : z * 2 ^ 1074 <> 0) by nia.
  destruct (f2d (F.of_int z)) as [s1|s1| |s1 m1 e1]; try discriminate;
    [cbv [val] in Ex; congruence|].
  destruct (D.of_int z) as [s2|s2| |s2 m2 e2]; try discriminate;
    [cbv [val] in Ed; congruence|].
  apply (finite_val_inj D.prec D.emax D_ok); [exact Vx | exact Vd | congruence].
Qed.

Lemma SFltb_asym (x y : spec_float) : SFltb x y = true -> SFltb y x = false.
Proof.
  unfold SFltb. rewrite (SFcompare_antisym x y).
  destruct (SFcompare x y) as [[ | | ]|]; simpl; congruence.
Qed.

Lemma SFleb_refl (x : spec_float) : is_nan x = false -> SFleb x x = true.
Proof.
  destruct x as [s|s| |s m e]; try discriminate; intros _; unfold SFleb; cbn [SFcompare].
  - reflexivity.
  - destruct s; reflexivity.
  - rewrite Z.compare_refl. fold (Pos.compare m m). rewrite Pos.compare_refl.
    destruct s; reflexivity.
Qed.

Lemma SFleb_nan (x y : spec_float) : is_nan x = true \/ is_nan y = true -> SFleb x y = false.
Proof.
  intros [H | H]; [destruct x | destruct y]; try discriminate.
  - reflexivity.
  - destruct x; reflexivity.
Qed.

(** *** The thrust, the yaw error and the timeout at their edges *)

(** X16: with a coefficient c3 that is not negative, the square root of the
    thrust curve is never taken of a negative number, whatever the force:
    a negative force is replaced by 0 before the curve, so c3 plus the force
    in grams is not below 0 (it is NaN when c3 or the force is). *)
Theorem curve_argument_not_negative (n : Node) (f : double) :
  D.ltb (c3_ n) d_zero = false ->
  D.ltb (curve_argument n f) d_zero = false.
Proof.
  unfold D.ltb, d_zero. rewrite !ltb_zero. intros H. apply negb_false_iff in H.
  apply negb_false_iff. unfold curve_argument.
  apply SFadd_not_negative; [exact H|].
  apply SFdiv_not_negative.
  apply SFmul_not_negative; [apply std_max_zero_not_negative | reflexivity].
Qed.

Lemma CLAMP_nan_passes (x : float) (lo hi : Z) : is_nan x = true -> CLAMP x lo hi = x.
Proof.
  destruct x; try discriminate. intros _. unfold CLAMP, F.ltb, SFltb.
  destruct (F.of_int lo), (F.of_int hi); reflexivity.
Qed.

Lemma thrust_pwm_nan (n : Node) (f : double) :
  is_nan f = true \/ D.ltb (curve_argument n f) d_zero = true ->
  is_nan (thrust_pwm_of n f) = true.
Proof.
  intros H. unfold thrust_pwm_of. cbv zeta. fold (curve_argument n f).
  assert (Hs : D.sqrt (curve_argument n f) = S754_nan).
  { destruct H as [H | H].
    - destruct f; try discriminate. unfold curve_argument.
      change (D.div (D.mul (std_max S754_nan d_zero) (D.of_int 1000)) d_9_81) with S754_nan.
      destruct (c3_ n); reflexivity.
    - unfold D.ltb, d_zero in H. rewrite ltb_zero in H.
      destruct (curve_argument n f) as [s|s| |s m e]; try discriminate;
        destruct s; try discriminate; reflexivity. }
  rewrite Hs.
  assert (Hm : D.mul (c2_ n) S754_nan = S754_nan) by (destruct (c2_ n); reflexivity).
  rewrite Hm.
  assert (Ha : D.add (c1_ n) S754_nan = S754_nan) by (destruct (c1_ n); reflexivity).
  rewrite Ha. reflexivity.
Qed.

(** X17: the clamp does not stop a NaN.  When the force along the body z axis
    is NaN, or when c3 plus the force in grams is negative (a negative c3),
    the thrust before the clamp is NaN, and the thrust published on
    cmd_vel_fast is NaN, not a value within the PWM bounds. *)
Theorem thrust_nan_is_published (n : Node) (msg : SO3Command) :
  is_nan (thrust_f n msg) = true \/
  D.ltb (curve_argument n (thrust_f n msg)) d_zero = true ->
  is_nan (thrust_pwm n msg) = true /\
  is_nan (linear_z (crazy_vel_cmd n msg)) = true.
Proof.
  intros H. pose proof (thrust_pwm_nan n (thrust_f n msg) H) as Hn.
  fold (thrust_pwm n msg) in Hn. split; [exact Hn|].
  unfold crazy_vel_cmd. cbn [linear_z]. rewrite CLAMP_nan_passes by exact Hn.
  destruct (thrust_pwm n msg); try discriminate. reflexivity.
Qed.


Lemma CLAMP_valid (x : float) (lo hi : Z) : F.valid x = true -> F.valid (CLAMP x lo hi) = true.
Proof.
  intros Vx. unfold CLAMP.
  destruct (F.ltb x (F.of_int lo)); [apply F_of_int_valid|].
  destruct (F.ltb (F.of_int hi) x); [apply F_of_int_valid | exact Vx].
Qed.

(** X18: the values the code computes as float and stores in the float64
    fields of the message (the thrust, the yaw rate and, in rate mode, the
    roll and pitch rates) are stored exactly: converted back to float, each
    field is the float that was computed. *)
Theorem published_floats_exact (n : Node) (msg : SO3Command) :
  let t := crazy_vel_cmd n msg in
  d2f (linear_z t) = CLAMP (thrust_pwm n msg) (thrust_pwm_min_ n) (thrust_pwm_max_ n) /\
  d2f (angular_z t) = yaw_rate_des n msg /\
  (send_ctbr_cmds_ n = true ->
     d2f (linear_x t) = pitch_rate_des n msg /\ d2f (linear_y t) = roll_rate_des n msg).
Proof.
  cbv zeta. unfold crazy_vel_cmd. cbn [linear_x linear_y linear_z angular_z].
  split; [|split].
  - apply d2f_f2d, CLAMP_valid, thrust_pwm_valid.
  - apply d2f_f2d. unfold yaw_rate_des. apply d2f_valid.
  - intros ->. split; apply d2f_f2d; [unfold pitch_rate_des | unfold roll_rate_des];
      apply d2f_valid.
Qed.

(** X19: with the bounds the wrong way round (thrust_pwm_max_ below
    thrust_pwm_min_, both of at most 24 bits) the clamp never returns the
    thrust it is given: the published thrust is thrust_pwm_min_ for a thrust
    below thrust_pwm_min_ and thrust_pwm_max_ for every other one. *)
Theorem swapped_bounds_ignore_thrust (n : Node) (msg : SO3Command) :
  thrust_pwm_max_ n < thrust_pwm_min_ n ->
  Z.abs (thrust_pwm_min_ n) <= 2 ^ 24 -> Z.abs (thrust_pwm_max_ n) <= 2 ^ 24 ->
  is_nan (thrust_pwm n msg) = false ->
  linear_z (crazy_vel_cmd n msg) =
    f2d (F.of_int (if F.ltb (thrust_pwm n msg) (F.of_int (thrust_pwm_min_ n))
                   then thrust_pwm_min_ n else thrust_pwm_max_ n)).
Proof.
  intros Hlt Hlo Hhi Hnan. unfold crazy_vel_cmd. cbn [linear_z]. f_equal.
  pose proof (thrust_pwm_valid n msg) as Vx.
  set (x := thrust_pwm n msg) in *.
  destruct (F_of_int_val _ Hlo) as (Vl & Fl & El).
  destruct (F_of_int_val _ Hhi) as (Vh & Fh & Eh).
  unfold CLAMP. destruct (F.ltb x (F.of_int (thrust_pwm_min_ n))) eqn:E1; [reflexivity|].
  replace (F.ltb (F.of_int (thrust_pwm_max_ n)) x) with true; [reflexivity|].
  symmetry. unfold F.ltb in *.
  destruct x as [s|s| |s m e] eqn:Ex; try discriminate.
  - rewrite (SFltb_val F.prec F.emax F_ok) in E1 |- * by (assumption || reflexivity).
    apply Z.ltb_ge in E1. apply Z.ltb_lt.
    assert (0 < 2 ^ 1074) by (apply Z.pow_pos_nonneg; lia). nia.
  - destruct s.
    + destruct (F.of_int (thrust_pwm_min_ n)) as [sl|sl| |sl ml el]; discriminate.
    + destruct (F.of_int (thrust_pwm_max_ n)) as [sl|sl| |sl ml el]; try discriminate;
        reflexivity.
  - rewrite (SFltb_val F.prec F.emax F_ok) in E1 |- * by (assumption || reflexivity).
    apply Z.ltb_ge in E1. apply Z.ltb_lt.
    assert (0 < 2 ^ 1074) by (apply Z.pow_pos_nonneg; lia). nia.
Qed.

(** X20: with the bounds in order (and of at most 24 bits), a thrust below
    thrust_pwm_min_ is published as exactly the thrust of the minimum-thrust
    message, the int thrust_pwm_min_ as a double, and a thrust above
    thrust_pwm_max_ (an infinite one included) as exactly thrust_pwm_max_ as
    a double: the way through float loses nothing. *)
Theorem thrust_saturation (n : Node) (msg : SO3Command) :
  thrust_pwm_min_ n <= thrust_pwm_max_ n ->
  Z.abs (thrust_pwm_min_ n) <= 2 ^ 24 -> Z.abs (thrust_pwm_max_ n) <= 2 ^ 24 ->
  (F.ltb (thrust_pwm n msg) (F.of_int (thrust_pwm_min_ n)) = true ->
     linear_z (crazy_vel_cmd n msg) = linear_z (min_thrust_cmd n)) /\
  (F.ltb (F.of_int (thrust_pwm_max_ n)) (thrust_pwm n msg) = true ->
     linear_z (crazy_vel_cmd n msg) = D.of_int (thrust_pwm_max_ n)).
Proof.
  intros Hle Hlo Hhi. unfold crazy_vel_cmd, min_thrust_cmd. cbn [linear_z].
  pose proof (thrust_pwm_valid n msg) as Vx.
  set (x := thrust_pwm n msg) in *.
  destruct (F_of_int_val _ Hlo) as (Vl & Fl & El).
  destruct (F_of_int_val _ Hhi) as (Vh & Fh & Eh).
  split; intros H; unfold CLAMP.
  - rewrite H. apply f2d_of_int, Hlo.
  - replace (F.ltb x (F.of_int (thrust_pwm_min_ n))) with false.
    + rewrite H. apply f2d_of_int, Hhi.
    + symmetry. unfold F.ltb in *.
      destruct x as [s|s| |s m e] eqn:Ex.
      * rewrite (SFltb_val F.prec F.emax F_ok) in H |- * by (assumption || reflexivity).
        apply Z.ltb_lt in H. apply Z.ltb_ge.
        assert (0 < 2 ^ 1074) by (apply Z.pow_pos_nonneg; lia). nia.
      * destruct s.
        -- destruct (F.of_int (thrust_pwm_max_ n)) as [sl|sl| |sl ml el]; discriminate.
        -- destruct (F.of_int (thrust_pwm_min_ n)) as [sl|sl| |sl ml el]; try discriminate;
             reflexivity.
      * destruct (F.of_int (thrust_pwm_max_ n)); discriminate.
      * rewrite (SFltb_val F.prec F.emax F_ok) in H |- * by (assumption || reflexivity).
        apply Z.ltb_lt in H. apply Z.ltb_ge.
        assert (0 < 2 ^ 1074) by (apply Z.pow_pos_nonneg; lia). nia.
Qed.

(** X21: one wrap is enough: for yaw angles within atan2's range, wrapping
    the yaw error a second time leaves it as it is. *)
Theorem yaw_error_wrap_once (n : Node) (msg : SO3Command) :
  yaw_angle (atan2 (R_cur n 1 0) (R_cur n 0 0)) ->
  yaw_angle (atan2 (R_des msg 1 0) (R_des msg 0 0)) ->
  wrap_yaw (e_yaw n msg) = e_yaw n msg.
Proof.
  intros (Vc & Lc & Uc) (Vd & Ld & Ud).
  destruct (yaw_val _ Vc Lc Uc) as (Vyc & Fyc & Ryc).
  destruct (yaw_val _ Vd Ld Ud) as (Vyd & Fyd & Ryd).
  destruct (F_sub_yaw _ _ Vyd Fyd Ryd Vyc Fyc Ryc) as (Vs & Fs & Rs).
  destruct (wrap_yaw_range _ Vs Fs Rs) as (H1 & H2).
  fold (yaw_des msg) (yaw_cur n) in H1, H2. fold (e_yaw n msg) in H1, H2.
  unfold wrap_yaw at 1.
  rewrite (SFleb_not_ltb _ _ H2 : D.ltb M_PI (f2d (e_yaw n msg)) = false).
  rewrite (SFltb_asym _ _ H1 : D.ltb (f2d (e_yaw n msg)) (D.opp M_PI) = false).
  reflexivity.
Qed.


(** X22: the timeout test at its edges.  With a timeout that is NaN, or an
    elapsed time that is NaN, the test fails: the odometry sample re-issues
    nothing and emits nothing.  With an elapsed time equal to the timeout the
    test (>=) holds: the sample re-issues the stored command. *)
Theorem timeout_comparison_edges (n : Node) (w : World) (odom : Odometry) (now : Time) :
  (is_nan (so3_cmd_timeout_ n) = true \/
   is_nan (elapsed now (last_so3_cmd_time_ n)) = true ->
     events_of (odom_callback odom now) n w = []) /\
  (so3_cmd_set_ n = true -> is_nan (so3_cmd_timeout_ n) = false ->
   elapsed now (last_so3_cmd_time_ n) = so3_cmd_timeout_ n ->
     publications (events_of (odom_callback odom now) n w) <> []).
Proof.
  split.
  - intros H. 
    assert (Ht : so3_cmd_timed_out now n = false).
    { unfold so3_cmd_timed_out, D.leb. rewrite (SFleb_nan _ _ H). apply andb_false_r. }
    pose proof (odom_callback_exec n w odom now) as Hx. rewrite Ht in Hx.
    destruct (store_odom_exec n w odom) as (n1 & Hs & _).
    unfold events_of. rewrite Hx, Hs. cbn [snd].
    rewrite <- (app_nil_r (trace w)) at 2. apply skipn_app_length.
  - intros Hs Hn He.
    assert (Ht : so3_cmd_timed_out now n = true).
    { unfold so3_cmd_timed_out, D.leb. rewrite Hs, He, (SFleb_refl _ Hn). reflexivity. }
    pose proof (odom_callback_exec n w odom now) as Hx. rewrite Ht in Hx.
    destruct (store_odom_exec n w odom) as (n1 & Hs1 & _).
    unfold events_of. rewrite Hx, Hs1. cbn [fst].
    apply (so3_cmd_callback_publishes n1 w).
Qed.

End Callbacks.

(** ** The properties at concrete inputs *)

Ltac evaluated := vm_compute; first [reflexivity | discriminate].

(** Eleven commands with the motors enabled after the start: three zero
    messages, seven times the minimum thrust together with the converted
    message, then the converted message alone. *)
Example spin_up_sequence :
  let msg := a_command true 0 d_zero in
  map fst (publications (trace (snd (exec (run (repeat (Cmd msg) 11))
                                          (fresh_node false) (start []))))) =
    repeat cmd_vel 3 ++ concat (repeat [cmd_vel; cmd_vel_fast] 7) ++ [cmd_vel_fast] /\
  motor_status_ (fst (exec (run (repeat (Cmd msg) 11)) (fresh_node false) (start []))) = 11.
Proof. split; evaluated. Qed.

(** The half turn about z has the yaw [(float) M_PI]; against the yaw 0 the
    error [-(float) M_PI] is below [-M_PI] and is wrapped to the [float]
    below [M_PI]. *)
Example yaw_error_half_turn :
  let n := set_q_odom_ q_half_turn (fresh_node false) in
  let msg := a_command true 0 d_zero in
  yaw_cur n = S754_finite false 13176795 (-22) /\
  yaw_des msg = S754_zero false /\
  e_yaw n msg = S754_finite false 13176794 (-22).
Proof. repeat split; evaluated. Qed.

(** What the clamp does not mend: a thrust that is not a number, bounds out
    of order, a bound that is not a [float] (2 ^ 24 + 1 becomes 2 ^ 24). *)
Example CLAMP_nan : CLAMP S754_nan 10000 60000 = S754_nan.
Proof. reflexivity. Qed.

Example CLAMP_bounds_out_of_order :
  D.ltb (D.of_int 10000) (f2d (CLAMP (F.of_int 0) 60000 10000)) = true.
Proof. evaluated. Qed.

Example CLAMP_bound_not_a_float :
  D.ltb (f2d (CLAMP (F.of_int 0) 16777217 16777217)) (D.of_int 16777217) = true.
Proof. evaluated. Qed.

(** C1 at a node with motor_status_ 3. *)
Lemma published_thrust_range_witness :
  thrust_pwm_min_ spinning_node <= thrust_pwm_max_ spinning_node /\
  Z.abs (thrust_pwm_min_ spinning_node) <= 2 ^ 24 /\
  Z.abs (thrust_pwm_max_ spinning_node) <= 2 ^ 24 /\
  is_nan (thrust_pwm spinning_node (a_command true 0 d_zero)) = false /\
  forall ch t,
    In (ch, t) (publications (events_of (so3_cmd_callback (a_command true 0 d_zero))
                                        spinning_node (start []))) ->
    within_pwm spinning_node (linear_z t) = true.
Proof.
  assert (H1 : thrust_pwm_min_ spinning_node <= thrust_pwm_max_ spinning_node) by evaluated.
  assert (H2 : Z.abs (thrust_pwm_min_ spinning_node) <= 2 ^ 24) by evaluated.
  assert (H3 : Z.abs (thrust_pwm_max_ spinning_node) <= 2 ^ 24) by evaluated.
  assert (H4 : is_nan (thrust_pwm spinning_node (a_command true 0 d_zero)) = false)
    by evaluated.
  repeat (split; [assumption|]).
  apply (proj2 (published_thrust_range spinning_node (start []) (a_command true 0 d_zero)
                  H1 H2 H3 H4)); evaluated.
Defined.

(** C1 as the spec states it fails on the first command after start: the
    zero message is published, and 0 is not within [10000, 60000]. *)
Lemma zero_command_below_pwm_min :
  enable_motors (a_command true 0 d_zero) = true /\
  In (cmd_vel, Twist_new)
     (publications (events_of (so3_cmd_callback (a_command true 0 d_zero))
                              (fresh_node false) (start []))) /\
  thrust_pwm_min_ (fresh_node false) = 10000 /\
  thrust_pwm_max_ (fresh_node false) = 60000 /\
  within_pwm (fresh_node false) (linear_z Twist_new) = false.
Proof.
  split; [reflexivity|]. split; [vm_compute; left; reflexivity|].
  repeat split; evaluated.
Qed.


(** C3 with the stored command stamped 0 and the timeout 0.1 s: handled at
    0.15 s the sample re-issues, at 0.05 s it does not. *)
Lemma timeout_reissue_witness :
  let odom := an_odometry 150000000 q_identity Vector3d_Zero in
  publications (events_of (odom_callback odom 150000000) commanded_node (start [])) <> [] /\
  events_of (odom_callback odom 50000000) commanded_node (start []) = [].
Proof.
  intros odom. split.
  - apply (proj1 (timeout_reissue commanded_node (start []) odom 150000000)). evaluated.
  - apply (proj2 (timeout_reissue commanded_node (start []) odom 50000000)). evaluated.
Defined.

(** C3 as the spec states it fails both ways: a sample stamped 1 s after
    the command and handled while the clock reads 0 is due by its stamp and
    re-issues nothing; a sample stamped 0 and handled at 1 s is not due by
    its stamp and re-issues. *)
Lemma reissue_ignores_sample_stamp :
  let late := an_odometry 1000000000 q_identity Vector3d_Zero in
  let early := an_odometry 0 q_identity Vector3d_Zero in
  spec_reissue_due late commanded_node = true /\
  events_of (odom_callback late 0) commanded_node (start []) = [] /\
  spec_reissue_due early commanded_node = false /\
  publications (events_of (odom_callback early 1000000000) commanded_node (start [])) <> [].
Proof. repeat split; evaluated. Qed.

(** C4 at motor_status_ 3 and at motor_status_ 0, on the vehicle with the
    thrust curve sqrt(f) / 64: the minimum-thrust message has the thrust
    10000, the converted message the thrust 29646.35 of 1000 g, and the zero
    message the thrust 0. *)
Lemma spin_up_publications_witness :
  let msg := a_full_command in
  enable_motors msg = true /\
  3 <= motor_status_ (sqrt_curve_node 3) < 10 /\
  publications (events_of (so3_cmd_callback msg) (sqrt_curve_node 3) (start [])) =
    [(cmd_vel, min_thrust_cmd (sqrt_curve_node 3));
     (cmd_vel_fast, crazy_vel_cmd (sqrt_curve_node 3) msg)] /\
  publications (events_of (so3_cmd_callback msg) (sqrt_curve_node 3) (start [])) =
    [(cmd_vel, {| linear_x := S754_zero false; linear_y := S754_zero false;
                  linear_z := S754_finite false 5497558138880000 (-39);
                  angular_x := S754_zero false; angular_y := S754_zero false;
                  angular_z := S754_zero false |});
     (cmd_vel_fast, full_command_twist)] /\
  S754_finite false 5497558138880000 (-39) = D.of_int 10000 /\
  D.ltb (D.of_int 29646) (linear_z full_command_twist) = true /\
  D.ltb (linear_z full_command_twist) (D.of_int 29647) = true /\
  D.ltb (D.of_int 343) (linear_y full_command_twist) = true /\
  D.ltb (linear_y full_command_twist) (D.of_int 344) = true /\
  D.ltb (D.of_int (-58)) (angular_z full_command_twist) = true /\
  D.ltb (angular_z full_command_twist) (D.of_int (-57)) = true /\
  motor_status_ (sqrt_curve_node 0) < 3 /\
  publications (events_of (so3_cmd_callback msg) (sqrt_curve_node 0) (start [])) =
    [(cmd_vel, zero_twist)].
Proof.
  intros msg.
  assert (H3 : 3 <= motor_status_ (sqrt_curve_node 3) < 10) by (split; evaluated).
  assert (H0 : motor_status_ (sqrt_curve_node 0) < 3) by evaluated.
  pose proof (proj1 (proj1 (spin_up_publications (sqrt_curve_node 3) (start []) msg eq_refl)
                       H3)) as P3.
  pose proof (proj1 (proj2 (spin_up_publications (sqrt_curve_node 0) (start []) msg eq_refl)
                       H0)) as P0.
  split; [reflexivity|]. split; [exact H3|]. split; [exact P3|].
  split; [exact (eq_trans P3 ltac:(vm_compute; reflexivity))|].
  do 7 (split; [evaluated|]).
  split; [exact H0|]. exact (eq_trans P0 ltac:(vm_compute; reflexivity)).
Defined.

(** C5 on an armed brushless vehicle: the events byte by byte, with the
    answers of the service (the third request finds none left). *)
Lemma disable_motors_sequence_witness :
  let msg := a_command false 5 d_zero in
  let evs := events_of (so3_cmd_callback msg) armed_node (start [true; false]) in
  enable_motors msg = false /\
  is_brushless_ armed_node && armed_ armed_node = true /\
  motor_status_ (fst (exec (so3_cmd_callback msg) armed_node (start [true; false]))) = 0 /\
  publications evs = [(cmd_vel, zero_twist)] /\
  requests evs =
    [{| header := 220; size := 2; data := 1 :: 0 :: repeat 0 28 |};
     {| header := 255; size := 2; data := 254 :: 2 :: repeat 0 28 |};
     {| header := 255; size := 2; data := 254 :: 3 :: repeat 0 28 |}] /\
  evs =
    [Publish cmd_vel zero_twist;
     ServiceCall {| header := 220; size := 2; data := 1 :: 0 :: repeat 0 28 |} true;
     ServiceCall {| header := 255; size := 2; data := 254 :: 2 :: repeat 0 28 |} false;
     Sleep (S754_finite false 4503599627370496 (-53));
     ServiceCall {| header := 255; size := 2; data := 254 :: 3 :: repeat 0 28 |} false].
Proof.
  intros msg evs.
  pose proof (disable_motors_sequence armed_node (start [true; false]) msg eq_refl)
    as (Hm & _ & _ & _ & Hp & Hd & _).
  assert (Hb : is_brushless_ armed_node && armed_ armed_node = true) by evaluated.
  destruct (Hd Hb) as (_ & _ & Hq & _ & (r1 & r2 & r3 & He) & _).
  split; [reflexivity|]. split; [exact Hb|]. split; [exact Hm|]. split; [exact Hp|].
  split; [exact Hq|].
  assert (Hr : evs = [Publish cmd_vel zero_twist; ServiceCall disarm_bytes true;
                      ServiceCall sysoff_bytes false;
                      Sleep (S754_finite false 4503599627370496 (-53));
                      ServiceCall syson_bytes false]) by (vm_compute; reflexivity).
  assert (Ha : [Publish cmd_vel zero_twist; ServiceCall disarm_bytes r1;
                ServiceCall sysoff_bytes r2;
                Sleep (S754_finite false 4503599627370496 (-53));
                ServiceCall syson_bytes r3] =
               [Publish cmd_vel zero_twist; ServiceCall disarm_bytes true;
                ServiceCall sysoff_bytes false;
                Sleep (S754_finite false 4503599627370496 (-53));
                ServiceCall syson_bytes false]) by (rewrite <- He; exact Hr).
  injection Ha as -> -> ->. exact He.
Defined.

(** C6 with the force -1 N and the curve 0.5 + 0 * sqrt(0 + f). *)
Lemma zero_force_thrust_witness :
  D.leb (D.of_int (-1)) d_zero = true /\
  c3_ (fresh_node false) <> S754_zero true /\
  CLAMP (thrust_pwm_of (fresh_node false) (D.of_int (-1)))
        (thrust_pwm_min_ (fresh_node false)) (thrust_pwm_max_ (fresh_node false)) =
  zero_force_floor (fresh_node false).
Proof.
  assert (H1 : D.leb (D.of_int (-1)) d_zero = true) by evaluated.
  assert (H2 : c3_ (fresh_node false) <> S754_zero true) by evaluated.
  split; [exact H1|]. split; [exact H2|].
  exact (proj1 (zero_force_thrust (fresh_node false) (D.of_int (-1)) H1 H2)).
Defined.

(** C6 as the spec states it fails for the curve 0.5 + 0 * sqrt(0 + f) and
    the bounds 10000 and 60000: the force -1 N gives 0.5 * 60000 = 30000,
    and clamp(0.5, 10000, 60000) is 10000. *)
Lemma zero_force_floor_is_scaled :
  D.leb (D.of_int (-1)) d_zero = true /\
  CLAMP (thrust_pwm_of (fresh_node false) (D.of_int (-1)))
        (thrust_pwm_min_ (fresh_node false)) (thrust_pwm_max_ (fresh_node false)) =
    F.of_int 30000 /\
  spec_zero_force_floor (fresh_node false) = F.of_int 10000 /\
  CLAMP (thrust_pwm_of (fresh_node false) (D.of_int (-1)))
        (thrust_pwm_min_ (fresh_node false)) (thrust_pwm_max_ (fresh_node false)) <>
    spec_zero_force_floor (fresh_node false).
Proof. repeat split; evaluated. Qed.

(** C7 on a node that has stored one odometry sample, stamped 0, with the
    angular velocity (3, 0, 0): the first sample gives the acceleration 0;
    the angular velocity (4, 0, 0) two seconds later gives (4 - 3) / 2 = 0.5
    about x; the same 500 ns after the first sample (dt below 1e-6) leaves
    the acceleration as it is. *)
Lemma angular_acceleration_update_witness :
  let first := {| vx := D.of_int 3; vy := d_zero; vz := d_zero |} in
  let next := {| vx := D.of_int 4; vy := d_zero; vz := d_zero |} in
  let n1 := fst (exec (odom_callback (an_odometry 0 q_identity first) 0)
                      (fresh_node false) (start [])) in
  let n2 := fst (exec (odom_callback (an_odometry 2000000000 q_identity next) 0)
                      n1 (start [])) in
  let n3 := fst (exec (odom_callback (an_odometry 500 q_identity next) 0) n1 (start [])) in
  (* first sample *)
  vx (w_dot_odom_ n1) = S754_zero false /\
  vy (w_dot_odom_ n1) = S754_zero false /\
  vz (w_dot_odom_ n1) = S754_zero false /\
  w_odom_last n1 = first /\
  (* two seconds later *)
  elapsed 2000000000 (last_odom_time_ n1) = D.of_int 2 /\
  vx (w_dot_odom_ n2) = D.div (D.sub (D.of_int 4) (D.of_int 3)) (D.of_int 2) /\
  vx (w_dot_odom_ n2) = S754_finite false 4503599627370496 (-53) /\
  D.add (vx (w_dot_odom_ n2)) (vx (w_dot_odom_ n2)) = D.of_int 1 /\
  w_odom_last n2 = next /\
  (* 500 ns later *)
  w_dot_odom_ n3 = w_dot_odom_ n1 /\
  w_odom_last n3 = first.
Proof.
  intros first next n1 n2 n3.
  destruct (proj1 (angular_acceleration_update (fresh_node false) (start [])
                     (an_odometry 0 q_identity first) 0) eq_refl)
    as (A1 & _ & _ & A4 & A5 & A6).
  assert (S1 : odom_set_ n1 = true) by reflexivity.
  assert (T2 : D.ltb d_1e_6 (elapsed (odom_stamp (an_odometry 2000000000 q_identity next))
                                     (last_odom_time_ n1)) = true) by evaluated.
  assert (T3 : D.leb (elapsed (odom_stamp (an_odometry 500 q_identity next))
                              (last_odom_time_ n1)) d_1e_6 = true) by evaluated.
  destruct (proj1 (proj2 (angular_acceleration_update n1 (start [])
                            (an_odometry 2000000000 q_identity next) 0)) S1 T2)
    as (_ & B2 & _ & B4 & _).
  destruct (proj1 (proj2 (proj2 (angular_acceleration_update n1 (start [])
                                   (an_odometry 500 q_identity next) 0))) S1 T3)
    as (C1 & C2 & _).
  assert (E2 : elapsed 2000000000 (last_odom_time_ n1) = D.of_int 2) by evaluated.
  split; [exact A4|]. split; [exact A5|]. split; [exact A6|]. split; [exact A1|].
  split; [exact E2|].
  split; [exact (eq_trans B4 ltac:(vm_compute; reflexivity))|].
  split; [exact (eq_trans B4 ltac:(vm_compute; reflexivity))|].
  split; [evaluated|].
  split; [exact B2|].
  split; [exact C1|].
  exact (eq_trans C2 A1).
Defined.

(** C8 at motor_status_ 10 and at INT_MAX. *)
Lemma motor_status_counts_witness :
  let msg := a_command true 0 d_zero in
  let top := set_motor_status_ (2 ^ 31 - 1) ready_node in
  motor_status_ (fst (exec (so3_cmd_callback (a_command false 0 d_zero))
                           ready_node (start []))) = 0 /\
  motor_status_ (fst (exec (so3_cmd_callback msg) ready_node (start []))) =
    motor_status_ ready_node + 1 /\
  motor_status_ (fst (exec (so3_cmd_callback msg) ready_node (start []))) = 11 /\
  motor_status_ (fst (exec (so3_cmd_callback msg) top (start []))) = - 2 ^ 31 /\
  events_of (so3_cmd_callback msg) (set_motor_status_ 500 ready_node) (start []) =
    events_of (so3_cmd_callback msg) ready_node (start []).
Proof.
  intros msg top.
  pose proof (motor_status_counts ready_node (start []) msg) as (_ & _ & H2 & _ & H3).
  pose proof (motor_status_counts top (start []) msg) as (_ & _ & _ & H4 & _).
  assert (E : motor_status_ (fst (exec (so3_cmd_callback msg) ready_node (start []))) =
              motor_status_ ready_node + 1)
    by (apply H2; [reflexivity | split; evaluated]).
  split; [|split; [exact E|split; [|split]]].
  - exact (proj1 (motor_status_counts ready_node (start []) (a_command false 0 d_zero))
             eq_refl).
  - exact (eq_trans E ltac:(vm_compute; reflexivity)).
  - apply H4; reflexivity.
  - apply H3; [reflexivity | evaluated | evaluated].
Defined.

(** C8 as the spec states it fails at motor_status_ 10: the next command
    with the motors enabled makes it 11. *)
Lemma motor_status_grows_past_10 :
  motor_status_ ready_node = 10 /\
  enable_motors (a_command true 0 d_zero) = true /\
  motor_status_ (fst (exec (so3_cmd_callback (a_command true 0 d_zero))
                           ready_node (start []))) = 11.
Proof. repeat split; evaluated. Qed.

(** C9 after one command on a brushless vehicle whose service acknowledges
    the request. *)
Lemma armed_after_request_witness :
  let w := snd (exec (so3_cmd_callback (a_command true 0 d_zero))
                     (fresh_node true) (start [true])) in
  reachable armed_node w /\
  armed_ armed_node = true /\
  arm_requested (trace w) = true.
Proof.
  intros w.
  assert (Hr : reachable armed_node w).
  { exists (some_params true), blank_node, [true], [Cmd (a_command true 0 d_zero)].
    split; [left|]; reflexivity. }
  assert (Ha : armed_ armed_node = true) by reflexivity.
  split; [exact Hr|]. split; [exact Ha|].
  exact (proj1 (armed_after_request armed_node w Hr) Ha).
Defined.

(** C9 as the spec states it fails when the service does not acknowledge
    the arm request: armed_ is true, and no arm request succeeded. *)
Lemma armed_without_acknowledgement :
  let n := fst (exec (so3_cmd_callback (a_command true 0 d_zero))
                     (fresh_node true) (start [false])) in
  let w := snd (exec (so3_cmd_callback (a_command true 0 d_zero))
                     (fresh_node true) (start [false])) in
  reachable n w /\
  armed_ n = true /\
  trace w = [ServiceCall (arming_packet true) false; Publish cmd_vel Twist_new] /\
  spec_arm_succeeded (trace w) = false.
Proof.
  intros n w. split.
  - exists (some_params true), blank_node, [false], [Cmd (a_command true 0 d_zero)].
    split; [left|]; reflexivity.
  - repeat split; evaluated.
Qed.

(** C10 with a second sample under the stamp of the first. *)
Lemma odometry_always_stored_witness :
  let n1 := fst (exec (odom_callback (an_odometry 0 q_identity Vector3d_Zero) 0)
                      (fresh_node false) (start [])) in
  let spin := {| vx := D.of_int 1; vy := d_zero; vz := d_zero |} in
  let n2 := fst (exec (odom_callback (an_odometry 0 q_half_turn spin) 0) n1 (start [])) in
  q_odom_ n2 = q_half_turn /\ w_odom_ n2 = spin /\
  w_dot_odom_ n2 = w_dot_odom_ n1 /\ w_odom_last n2 = w_odom_last n1 /\
  last_odom_time_ n2 = last_odom_time_ n1.
Proof.
  intros n1 spin n2.
  pose proof (odometry_always_stored n1 (start []) (an_odometry 0 q_half_turn spin) 0)
    as (_ & _ & H).
  destruct H as (Hq & Hw & Hd & Hl & Ht); [evaluated | evaluated |].
  repeat split; assumption.
Defined.

(** ** The further properties at concrete inputs *)

(** X1 at motor_status_ 10, on the vehicle with the thrust curve
    sqrt(f) / 64 in rate mode: the one message has the roll rate
    2 * 3 * 180 / pi = 343.77 deg/s, the thrust sqrt(1000) / 64 * 60000 =
    29646.35 and the yaw rate -180 / pi = -57.30 deg/s. *)
Lemma steady_state_publication_witness :
  let msg := a_full_command in
  let n := sqrt_curve_node 10 in
  enable_motors msg = true /\ 10 <= motor_status_ n /\
  publications (events_of (so3_cmd_callback msg) n (start [])) =
    [(cmd_vel_fast, crazy_vel_cmd n msg)] /\
  publications (events_of (so3_cmd_callback msg) n (start [])) =
    [(cmd_vel_fast, full_command_twist)] /\
  D.ltb (D.of_int 29646) (linear_z full_command_twist) = true /\
  D.ltb (linear_z full_command_twist) (D.of_int 29647) = true /\
  D.ltb (D.of_int 343) (linear_y full_command_twist) = true /\
  D.ltb (linear_y full_command_twist) (D.of_int 344) = true /\
  D.ltb (D.of_int (-58)) (angular_z full_command_twist) = true /\
  D.ltb (angular_z full_command_twist) (D.of_int (-57)) = true.
Proof.
  intros msg n.
  assert (H : 10 <= motor_status_ n) by evaluated.
  pose proof (proj1 (steady_state_publication n (start []) msg eq_refl H)) as Hp.
  split; [reflexivity|]. split; [exact H|]. split; [exact Hp|].
  split; [exact (eq_trans Hp ltac:(vm_compute; reflexivity))|].
  repeat split; evaluated.
Defined.

(** X12 with eleven commands after the start. *)
Lemma spin_up_channel_sequence_witness :
  let msgs := repeat (a_command true 0 d_zero) 11 in
  Forall (fun msg => enable_motors msg = true) msgs /\
  motor_status_ (fresh_node false) = 0 /\
  Z.of_nat (length msgs) < 2 ^ 31 /\
  map fst (publications (events_of (run (map Cmd msgs)) (fresh_node false) (start []))) =
    spin_up_channels 11 /\
  motor_status_ (fst (exec (run (map Cmd msgs)) (fresh_node false) (start []))) = 11.
Proof.
  intros msgs.
  assert (H1 : Forall (fun msg => enable_motors msg = true) msgs)
    by (repeat constructor).
  assert (H2 : motor_status_ (fresh_node false) = 0) by reflexivity.
  assert (H3 : Z.of_nat (length msgs) < 2 ^ 31) by evaluated.
  split; [exact H1|]. split; [exact H2|]. split; [exact H3|].
  exact (spin_up_channel_sequence msgs (fresh_node false) (start []) H1 H2 H3).
Defined.

(** X13: a disabling at motor_status_ 10, then four commands. *)
Lemma disable_restarts_spin_up_witness :
  let msg0 := a_command false 0 d_zero in
  let msgs := repeat (a_command true 0 d_zero) 4 in
  enable_motors msg0 = false /\
  Forall (fun msg => enable_motors msg = true) msgs /\
  Z.of_nat (length msgs) < 2 ^ 31 /\
  map fst (publications (events_of (run (Cmd msg0 :: map Cmd msgs)) ready_node (start []))) =
    [cmd_vel; cmd_vel; cmd_vel; cmd_vel; cmd_vel; cmd_vel_fast].
Proof.
  intros msg0 msgs.
  assert (H1 : Forall (fun msg => enable_motors msg = true) msgs)
    by (repeat constructor).
  assert (H3 : Z.of_nat (length msgs) < 2 ^ 31) by evaluated.
  split; [reflexivity|]. split; [exact H1|]. split; [exact H3|].
  exact (disable_restarts_spin_up msg0 msgs ready_node (start []) eq_refl H1 H3).
Defined.

(** X14: the minimum-thrust message at motor_status_ 3. *)
Lemma cmd_vel_carries_thrust_only_witness :
  let msg := a_command true 0 d_zero in
  In (cmd_vel, min_thrust_cmd spinning_node)
     (publications (events_of (so3_cmd_callback msg) spinning_node (start []))) /\
  linear_x (min_thrust_cmd spinning_node) = d_zero /\
  linear_y (min_thrust_cmd spinning_node) = d_zero /\
  angular_z (min_thrust_cmd spinning_node) = d_zero.
Proof.
  intros msg.
  assert (H : In (cmd_vel, min_thrust_cmd spinning_node)
     (publications (events_of (so3_cmd_callback msg) spinning_node (start []))))
    by (vm_compute; left; reflexivity).
  split; [exact H|].
  destruct (cmd_vel_carries_thrust_only spinning_node (start []) msg _ _ H)
    as (_ & _ & Hc).
  destruct (Hc eq_refl) as (H1 & H2 & H3 & _).
  repeat split; assumption.
Defined.

(** X5: two odometry samples after the start, the second one second later. *)
Lemma odometry_before_first_command_witness :
  let samples := [(an_odometry 0 q_identity Vector3d_Zero, 0);
                  (an_odometry 1000000000 q_half_turn Vector3d_Zero, 1000000000)] in
  so3_cmd_set_ (fresh_node false) = false /\
  snd (exec (run (odom_inputs samples)) (fresh_node false) (start [true])) = start [true].
Proof.
  intros samples. split; [reflexivity|].
  exact (proj1 (odometry_before_first_command samples (fresh_node false) (start [true])
                  eq_refl)).
Defined.

(** X6: a command, a sample past the timeout, a disabling. *)
Lemma brushed_never_calls_service_witness :
  let inputs := [Cmd (a_command true 0 d_zero);
                 Odom (an_odometry 0 q_identity Vector3d_Zero) 1000000000;
                 Cmd (a_command false 0 d_zero)] in
  is_brushless_ (fresh_node false) = false /\
  requests (events_of (run inputs) (fresh_node false) (start [true; true])) = [] /\
  replies (snd (exec (run inputs) (fresh_node false) (start [true; true]))) = [true; true].
Proof.
  intros inputs. split; [reflexivity|].
  destruct (brushed_never_calls_service inputs (fresh_node false) (start [true; true])
              eq_refl) as (_ & H1 & H2 & _).
  split; [exact H1 | exact H2].
Defined.

(** X7: after one command on a brushless vehicle. *)
Lemma armed_mirrors_last_command_witness :
  let w := snd (exec (so3_cmd_callback (a_command true 0 d_zero))
                     (fresh_node true) (start [true])) in
  reachable armed_node w /\
  armed_ armed_node =
    so3_cmd_set_ armed_node && is_brushless_ armed_node &&
    enable_motors (last_so3_cmd_ armed_node).
Proof.
  intros w.
  assert (Hr : reachable armed_node w).
  { exists (some_params true), blank_node, [true], [Cmd (a_command true 0 d_zero)].
    split; [left|]; reflexivity. }
  split; [exact Hr|].
  exact (armed_mirrors_last_command armed_node w Hr).
Defined.

(** X8: the armed brushless vehicle, a sample past the timeout. *)
Lemma odometry_never_calls_service_witness :
  let w := snd (exec (so3_cmd_callback (a_command true 0 d_zero))
                     (fresh_node true) (start [true; true])) in
  let odom := an_odometry 0 q_identity Vector3d_Zero in
  reachable armed_node w /\
  events_of (odom_callback odom 1000000000) armed_node w <> [] /\
  publishes_only (events_of (odom_callback odom 1000000000) armed_node w) = true /\
  replies (snd (exec (odom_callback odom 1000000000) armed_node w)) = replies w.
Proof.
  intros w odom.
  assert (Hr : reachable armed_node w).
  { exists (some_params true), blank_node, [true; true], [Cmd (a_command true 0 d_zero)].
    split; [left|]; reflexivity. }
  split; [exact Hr|]. split; [evaluated|].
  exact (odometry_never_calls_service armed_node w odom 1000000000 Hr).
Defined.

(** X9: a brushless vehicle whose arm request fails, and a second command. *)
Lemma repeated_command_requests_nothing_witness :
  let msg := a_command true 0 d_zero in
  let n1 := fst (exec (so3_cmd_callback msg) (fresh_node true) (start [false; true])) in
  let w1 := snd (exec (so3_cmd_callback msg) (fresh_node true) (start [false; true])) in
  enable_motors msg = enable_motors msg /\
  requests (events_of (so3_cmd_callback msg) (fresh_node true) (start [false; true])) =
    [arming_packet true] /\
  requests (events_of (so3_cmd_callback msg) n1 w1) = [] /\
  replies (snd (exec (so3_cmd_callback msg) n1 w1)) = [true].
Proof.
  intros msg n1 w1. split; [reflexivity|]. split; [evaluated|].
  destruct (repeated_command_requests_nothing (fresh_node true) (start [false; true])
              msg msg eq_refl) as (_ & H1 & H2).
  split; [exact H1 | exact H2].
Defined.

(** X10: the stored command stamped 0, a sample handled at 1 s. *)
Lemma reissue_keeps_stored_command_witness :
  let w := snd (exec (so3_cmd_callback (a_command true 0 d_zero))
                     (fresh_node false) (start [])) in
  let odom := an_odometry 1000000000 q_identity Vector3d_Zero in
  let n' := fst (exec (odom_callback odom 1000000000) commanded_node w) in
  reachable commanded_node w /\
  so3_cmd_timed_out 1000000000 commanded_node = true /\
  last_so3_cmd_time_ n' = 0 /\
  so3_cmd_timed_out 1000000000 n' = true.
Proof.
  intros w odom n'.
  assert (Hr : reachable commanded_node w).
  { exists (some_params false), blank_node, [], [Cmd (a_command true 0 d_zero)].
    split; [left|]; reflexivity. }
  assert (Ht : so3_cmd_timed_out 1000000000 commanded_node = true) by evaluated.
  destruct (reissue_keeps_stored_command commanded_node w odom 1000000000 Hr)
    as (_ & _ & H3 & H4).
  split; [exact Hr|]. split; [exact Ht|]. split.
  - exact H3.
  - exact (eq_trans (H4 1000000000) Ht).
Defined.

(** X11: the stored command stamped 0 and nine samples past the timeout: the
    counter goes from 1 to 10. *)
Lemma stale_command_spins_up_witness :
  let samples := repeat (an_odometry 0 q_identity Vector3d_Zero, 1000000000) 9 in
  so3_cmd_set_ commanded_node = true /\
  motor_status_ commanded_node = 1 /\
  motor_status_ (fst (exec (run (odom_inputs samples)) commanded_node (start []))) = 10.
Proof.
  intros samples.
  assert (H1 : so3_cmd_set_ commanded_node = true) by reflexivity.
  assert (H2 : last_so3_cmd_time_ commanded_node = cmd_stamp (last_so3_cmd_ commanded_node))
    by reflexivity.
  assert (H3 : enable_motors (last_so3_cmd_ commanded_node) = true) by reflexivity.
  assert (H4 : Forall (fun s => D.leb (so3_cmd_timeout_ commanded_node)
                 (elapsed (snd s) (last_so3_cmd_time_ commanded_node)) = true) samples)
    by (repeat constructor).
  assert (H5 : 0 <= motor_status_ commanded_node) by evaluated.
  assert (H6 : motor_status_ commanded_node + Z.of_nat (length samples) < 2 ^ 31) by evaluated.
  split; [exact H1|]. split; [reflexivity|].
  exact (proj1 (stale_command_spins_up samples commanded_node (start []) H1 H2 H3 H4 H5 H6)).
Defined.

(** X16: c3 = 0 and the force -1 N. *)
Lemma curve_argument_not_negative_witness :
  D.ltb (c3_ (fresh_node false)) d_zero = false /\
  D.ltb (curve_argument (fresh_node false) (D.of_int (-1))) d_zero = false.
Proof.
  assert (H : D.ltb (c3_ (fresh_node false)) d_zero = false) by evaluated.
  split; [exact H|].
  exact (curve_argument_not_negative (fresh_node false) (D.of_int (-1)) H).
Defined.

(** X17: c3 = -1 and no force. *)
Lemma thrust_nan_is_published_witness :
  let msg := a_command true 0 d_zero in
  D.ltb (curve_argument negative_c3_node (thrust_f negative_c3_node msg)) d_zero = true /\
  is_nan (linear_z (crazy_vel_cmd negative_c3_node msg)) = true.
Proof.
  intros msg.
  assert (H : D.ltb (curve_argument negative_c3_node (thrust_f negative_c3_node msg))
                d_zero = true) by evaluated.
  split; [exact H|].
  exact (proj2 (thrust_nan_is_published negative_c3_node msg (or_intror H))).
Defined.

(** X19: the bounds 60000 and 10000 the wrong way round, the thrust
    0.5 * 10000 = 5000. *)
Lemma swapped_bounds_ignore_thrust_witness :
  let n := swapped_bounds_node in
  let msg := a_command true 0 d_zero in
  thrust_pwm_max_ n < thrust_pwm_min_ n /\
  Z.abs (thrust_pwm_min_ n) <= 2 ^ 24 /\ Z.abs (thrust_pwm_max_ n) <= 2 ^ 24 /\
  is_nan (thrust_pwm n msg) = false /\
  linear_z (crazy_vel_cmd n msg) =
    f2d (F.of_int (if F.ltb (thrust_pwm n msg) (F.of_int (thrust_pwm_min_ n))
                   then thrust_pwm_min_ n else thrust_pwm_max_ n)).
Proof.
  intros n msg.
  assert (H1 : thrust_pwm_max_ n < thrust_pwm_min_ n) by evaluated.
  assert (H2 : Z.abs (thrust_pwm_min_ n) <= 2 ^ 24) by evaluated.
  assert (H3 : Z.abs (thrust_pwm_max_ n) <= 2 ^ 24) by evaluated.
  assert (H4 : is_nan (thrust_pwm n msg) = false) by evaluated.
  repeat (split; [assumption|]).
  exact (swapped_bounds_ignore_thrust n msg H1 H2 H3 H4).
Defined.

(** X18 in rate mode. *)
Lemma published_floats_exact_witness :
  let msg := a_command true 0 d_zero in
  send_ctbr_cmds_ rate_mode_node = true /\
  d2f (linear_x (crazy_vel_cmd rate_mode_node msg)) = pitch_rate_des rate_mode_node msg /\
  d2f (linear_y (crazy_vel_cmd rate_mode_node msg)) = roll_rate_des rate_mode_node msg.
Proof.
  intros msg. split; [reflexivity|].
  exact (proj2 (proj2 (published_floats_exact rate_mode_node msg)) eq_refl).
Defined.

(** X21 with the vehicle turned by half a turn about z. *)
Lemma yaw_error_wrap_once_witness :
  let n := set_q_odom_ q_half_turn (fresh_node false) in
  let msg := a_command true 0 d_zero in
  yaw_angle (atan2 (R_cur n 1 0) (R_cur n 0 0)) /\
  yaw_angle (atan2 (R_des msg 1 0) (R_des msg 0 0)) /\
  wrap_yaw (e_yaw n msg) = e_yaw n msg.
Proof.
  intros n msg.
  assert (H1 : yaw_angle (atan2 (R_cur n 1 0) (R_cur n 0 0))) by (repeat split; evaluated).
  assert (H2 : yaw_angle (atan2 (R_des msg 1 0) (R_des msg 0 0))) by (repeat split; evaluated).
  split; [exact H1|]. split; [exact H2|].
  exact (yaw_error_wrap_once n msg H1 H2).
Defined.

(** X15: c1 is missing, c3 = -1 is on the server and is not read. *)
Lemma onInit_thrust_coefficients_witness :
  let ps := params_with None (Some (D.of_int (-1))) None None None None in
  param_c1 ps = None /\ param_c3 ps = Some (D.of_int (-1)) /\
  c3_ (onInit ps blank_node) = c3_ blank_node.
Proof.
  intros ps. split; [reflexivity|]. split; [reflexivity|].
  exact (proj2 (proj2 (proj1 (onInit_thrust_coefficients ps blank_node) eq_refl))).
Defined.

(** X20: the curve constant 0 gives the thrust 0, below 10000; the curve
    constant 2 gives 120000, above 60000. *)
Lemma thrust_saturation_witness :
  let msg := a_command true 0 d_zero in
  linear_z (crazy_vel_cmd (curve_node 0) msg) = linear_z (min_thrust_cmd (curve_node 0)) /\
  linear_z (crazy_vel_cmd (curve_node 2) msg) = D.of_int 60000.
Proof.
  intros msg. split.
  - refine (proj1 (thrust_saturation (curve_node 0) msg _ _ _) _); evaluated.
  - refine (proj2 (thrust_saturation (curve_node 2) msg _ _ _) _); evaluated.
Defined.

(** X22: a timeout that is not a number, and the timeout 1 s with the sample
    handled 1 s after the stamp of the command. *)
Lemma timeout_comparison_edges_witness :
  let odom := an_odometry 0 q_identity Vector3d_Zero in
  events_of (odom_callback odom 1000000000) (timeout_node S754_nan) (start []) = [] /\
  elapsed 1000000000 (last_so3_cmd_time_ (timeout_node (D.of_int 1))) =
    so3_cmd_timeout_ (timeout_node (D.of_int 1)) /\
  publications (events_of (odom_callback odom 1000000000) (timeout_node (D.of_int 1))
                          (start [])) <> [].
Proof.
  intros odom.
  assert (H : elapsed 1000000000 (last_so3_cmd_time_ (timeout_node (D.of_int 1))) =
              so3_cmd_timeout_ (timeout_node (D.of_int 1))) by evaluated.
  split; [|split; [exact H|]].
  - apply (proj1 (timeout_comparison_edges (timeout_node S754_nan) (start []) odom
                    1000000000)).
    left. reflexivity.
  - apply (proj2 (timeout_comparison_edges (timeout_node (D.of_int 1)) (start []) odom
                    1000000000)); [reflexivity | reflexivity | exact H].
Defined.
